(** * scpdf: the low-level PDF writer and the document facade

    A shallow embedding of the Go package [scpdf] (pdf.go, color.go,
    scpdf.go, essential.go) and the properties of its specification.

    Conventions of the embedding:
    - a Go [[]byte] and a Go [string] are both [list byte];
    - a Go [int] is a [Z]; the one counter that only ever grows, the byte
      position [pos], wraps at 64 bits ([int_add]);
    - a function that can panic returns an [option]: [None] is the panic;
    - a Go [error] result is an [option error]: [None] is [nil];
    - a pointer receiver that is mutated becomes state passing: the
      function returns the new state next to its results. *)

From Stdlib Require Import ZArith List Lia Bool Floats Uint63.
From Stdlib.Strings Require Import String Ascii Byte.
From stdpp Require Import base tactics option list gmap strings.
Import ListNotations.

#[local] Open Scope Z_scope.
#[local] Open Scope list_scope.

(** ** Bytes and byte strings *)

Abbreviation bytes := (list byte).

#[global] Instance byte_eq_dec : EqDecision byte.
Proof.
  intros a b. destruct (N.eq_dec (Byte.to_N a) (Byte.to_N b)) as [E | E].
  - left. apply (f_equal Byte.of_N) in E.
    rewrite !Byte.of_to_N in E. congruence.
  - right. congruence.
Defined.

(** A string literal of the source, as bytes. *)
Definition bs (s : string) : bytes := list_byte_of_string s.
#[global] Arguments bs : simpl never.

Definition NL : byte := x0a.
Definition SP : byte := x20.
Definition QUOTE : byte := x27.

(** [int(b)] and [byte(n)] for [n] below 256. *)
Definition code (b : byte) : Z := Z.of_N (Byte.to_N b).

Definition byte_of (n : Z) : byte :=
  match Byte.of_N (Z.to_N n) with Some b => b | None => x00 end.

(** [len] of a slice or string. *)
Definition len {A} (l : list A) : Z := Z.of_nat (length l).

(** ** Go's [int] *)

(** Two's complement wrap-around of a 64-bit [int]. *)
Definition int_wrap (z : Z) : Z := (z + 2 ^ 63) mod 2 ^ 64 - 2 ^ 63.

Definition int_add (a b : Z) : Z := int_wrap (a + b).

(** ** [fmt]: the verbs the package uses on integers *)

Definition digit (d : Z) : byte := byte_of (48 + d).

(** Decimal digits of a non-negative number, most significant first. *)
Fixpoint udec_aux (fuel : nat) (n : Z) (acc : bytes) : bytes :=
  match fuel with
  | O => acc
  | S f =>
      let acc' := digit (n mod 10) :: acc in
      if n / 10 =? 0 then acc' else udec_aux f (n / 10) acc'
  end.

Definition udec (n : Z) : bytes := udec_aux (S (Z.to_nat (Z.log2 n))) n [].

(** [%d] and [%v] of an [int]. *)
Definition fmt_d (n : Z) : bytes :=
  if n <? 0 then bs "-" ++ udec (- n) else udec n.

(** [%0wd]: the sign first, then zeros up to width [w]. *)
Definition fmt_0d (w : nat) (n : Z) : bytes :=
  let sign := if n <? 0 then bs "-" else [] in
  let ds := udec (Z.abs n) in
  sign ++ repeat (digit 0) (w - length sign - length ds) ++ ds.

Definition hexdigit (d : Z) : byte :=
  if d <? 10 then byte_of (48 + d) else byte_of (55 + d).

(** [%X] of one byte of a byte array: two upper-case digits. *)
Definition hex2 (b : byte) : bytes :=
  [hexdigit (code b / 16); hexdigit (code b mod 16)].

(** [%X] of a byte array or slice. *)
Definition fmt_X (h : bytes) : bytes := concat (map hex2 h).

(** [%04X] of a [uint16]. *)
Definition fmt_04X (u : Z) : bytes :=
  [hexdigit (u / 4096); hexdigit (u / 256 mod 16);
   hexdigit (u / 16 mod 16); hexdigit (u mod 16)].

(** [%03o] of a rune below 512. *)
Definition fmt_03o (u : Z) : bytes :=
  [digit (u / 64); digit (u / 8 mod 8); digit (u mod 8)].

(** ** Errors *)

(** The [error] values that flow through the package.  [SinkError] is
    whatever the output sink returned; the others are made by the package
    with [fmt.Errorf] and carry what their message is built from. *)
Inductive error : Type :=
| SinkError (code : nat)
| ErrFrozen                                 (* "document is frozen" *)
| ErrPageSize (width height : float)        (* "illegal page size (..x..)" *)
| ErrScale (scale : float)                  (* "illegal scale value (..)" *)
| ErrMuffler                                (* "illegal muffler value (nil)" *)
| ErrDateFormat (s : bytes).                (* "invalid PDF date format: .." *)

(** ** [time]: what the package uses of Go's [time.Time]

    [pdfFormatDate] and [pdfParseDate] reach a [time.Time] only through
    [Format] and [Parse] with the layout [20060102150405Z07:00], that is
    through its calendar date, its clock and the offset of its zone.  A
    [Time] is therefore that reading: the civil date and clock in the
    time's own zone, the nanoseconds, and the zone offset in seconds east
    of UTC.  The definitions follow the [time] package of Go 1.20 and
    later (format.go). *)

Record Time : Type := {
  year : Z; month : Z; day : Z;
  hour : Z; minute : Z; second : Z;
  nsec : Z;
  offset : Z
}.

Definition isLeap (y : Z) : bool :=
  (Z.rem y 4 =? 0) && (negb (Z.rem y 100 =? 0) || (Z.rem y 400 =? 0)).

Definition daysIn (m y : Z) : Z :=
  if (m =? 2) && isLeap y then 29
  else if m =? 2 then 28
  else if (m =? 4) || (m =? 6) || (m =? 9) || (m =? 11) then 30
  else 31.

(** The values a [time.Time] can show: a date of the calendar, a clock
    reading, nanoseconds below a second. *)
Definition valid_time (t : Time) : Prop :=
  1 <= month t <= 12 /\ 1 <= day t <= daysIn (month t) (year t) /\
  0 <= hour t < 24 /\ 0 <= minute t < 60 /\ 0 <= second t < 60 /\
  0 <= nsec t < 1000000000.

(** [appendInt]: the digits of [x], padded with zeros to [width] digits,
    after a minus sign when [x] is negative. *)
Definition appendInt (x : Z) (width : nat) : bytes :=
  (if x <? 0 then bs "-" else []) ++
  repeat (digit 0) (width - length (udec (Z.abs x))) ++ udec (Z.abs x).

(** The chunk [Z07:00] of [Format]. *)
Definition formatZone (off : Z) : bytes :=
  if off =? 0 then bs "Z"
  else
    let zone := Z.quot off 60 in
    (if zone <? 0 then bs "-" else bs "+") ++
    appendInt (Z.quot (Z.abs zone) 60) 2 ++ bs ":" ++
    appendInt (Z.rem (Z.abs zone) 60) 2.

(** [t.Format("::20060102150405Z07:00")]. *)
Definition time_Format (t : Time) : bytes :=
  bs "::" ++ appendInt (year t) 4 ++ appendInt (month t) 2 ++
  appendInt (day t) 2 ++ appendInt (hour t) 2 ++ appendInt (minute t) 2 ++
  appendInt (second t) 2 ++ formatZone (offset t).

Definition isDigit (s : bytes) (i : nat) : bool :=
  match s !! i with
  | Some c => (48 <=? code c) && (code c <=? 57)
  | None => false
  end.

Definition digitVal (c : byte) : Z := code c - 48.

(** [getnum]: one or two digits; two are required when [fixed]. *)
Definition getnum (s : bytes) (fixed : bool) : option (Z * bytes) :=
  if negb (isDigit s 0) then None
  else if negb (isDigit s 1) then
    if fixed then None
    else match s with c0 :: rest => Some (digitVal c0, rest) | [] => None end
  else
    match s with
    | c0 :: c1 :: rest => Some (digitVal c0 * 10 + digitVal c1, rest)
    | _ => None
    end.

(** [leadingInt] on a string of digits only, as [atoi] requires. *)
Fixpoint digitsVal (s : bytes) (acc : Z) : option Z :=
  match s with
  | [] => Some acc
  | c :: rest =>
      if isDigit [c] 0 then digitsVal rest (acc * 10 + digitVal c) else None
  end.

Definition atoi (s : bytes) : option Z :=
  match s with
  | c :: rest =>
      if bool_decide (c = x2d) then Z.opp <$> digitsVal rest 0
      else if bool_decide (c = x2b) then digitsVal rest 0
      else digitsVal s 0
  | [] => digitsVal s 0
  end.

(** [parseNanoseconds value n]: a separator and up to nine digits. *)
Definition parseNanoseconds (value : bytes) (nbytes : nat) : option Z :=
  let nb := Nat.min nbytes 10 in
  match atoi (drop 1 (take nb value)) with
  | Some ns =>
      if ns <? 0 then None
      else Some (ns * 10 ^ (10 - Z.of_nat nb))
  | None => None
  end.

(** The number of leading digits of [s]. *)
Fixpoint digitRun (s : bytes) : nat :=
  match s with
  | c :: rest => if isDigit [c] 0 then S (digitRun rest) else O
  | [] => O
  end.

(** The chunk [Z07:00] of [Parse]: the offset and the rest of the value. *)
Definition parseZone (value : bytes) : option (Z * bytes) :=
  match value with
  | c :: rest =>
      if bool_decide (c = x5a) then Some (0, rest)
      else if (length value <? 6)%nat then None
      else if negb (bool_decide (value !! 3%nat = Some x3a)) then None
      else
        match getnum (take 2 rest) true,
              getnum (take 2 (drop 4 value)) true with
        | Some (hr, _), Some (mm, _) =>
            if (24 <? hr) || (60 <? mm) then None
            else
              let zoneOffset := (hr * 60 + mm) * 60 in
              if bool_decide (c = x2b) then Some (zoneOffset, drop 6 value)
              else if bool_decide (c = x2d)
                   then Some (- zoneOffset, drop 6 value)
              else None
        | _, _ => None
        end
  | [] => None
  end.

(** [time.Parse("20060102150405Z07:00", value)]; [None] is its error. *)
Definition time_Parse (value : bytes) : option Time :=
  if (length value <? 4)%nat || negb (isDigit value 0) then None else
  y ← atoi (take 4 value);
  '(mo, v) ← getnum (drop 4 value) true;
  if (mo <=? 0) || (12 <? mo) then None else
  '(d, v) ← getnum v true;
  '(h, v) ← getnum v false;
  if 24 <=? h then None else
  '(mi, v) ← getnum v true;
  if 60 <=? mi then None else
  '(s, v) ← getnum v true;
  if 60 <=? s then None else
  '(ns, v) ←
    (if (2 <=? length v)%nat &&
        (bool_decide (v !! 0%nat = Some x2e) ||
         bool_decide (v !! 0%nat = Some x2c)) && isDigit v 1
     then
       let n := (1 + digitRun (drop 1 v))%nat in
       ns ← parseNanoseconds v n; Some (ns, drop n v)
     else Some (0, v));
  '(off, v) ← parseZone v;
  if negb (length v =? 0)%nat then None
  else if (d <? 1) || (daysIn mo y <? d) then None
  else Some {| year := y; month := mo; day := d; hour := h; minute := mi;
               second := s; nsec := ns; offset := off |}.

(** *** pdf.go: dates *)

Definition pdfFormatDate (t : Time) : option bytes :=
  let b := <[0%nat := x44]> (time_Format t) in
  if (17 <? length b)%nat then
    if (19 <? length b)%nat
    then Some (<[19%nat := QUOTE]> b ++ [QUOTE])
    else None                       (* b[19]: index out of range *)
  else Some b.

Definition dateTemplate : bytes := bs "00000101000000+00'00'".

(** [pdfParseDate]: [None] is a panic, [Some (inr _)] the format error.
    For a string shorter than two bytes the slice expression [b[0:2]]
    reaches beyond [len(b)]; it panics unless the conversion happened to
    allocate a larger capacity.  The model has the panic. *)
Definition pdfParseDate (s : bytes) : option (Time + error) :=
  let errFormat := Some (inr (ErrDateFormat s)) in
  if (length s <? 2)%nat then None else
  let b := if bool_decide (take 2 s = bs "D:") then drop 2 s else s in
  let l := length b in
  let parse (b : bytes) :=
    match time_Parse b with
    | Some t => Some (inl t)
    | None => errFormat
    end in
  if (l =? 15)%nat then parse b
  else if existsb (Nat.eqb l) [4; 6; 8; 10; 12; 14; 18; 21]%nat then
    let b := b ++ drop l dateTemplate in
    if negb (bool_decide (b !! 17%nat = Some QUOTE)) ||
       negb (bool_decide (b !! 20%nat = Some QUOTE))
    then errFormat
    else parse (<[17%nat := x3a]> (take 20 b))
  else errFormat.

(** *** Definitions for the proofs about dates *)

(** [appendInt x 2] is two digits that [getnum] reads back as [x]. *)
Definition twoDigitsOk (x : Z) : bool :=
  match appendInt x 2 with
  | [c0; c1] =>
      isDigit [c0] 0 && isDigit [c1] 0 &&
      (digitVal c0 * 10 + digitVal c1 =? x)
  | _ => false
  end.

(** [appendInt y 4] is four bytes, the first a digit, that [atoi] reads
    back as [y]. *)
Definition fourDigitsOk (y : Z) : bool :=
  match appendInt y 4 with
  | [c0; c1; c2; c3] =>
      isDigit [c0] 0 && bool_decide (atoi [c0; c1; c2; c3] = Some y)
  | _ => false
  end.

(** The zone chunk of an offset of [m] minutes: [Z] for none, otherwise
    a sign, two digits, a colon and two digits that [parseZone] reads
    back as that offset. *)
Definition zoneOk (m : Z) : bool :=
  if m =? 0 then bool_decide (formatZone (m * 60) = bs "Z")
  else
    match formatZone (m * 60) with
    | [sg; a; b; c; e; f] =>
        (bool_decide (sg = x2b) || bool_decide (sg = x2d)) &&
        bool_decide (c = x3a) &&
        bool_decide (parseZone [sg; a; b; x3a; e; f] = Some (m * 60, []))
    | _ => false
    end.

(** [t] with its nanoseconds dropped. *)
Definition truncSecond (t : Time) : Time :=
  {| year := year t; month := month t; day := day t; hour := hour t;
     minute := minute t; second := second t; nsec := 0;
     offset := offset t |}.

(** The first instant of the year 10000, in UTC. *)
Definition year10000 : Time :=
  {| year := 10000; month := 1; day := 1; hour := 0; minute := 0;
     second := 0; nsec := 0; offset := 0 |}.

(** The first instant of the year [y], in UTC. *)
Definition newYear (y : Z) : Time :=
  {| year := y; month := 1; day := 1; hour := 0; minute := 0;
     second := 0; nsec := 0; offset := 0 |}.

Definition sameTime (t u : Time) : bool :=
  (year t =? year u) && (month t =? month u) && (day t =? day u) &&
  (hour t =? hour u) && (minute t =? minute u) && (second t =? second u) &&
  (nsec t =? nsec u) && (offset t =? offset u).

(** The four digits of the year [y] alone are read as its first instant. *)
Definition yearOnlyOk (y : Z) : bool :=
  match pdfParseDate (fmt_0d 4 y) with
  | Some (inl t) => sameTime t (newYear y)
  | _ => false
  end.

(** ** Strings as runes: [range] over a string, [[]rune(str)], [utf16] *)

Definition cont (b : byte) (lo hi : Z) : bool := (lo <=? code b) && (code b <=? hi).

(** [utf8.DecodeRuneInString]: the rune at the head of [s] and its width.
    Anything that is not a well-formed encoding of a scalar value is the
    replacement character U+FFFD of width 1. *)
Definition decodeRune (s : bytes) : Z * nat :=
  let bad := (65533, 1%nat) in
  match s with
  | [] => bad
  | b0 :: r =>
      let c0 := code b0 in
      if c0 <? 128 then (c0, 1%nat)
      else if (194 <=? c0) && (c0 <=? 223) then
        match r with
        | b1 :: _ =>
            if cont b1 128 191
            then ((c0 - 192) * 64 + (code b1 - 128), 2%nat) else bad
        | _ => bad
        end
      else if (224 <=? c0) && (c0 <=? 239) then
        match r with
        | b1 :: b2 :: _ =>
            let lo := if c0 =? 224 then 160 else 128 in
            let hi := if c0 =? 237 then 159 else 191 in
            if cont b1 lo hi && cont b2 128 191
            then ((c0 - 224) * 4096 + (code b1 - 128) * 64 + (code b2 - 128),
                  3%nat)
            else bad
        | _ => bad
        end
      else if (240 <=? c0) && (c0 <=? 244) then
        match r with
        | b1 :: b2 :: b3 :: _ =>
            let lo := if c0 =? 240 then 144 else 128 in
            let hi := if c0 =? 244 then 143 else 191 in
            if cont b1 lo hi && cont b2 128 191 && cont b3 128 191
            then ((c0 - 240) * 262144 + (code b1 - 128) * 4096 +
                  (code b2 - 128) * 64 + (code b3 - 128), 4%nat)
            else bad
        | _ => bad
        end
      else bad
  end.

Fixpoint runes_aux (fuel : nat) (s : bytes) : list Z :=
  match fuel with
  | O => []
  | S f =>
      match s with
      | [] => []
      | _ => let '(r, size) := decodeRune s in r :: runes_aux f (drop size s)
      end
  end.

(** The runes that [for _, u := range str] yields, and [[]rune(str)]. *)
Definition runes (s : bytes) : list Z := runes_aux (length s) s.

Definition encodeUnit (v : Z) : list Z :=
  if ((0 <=? v) && (v <? 55296)) || ((57344 <=? v) && (v <? 65536)) then [v]
  else if (65536 <=? v) && (v <=? 1114111) then
    [55296 + Z.land (Z.shiftr (v - 65536) 10) 1023;
     56320 + Z.land (v - 65536) 1023]
  else [65533].

(** [utf16.Encode]. *)
Definition utf16_Encode (s : list Z) : list Z := flat_map encodeUnit s.

(** *** pdf.go: string escaping *)

(** The loop of [pdfStr] over the runes: the buffer, and [ok]. *)
Fixpoint pdfStr_loop (rs : list Z) (buf : bytes) : bytes * bool :=
  match rs with
  | [] => (buf, true)
  | u :: rest =>
      if u =? 10 then pdfStr_loop rest (buf ++ bs "\n")
      else if u =? 13 then pdfStr_loop rest (buf ++ bs "\r")
      else if u =? 9 then pdfStr_loop rest (buf ++ bs "\t")
      else if u =? 8 then pdfStr_loop rest (buf ++ bs "\b")
      else if u =? 12 then pdfStr_loop rest (buf ++ bs "\f")
      else if (u =? 40) || (u =? 41)
      then pdfStr_loop rest (buf ++ bs "\" ++ [byte_of u])
      else if (u <? 32) || (u =? 127)
      then pdfStr_loop rest (buf ++ bs "\" ++ fmt_03o u)
      else if 127 <? u then (buf, false)
      else pdfStr_loop rest (buf ++ [byte_of u])
  end.

(** What one round of the loop appends for a rune up to 127. *)
Definition escRune (u : Z) : bytes :=
  if u =? 10 then bs "\n"
  else if u =? 13 then bs "\r"
  else if u =? 9 then bs "\t"
  else if u =? 8 then bs "\b"
  else if u =? 12 then bs "\f"
  else if (u =? 40) || (u =? 41) then bs "\" ++ [byte_of u]
  else if (u <? 32) || (u =? 127) then bs "\" ++ fmt_03o u
  else [byte_of u].

Definition pdfStr (str : bytes) : bytes :=
  let '(buf, ok) := pdfStr_loop (runes str) (bs "(") in
  if ok then buf ++ bs ")"
  else bs "<FEFF" ++ concat (map fmt_04X (utf16_Encode (runes str))) ++ bs ">".

(** ** Reading a literal string back

    Modelled from the PDF reference (ISO 32000-1, 7.3.4.2), which says
    how a reader decodes a literal string: it ends at the parenthesis
    that balances the opening one; a backslash starts an escape ([\n],
    [\r], [\t], [\b], [\f], [\(], [\)], [\\], one to three octal
    digits, or an end of line that is then skipped) and is dropped before
    any other byte; an end of line in the string reads as a line feed. *)

Definition isOctal (b : byte) : bool := (48 <=? code b) && (code b <=? 55).

Definition octalByte (ds : list byte) : byte :=
  byte_of (fold_left (fun acc d => acc * 8 + (code d - 48)) ds 0 mod 256).

(** The body of a literal string at nesting [depth]: the decoded bytes
    and what follows the closing parenthesis. *)
Fixpoint literalBody (s : bytes) (depth : nat) : option (bytes * bytes) :=
  let keep (c : byte) (r : option (bytes * bytes)) :=
    match r with Some (out, tl) => Some (c :: out, tl) | None => None end in
  match s with
  | [] => None
  | c :: rest =>
      if bool_decide (c = x29) then
        match depth with
        | O => Some ([], rest)
        | S d => keep c (literalBody rest d)
        end
      else if bool_decide (c = x28) then keep c (literalBody rest (S depth))
      else if bool_decide (c = x5c) then
        match rest with
        | [] => None
        | e :: rest1 =>
            if bool_decide (e = x6e) then keep x0a (literalBody rest1 depth)
            else if bool_decide (e = x72) then keep x0d (literalBody rest1 depth)
            else if bool_decide (e = x74) then keep x09 (literalBody rest1 depth)
            else if bool_decide (e = x62) then keep x08 (literalBody rest1 depth)
            else if bool_decide (e = x66) then keep x0c (literalBody rest1 depth)
            else if isOctal e then
              match rest1 with
              | e2 :: rest2 =>
                  if isOctal e2 then
                    match rest2 with
                    | e3 :: rest3 =>
                        if isOctal e3
                        then keep (octalByte [e; e2; e3])
                               (literalBody rest3 depth)
                        else keep (octalByte [e; e2]) (literalBody rest2 depth)
                    | [] => keep (octalByte [e; e2]) (literalBody rest2 depth)
                    end
                  else keep (octalByte [e]) (literalBody rest1 depth)
              | [] => keep (octalByte [e]) (literalBody rest1 depth)
              end
            else if bool_decide (e = x0a) then literalBody rest1 depth
            else if bool_decide (e = x0d) then
              match rest1 with
              | e2 :: rest2 =>
                  if bool_decide (e2 = x0a) then literalBody rest2 depth
                  else literalBody rest1 depth
              | [] => literalBody rest1 depth
              end
            else keep e (literalBody rest1 depth)
        end
      else if bool_decide (c = x0d) then
        match rest with
        | e :: rest1 =>
            if bool_decide (e = x0a) then keep x0a (literalBody rest1 depth)
            else keep x0a (literalBody rest depth)
        | [] => keep x0a (literalBody rest depth)
        end
      else keep c (literalBody rest depth)
  end.

(** The string that the literal [s], parentheses included, stands for. *)
Definition pdfLiteralDecode (s : bytes) : option bytes :=
  match s with
  | c :: rest =>
      if bool_decide (c = x28) then
        match literalBody rest 0 with
        | Some (out, []) => Some out
        | _ => None
        end
      else None
  | [] => None
  end.

(** ** [float64]: formatting with [%.Nf] *)

Fixpoint dropWhile {A} (f : A -> bool) (l : list A) : list A :=
  match l with
  | x :: r => if f x then dropWhile f r else l
  | [] => []
  end.

(** [strings.TrimRight(s, cutset)] for a one-byte cutset. *)
Definition trimRight (s : bytes) (c : byte) : bytes :=
  rev (dropWhile (fun b => bool_decide (b = c)) (rev s)).

(** The digits of [n], padded with zeros on the left to [w] digits. *)
Definition zpad (w : nat) (n : Z) : bytes :=
  repeat (digit 0) (w - length (udec n)) ++ udec n.

(** [x * 10^prec] rounded to an integer, ties to even, for the finite
    value [x = m * 2^e]: the exact decimal conversion of [strconv]. *)
Definition scaled (prec : nat) (m e : Z) : Z :=
  let p10 := 10 ^ Z.of_nat prec in
  if 0 <=? e then m * 2 ^ e * p10
  else
    let num := m * p10 in
    let den := 2 ^ (- e) in
    let q := num / den in
    let r := num mod den in
    if (den <? 2 * r) || ((2 * r =? den) && Z.odd q) then q + 1 else q.

(** [fmt.Sprintf("%.Nf", v)] with [N = prec], [prec] positive. *)
Definition fmt_f (prec : nat) (v : float) : bytes :=
  match Prim2SF v with
  | S754_nan => bs "NaN"
  | S754_infinity s => if s then bs "-Inf" else bs "+Inf"
  | S754_zero s =>
      (if s then bs "-" else []) ++ bs "0." ++ repeat (digit 0) prec
  | S754_finite s m e =>
      let n := scaled prec (Z.pos m) e in
      let p10 := 10 ^ Z.of_nat prec in
      (if s then bs "-" else []) ++ udec (n / p10) ++ bs "." ++
      zpad prec (n mod p10)
  end.

(** [realStr] of scpdf.go. *)
Definition realStr (v : float) : bytes :=
  trimRight (trimRight (fmt_f 3 v) x30) x2e.

(** [math.Max]. *)
Definition math_Max (x y : float) : float :=
  if PrimFloat.eqb x PrimFloat.infinity || PrimFloat.eqb y PrimFloat.infinity
  then PrimFloat.infinity
  else if PrimFloat.is_nan x || PrimFloat.is_nan y then PrimFloat.nan
  else if PrimFloat.eqb x PrimFloat.zero && PrimFloat.eqb x y then
    (if PrimFloat.get_sign x then y else x)
  else if PrimFloat.ltb y x then x else y.

(** [float64(n)] for a small non-negative integer. *)
Definition f64 (n : Z) : float := PrimFloat.of_uint63 (Uint63.of_Z n).

(** ** The output sink and [bufio.Writer] *)

Section Generation.

(** The sink is an [io.Writer] owned by the caller.  Its behaviour is an
    arbitrary function of the calls it has seen: [sinkWrite calls p] is
    the answer to [Write(p)] after the earlier calls [calls].  The answer
    [None] is [(len(p), nil)]; [Some (n, e)] is the error [e] after [n]
    bytes of [p] were taken ([io.Writer] obliges a sink that takes fewer
    than [len(p)] bytes to return an error, and [n] is at most [len(p)]). *)
Variable sinkWrite : list bytes -> bytes -> option (nat * error).

Record sink : Type := {
  calls : list bytes;      (* the arguments of the Write calls so far *)
  content : bytes          (* the bytes the sink took *)
}.

Definition sink_Write (s : sink) (p : bytes) : sink * nat * option error :=
  match sinkWrite (calls s) p with
  | None =>
      ({| calls := calls s ++ [p]; content := content s ++ p |},
       length p, None)
  | Some (n, e) =>
      ({| calls := calls s ++ [p]; content := content s ++ take n p |},
       Nat.min n (length p), Some e)
  end.

(** [bufio.Writer]: [wbuf] is [b.buf[0:b.n]], [wsize] is [len(b.buf)],
    [werr] is the sticky [b.err]. *)
Record Writer : Type := {
  wr : sink;
  wbuf : bytes;
  wsize : nat;
  werr : option error
}.

Definition defaultBufSize : nat := 4096.

Definition NewWriter (w : sink) : Writer :=
  {| wr := w; wbuf := []; wsize := defaultBufSize; werr := None |}.

Definition Available (b : Writer) : nat := (wsize b - length (wbuf b))%nat.
Definition Buffered (b : Writer) : nat := length (wbuf b).

Definition Flush (b : Writer) : Writer * option error :=
  match werr b with
  | Some e => (b, Some e)
  | None =>
      if (Buffered b =? 0)%nat then (b, None)
      else
        let '(s, n, err) := sink_Write (wr b) (wbuf b) in
        match err with
        | Some e =>
            ({| wr := s; wbuf := drop n (wbuf b);
                wsize := wsize b; werr := Some e |}, Some e)
        | None =>
            ({| wr := s; wbuf := []; wsize := wsize b; werr := None |}, None)
        end
  end.

(** The loop of [Writer.Write]: while [p] does not fit and no error is
    pending, either hand [p] to the sink (empty buffer) or fill the buffer
    and flush it.  It returns the writer, what is left of [p] and the
    count [nn]. *)
Fixpoint Write_loop (fuel : nat) (b : Writer) (p : bytes) (nn : nat)
  : Writer * bytes * nat :=
  match fuel with
  | O => (b, p, nn)
  | S fuel' =>
      if (Available b <? length p)%nat && bool_decide (werr b = None) then
        if (Buffered b =? 0)%nat then
          let '(s, n, err) := sink_Write (wr b) p in
          Write_loop fuel'
            {| wr := s; wbuf := wbuf b; wsize := wsize b; werr := err |}
            (drop n p) (nn + n)
        else
          let n := Nat.min (Available b) (length p) in
          let b1 := {| wr := wr b; wbuf := wbuf b ++ take n p;
                       wsize := wsize b; werr := werr b |} in
          Write_loop fuel' (fst (Flush b1)) (drop n p) (nn + n)
      else (b, p, nn)
  end.

(** [Writer.Write].  Three rounds of the loop are enough ([Write_loop_exit]). *)
Definition Write (b : Writer) (p : bytes) : Writer * nat * option error :=
  let '(b1, p1, nn) := Write_loop 3 b p 0 in
  match werr b1 with
  | Some e => (b1, nn, Some e)
  | None =>
      let n := Nat.min (Available b1) (length p1) in
      ({| wr := wr b1; wbuf := wbuf b1 ++ take n p1;
          wsize := wsize b1; werr := None |}, (nn + n)%nat, None)
  end.

(** Everything written through the writer so far: what the sink took and
    what is still buffered. *)
Definition stream (b : Writer) : bytes := content (wr b) ++ wbuf b.


(** ** pdf.go: the low-level writer *)

(** [compress/zlib] and [crypto/md5] are taken as they are: [zlibCompress
    data] is what [zlib.NewWriter] leaves in its buffer after [Write(data)]
    and [Close()], [md5Sum] is [md5.Sum] as a byte string. *)
Variable zlibCompress : bytes -> bytes.
Variable md5Sum : bytes -> bytes.

(** What [fmt] prints for an operand whose [String] method panics: it
    recovers the panic and prints a [%!v(PANIC=...)] note, whose wording
    depends on the Go release. *)
Variable fmtPanic : bytes.

Definition pdfUseDeflate : bool := true.

Definition pdfNix : bytes := [].
Definition pdfNL : bytes := [NL].
Definition pdfSP : bytes := [SP].

Definition pdfNewLine (prev : bytes) : bytes :=
  if (0 <? length prev)%nat && bool_decide (last prev = Some NL)
  then pdfNix else pdfNL.

Definition packageName : bytes := bs "scpdf".
Definition version_ : bytes := bs "0.18.0".
Definition dfltPdfVersion : bytes := bs "1.4".

(** [pdfId.String]: [None] is the panic of [pdfSure]. *)
Definition pdfId_String (id : Z) : option bytes :=
  if (0 <? id) && (id <? 65536) then Some (fmt_d id ++ bs " 0 R") else None.

(** A [pdfId] under [%v] or [fmt.Fprint]: [fmt] calls [String] and
    recovers its panic. *)
Definition fmt_pdfId (id : Z) : bytes :=
  match pdfId_String id with Some s => s | None => fmtPanic end.

Record pdfDoc : Type := {
  writer : Writer;
  pos : Z;
  xref : list Z;
  pages : list Z;
  pagesId : Z;
  version : bytes;
  title : bytes; author : bytes; subject : bytes;
  producer : bytes; creator : bytes; creationDate : bytes
}.

Definition set_writer_pos (d : pdfDoc) (w : Writer) (p : Z) : pdfDoc :=
  {| writer := w; pos := p; xref := xref d; pages := pages d;
     pagesId := pagesId d; version := version d; title := title d;
     author := author d; subject := subject d; producer := producer d;
     creator := creator d; creationDate := creationDate d |}.

Definition set_xref (d : pdfDoc) (x : list Z) : pdfDoc :=
  {| writer := writer d; pos := pos d; xref := x; pages := pages d;
     pagesId := pagesId d; version := version d; title := title d;
     author := author d; subject := subject d; producer := producer d;
     creator := creator d; creationDate := creationDate d |}.

Definition set_pages (d : pdfDoc) (p : list Z) : pdfDoc :=
  {| writer := writer d; pos := pos d; xref := xref d; pages := p;
     pagesId := pagesId d; version := version d; title := title d;
     author := author d; subject := subject d; producer := producer d;
     creator := creator d; creationDate := creationDate d |}.

Definition set_pagesId (d : pdfDoc) (id : Z) : pdfDoc :=
  {| writer := writer d; pos := pos d; xref := xref d; pages := pages d;
     pagesId := id; version := version d; title := title d;
     author := author d; subject := subject d; producer := producer d;
     creator := creator d; creationDate := creationDate d |}.

Definition set_creationDate (d : pdfDoc) (s : bytes) : pdfDoc :=
  {| writer := writer d; pos := pos d; xref := xref d; pages := pages d;
     pagesId := pagesId d; version := version d; title := title d;
     author := author d; subject := subject d; producer := producer d;
     creator := creator d; creationDate := s |}.

(** The marker of a creation date still to be taken from the clock. *)
Definition pdfUseNow : bytes := bs "<now?" ++ [x08] ++ bs ">".

(** [d.write(chunk...)]. *)
Fixpoint write (d : pdfDoc) (chunk : list bytes) : pdfDoc * option error :=
  match chunk with
  | [] => (d, None)
  | c :: rest =>
      let '(w, n, err) := Write (writer d) c in
      let d' := set_writer_pos d w (int_add (pos d) (Z.of_nat n)) in
      match err with
      | Some e => (d', Some e)
      | None => write d' rest
      end
  end.

Definition newId (d : pdfDoc) : pdfDoc * Z :=
  (set_xref d (xref d ++ [0]), len (xref d)).

(** The result of a method that can panic and returns an [error]. *)
Abbreviation outcome := (option (pdfDoc * option error)).

(** [if err = f(); err != nil { return }] followed by [k]. *)
Definition andThen (r : outcome) (k : pdfDoc -> outcome) : outcome :=
  match r with
  | None => None
  | Some (d, Some e) => Some (d, Some e)
  | Some (d, None) => k d
  end.

Definition objHeader (id : Z) : bytes := fmt_d id ++ bs " 0 obj" ++ [NL].

Definition startObject (d : pdfDoc) (id : Z) : outcome :=
  if negb (0 <? id) then None
  else
    match xref d !! Z.to_nat id with
    | None => None                             (* index out of range *)
    | Some off =>
        if negb (off =? 0) then None
        else Some (write (set_xref d (<[Z.to_nat id := pos d]> (xref d)))
                         [objHeader id])
    end.

(** The bytes of a whole object. *)
Definition object (id : Z) (chunks : list bytes) : bytes :=
  objHeader id ++ concat chunks.

(** The chunks [addObject] writes after the header line. *)
Definition objectChunks (value : bytes) : list bytes :=
  [value; pdfNewLine value; bs "endobj" ++ [NL]].

Definition addObject (d : pdfDoc) (id : Z) (value : bytes) : outcome :=
  andThen (startObject d id) (fun d => Some (write d (objectChunks value))).

(** The bytes [addStream] puts into the stream, and the filter entry. *)
Definition streamData (data : bytes) : bytes * bytes :=
  if pdfUseDeflate then
    let defl := zlibCompress data in
    if len defl <=? len data - 32
    then (defl, bs "/Filter/FlateDecode")
    else (data, [])
  else (data, []).

(** The chunks [addStream] writes after the header line. *)
Definition streamChunks (data : bytes) : list bytes :=
  let '(data, filter) := streamData data in
  [bs "<</Length " ++ fmt_d (len data) ++ filter ++ bs ">>" ++ [NL] ++
     bs "stream" ++ [NL];
   data; pdfNewLine data;
   bs "endstream" ++ [NL] ++ bs "endobj" ++ [NL]].

Definition addStream (d : pdfDoc) (id : Z) (data : bytes) : outcome :=
  andThen (startObject d id) (fun d => Some (write d (streamChunks data))).

(** The chunks [addPage] writes after the header line. *)
Definition pageChunks (contents resources parent : Z) (chunk : bytes)
  : list bytes :=
  [bs "<</Type/Page/Contents " ++ fmt_pdfId contents ++
     bs "/Resources " ++ fmt_pdfId resources ++
     bs "/Parent " ++ fmt_pdfId parent ++ [NL];
   chunk;
   bs ">>" ++ [NL] ++ bs "endobj" ++ [NL]].

Definition addPage (d : pdfDoc) (id contents resources : Z) (chunk : bytes)
  : outcome :=
  andThen (startObject d id) (fun d =>
  let d := set_pages d (pages d ++ [id]) in
  Some (write d (pageChunks contents resources (pagesId d) chunk))).

Definition infoGet (info : gmap string bytes) (key : string) (dflt : bytes)
  : bytes :=
  match info !! key with Some value => value | None => dflt end.

Definition pdfHeader (v : bytes) : list bytes :=
  [bs "%PDF-" ++ v ++ [NL]; [x25; xc5; xdd; xc4; xb6; NL]].

Definition newPdfDoc (wr : sink) (info : gmap string bytes)
  : pdfDoc * option error :=
  let d :=
    {| writer := NewWriter wr; pos := 0; xref := [0]; pages := [];
       pagesId := 0;
       version := infoGet info "version" dfltPdfVersion;
       title := infoGet info "title" [];
       author := infoGet info "author" [];
       subject := infoGet info "subject" [];
       producer := infoGet info "producer"
                     (packageName ++ bs "-" ++ version_);
       creator := infoGet info "creator" packageName;
       creationDate := infoGet info "creationDate" pdfUseNow |} in
  let '(d, id) := newId d in
  let d := set_pagesId d id in
  write d (pdfHeader (version d)).

(** One round of the loop that builds the [Kids] array. *)
Definition kidsStep (st : bytes * nat) (id : Z) : bytes * nat :=
  let '(kids, plt) := st in
  let kids := kids ++ fmt_pdfId id in
  if (plt + 70 <? length kids)%nat
  then (kids ++ pdfNL, length (kids ++ pdfNL))
  else (kids ++ pdfSP, plt).

(** The [Kids] array of [finish]: the loop, the truncation, the bracket. *)
Definition kidsArray (pages : list Z) : bytes :=
  let '(kids, _) := fold_left kidsStep pages (bs "[", 0%nat) in
  removelast kids ++ bs "]".

Definition infoChunk (key value : bytes) : bytes :=
  if bool_decide (value = []) then pdfNix
  else bs "/" ++ key ++ pdfStr value ++ [NL].

Definition xrefLine (off : Z) : bytes :=
  fmt_0d 10 off ++ bs " " ++ fmt_0d 5 0 ++ bs " n " ++ [NL].

Definition xrefHead (lmt : Z) : list bytes :=
  [bs "xref" ++ [NL] ++ bs "0 " ++ fmt_d lmt ++ [NL];
   fmt_0d 10 0 ++ bs " " ++ fmt_0d 5 65535 ++ bs " f " ++ [NL]].

(** The loop over the entries 1 .. lmt-1 of the offset table: its [err]
    is assigned and not looked at. *)
Fixpoint xrefLoop (d : pdfDoc) (offs : list Z) : option pdfDoc :=
  match offs with
  | [] => Some d
  | off :: rest =>
      if negb (0 <? off) then None
      else xrefLoop (fst (write d [xrefLine off])) rest
  end.

(** The string that is hashed into the file identifier. *)
Definition idSeed (d : pdfDoc) (xrefPos : Z) : bytes :=
  creationDate d ++ bs "/" ++ title d ++ bs "/" ++ fmt_d xrefPos.

Definition trailer (lmt catalogId docInfoId xrefPos : Z) (hash : bytes)
  : list bytes :=
  [bs "trailer" ++ [NL];
   bs "<</Size " ++ fmt_d lmt ++ bs "/Root " ++ fmt_pdfId catalogId ++
     bs "/Info " ++ fmt_pdfId docInfoId ++ [NL];
   bs "/ID[<" ++ fmt_X hash ++ bs "><" ++ fmt_X hash ++ bs ">]>>" ++ [NL];
   bs "startxref" ++ [NL];
   fmt_d xrefPos ++ [NL];
   bs "%%EOF" ++ [NL]].

(** The chunks of the page tree object for the page list [ps]. *)
Definition pageTreeOf (ps : list Z) : list bytes :=
  [bs "<</Type/Pages/Count " ++ fmt_d (len ps) ++ bs "/Kids" ++ [NL];
   kidsArray ps;
   bs ">>" ++ [NL] ++ bs "endobj" ++ [NL]].

Definition pageTree (d : pdfDoc) : list bytes := pageTreeOf (pages d).

Definition docInfo (d : pdfDoc) : list bytes :=
  [bs "<<";
   infoChunk (bs "Title") (title d);
   infoChunk (bs "Author") (author d);
   infoChunk (bs "Subject") (subject d);
   infoChunk (bs "Producer") (producer d);
   infoChunk (bs "Creator") (creator d);
   infoChunk (bs "CreationDate") (creationDate d);
   infoChunk (bs "ModDate") (creationDate d);
   bs "/Trapped/False>>" ++ [NL] ++ bs "endobj" ++ [NL]].

(** The creation date of [finish]: the clock is read when the date is
    still the marker; [None] is the panic of [pdfFormatDate]. *)
Definition resolveDate (d : pdfDoc) (now : Time) : option pdfDoc :=
  if bool_decide (creationDate d = pdfUseNow)
  then set_creationDate d <$> pdfFormatDate now
  else Some d.

(** The xref table and the trailer, the end of [finish]. *)
Definition finishTail (d : pdfDoc) (catalogId docInfoId : Z) : outcome :=
  let xrefPos := pos d in
  let lmt := len (xref d) in
  andThen (Some (write d (xrefHead lmt))) (fun d =>
  match xrefLoop d (drop 1 (xref d)) with
  | None => None
  | Some d =>
      let hash := md5Sum (idSeed d xrefPos) in
      andThen (Some (write d (trailer lmt catalogId docInfoId xrefPos hash)))
        (fun d =>
           let '(w, err) := Flush (writer d) in
           Some (set_writer_pos d w (pos d), err))
  end).

Definition catalogBody (pagesId : Z) : bytes :=
  bs "<</Type/Catalog/Pages " ++ fmt_pdfId pagesId ++ bs ">>".

(** [finish]; [now] is what [time.Now()] returns. *)
Definition finish (d : pdfDoc) (now : Time) : outcome :=
  let tree := pageTree d in
  andThen (startObject d (pagesId d)) (fun d =>
  andThen (Some (write d tree)) (fun d =>
  let '(d, catalogId) := newId d in
  andThen (addObject d catalogId (catalogBody (pagesId d))) (fun d =>
  match resolveDate d now with
  | None => None
  | Some d =>
      let '(d, docInfoId) := newId d in
      andThen (startObject d docInfoId) (fun d =>
      andThen (Some (write d (docInfo d))) (fun d =>
      finishTail d catalogId docInfoId))
  end))).

(** ** color.go *)

(** A [color.Color] that is not nil.  The type switch of [makeColorInfo]
    tells [color.Gray], [color.Gray16] and [color.CMYK] values apart; any
    other colour is used through its [RGBA] method.  [NRGBA] is the colour
    model of the default muffler, [RGBAColor] stands for every other
    implementation by what its [RGBA] method returns. *)
Inductive Color : Type :=
| Gray (y : Z)
| Gray16 (y : Z)
| CMYK (c m y k : Z)
| NRGBA (r g b a : Z)
| RGBAColor (r g b a : Z).

Record colorInfo : Type := { op : bytes; params : list float }.

Definition makeParams (mv : Z) (v : list Z) : list float :=
  map (fun x => PrimFloat.div (f64 x) (f64 mv)) v.

(** [color.NRGBA.RGBA]: one channel, premultiplied by alpha. *)
Definition nrgbaChannel (c a : Z) : Z := Z.lor c (Z.shiftl c 8) * a / 255.

Definition makeColorInfo (c : Color) : colorInfo :=
  match c with
  | Gray y => {| op := bs "g"; params := makeParams 255 [y] |}
  | Gray16 y => {| op := bs "g"; params := makeParams 65535 [y] |}
  | CMYK c m y k => {| op := bs "k"; params := makeParams 255 [c; m; y; k] |}
  | NRGBA r g b a =>
      {| op := bs "rg";
         params := makeParams 65535
                     [nrgbaChannel r a; nrgbaChannel g a; nrgbaChannel b a] |}
  | RGBAColor r g b _ =>
      {| op := bs "rg"; params := makeParams 65535 [r; g; b] |}
  end.

(** [strings.ToUpper] on the operators [g], [k] and [rg]. *)
Definition toUpper (s : bytes) : bytes :=
  map (fun b => if (97 <=? code b) && (code b <=? 122)
                then byte_of (code b - 32) else b) s.

Definition pdfCode (ci : colorInfo) (fill : bool) : bytes :=
  concat (map (fun p => realStr p ++ [SP]) (params ci)) ++
  (if fill then op ci else toUpper (op ci)).

(** *** Definitions for the proofs about colours *)

(** An operand between 0 and 1, as the colour operators take them. *)
Definition unitInterval (p : float) : bool :=
  PrimFloat.leb PrimFloat.zero p && PrimFloat.leb p PrimFloat.one.

(** The channels of a colour are in the range of their types: [uint8]
    for [Gray], [CMYK] and [NRGBA], [uint16] for [Gray16], and at most
    [0xffff] for what an [RGBA] method returns. *)
Definition validColor (c : Color) : Prop :=
  match c with
  | Gray y => 0 <= y < 256
  | Gray16 y => 0 <= y < 65536
  | CMYK c m y k =>
      0 <= c < 256 /\ 0 <= m < 256 /\ 0 <= y < 256 /\ 0 <= k < 256
  | NRGBA r g b a =>
      0 <= r < 256 /\ 0 <= g < 256 /\ 0 <= b < 256 /\ 0 <= a < 256
  | RGBAColor r g b _ => 0 <= r < 65536 /\ 0 <= g < 65536 /\ 0 <= b < 65536
  end.

(** The [n] integers from [start] on. *)
Fixpoint zrange (n : nat) (start : Z) : list Z :=
  match n with
  | O => []
  | S n' => start :: zrange n' (start + 1)
  end.

Definition operandOk (mv x : Z) : bool :=
  unitInterval (PrimFloat.div (f64 x) (f64 mv)).

Definition nrgbaOk (c : Z) : bool :=
  forallb (fun a => operandOk 65535 (nrgbaChannel c a))
    (map Z.of_nat (seq 0 256)).

(** ** essential.go: the picture *)

#[local] Set Warnings "-inexact-float".

(** [fmt.Fprintln] of string operands: spaces between, a newline after. *)
Fixpoint sepBy (sep : bytes) (l : list bytes) : bytes :=
  match l with
  | [] => []
  | [x] => x
  | x :: r => x ++ sep ++ sepBy sep r
  end.

Definition println (l : list bytes) : bytes := sepBy [SP] l ++ [NL].

(** A raw string literal of several lines. *)
Definition rawLines (l : list string) : bytes := sepBy [NL] (map bs l).

Definition eoBodyCode : bytes := rawLines [
  "0.5 0.72 m 0.64 0.72 0.76 0.65 0.76 0.55 c";
  "0.76 0.51 0.72 0.47 0.67 0.44 c 0.79 0.41 0.84 0.32 0.84 0.25 c";
  "0.84 0.13 0.75 0.08 0.68 0.08 c 0.32 0.08 l";
  "0.25 0.08 0.16 0.13 0.16 0.25 c 0.16 0.32 0.21 0.41 0.33 0.44 c";
  "0.28 0.47 0.24 0.51 0.24 0.55 c 0.24 0.65 0.36 0.72 0.5 0.72 c s"]%string.

Definition eoCircle (cx cy rx ry : float) (op : bytes) : bytes :=
  let str v := trimRight (trimRight (fmt_f 4 v) x30) x2e in
  let a := 0.55228475%float in
  (println [str (cx + rx); str cy; bs "m"] ++
   println [str (cx + rx); str (cy + a * ry); str (cx + a * rx);
            str (cy + ry); str cx; str (cy + ry); bs "c"] ++
   println [str (cx - a * rx); str (cy + ry); str (cx - rx);
            str (cy + a * ry); str (cx - rx); str cy; bs "c"] ++
   println [str (cx - rx); str (cy - a * ry); str (cx - a * rx);
            str (cy - ry); str cx; str (cy - ry); bs "c"] ++
   println [str (cx + a * rx); str (cy - ry); str (cx + rx);
            str (cy - a * ry); str (cx + rx); str cy; bs "c"; op])%float.

Definition eoEyesCode : bytes :=
  eoCircle 0.40 0.56 0.02 0.03 (bs "f") ++
  eoCircle 0.60 0.56 0.02 0.03 (bs "f").

Definition eoMouthCode : bytes :=
  bs "0.40 0.48 m 0.45 0.45 0.55 0.45 0.60 0.48 c S".

Definition eoHatCode : bytes := rawLines [
  "0.58 0.90 m 0.77 0.81 l 0.74 0.61 l 0.66 0.60 0.50 0.66 0.46 0.72 c";
  "0.58 0.90 l b"]%string.

Definition eoArmsCode : bytes := rawLines [
  "0.20 0.31 m 0.19 0.33 0.14 0.41 0.13 0.42 c";
  "0.12 0.43 0.10 0.43 0.07 0.44 c 0.04 0.46 0.06 0.46 0.08 0.46 c";
  "0.09 0.46 0.11 0.44 0.12 0.44 c 0.14 0.46 0.14 0.47 0.15 0.49 c";
  "0.16 0.51 0.16 0.49 0.16 0.48 c 0.16 0.46 0.14 0.44 0.15 0.43 c";
  "0.16 0.42 0.21 0.35 0.22 0.33 c 0.23 0.31 0.21 0.30 0.20 0.31 c b";
  "0.80 0.31 m 0.81 0.33 0.86 0.41 0.87 0.42 c";
  "0.88 0.43 0.90 0.43 0.93 0.44 c 0.96 0.46 0.94 0.46 0.92 0.46 c";
  "0.91 0.46 0.89 0.44 0.88 0.44 c 0.86 0.46 0.86 0.47 0.85 0.49 c";
  "0.84 0.51 0.84 0.49 0.84 0.48 c 0.84 0.46 0.86 0.44 0.85 0.43 c";
  "0.84 0.42 0.79 0.35 0.78 0.33 c 0.77 0.31 0.79 0.30 0.80 0.31 c b"]%string.

Definition eoMufflerCode : bytes := rawLines [
  "0.27 0.48 m 0.42 0.38 0.58 0.38 0.73 0.48 c";
  "0.75 0.46 0.76 0.44 0.77 0.41 c 0.77 0.39 0.75 0.37 0.73 0.36 c";
  "0.74 0.33 0.74 0.31 0.76 0.26 c 0.75 0.25 0.72 0.24 0.66 0.23 c";
  "0.66 0.27 0.65 0.30 0.63 0.34 c 0.42 0.30 0.32 0.35 0.24 0.41 c";
  "0.25 0.45 0.26 0.47 0.27 0.48 c b"]%string.

Definition eoButtonsCode : bytes :=
  eoCircle 0.50 0.16 0.03 0.03 (bs "b") ++
  eoCircle 0.50 0.26 0.03 0.03 (bs "b").

Definition eoSnowCode : bytes :=
  eoCircle 0.07 0.28 0.04 0.04 (bs "s") ++
  eoCircle 0.08 0.68 0.04 0.04 (bs "s") ++
  eoCircle 0.13 0.55 0.04 0.04 (bs "s") ++
  eoCircle 0.23 0.76 0.04 0.04 (bs "s") ++
  eoCircle 0.42 0.89 0.04 0.04 (bs "s") ++
  eoCircle 0.74 0.89 0.04 0.04 (bs "s") ++
  eoCircle 0.88 0.73 0.04 0.04 (bs "s") ++
  eoCircle 0.92 0.53 0.04 0.04 (bs "s") ++
  eoCircle 0.94 0.23 0.04 0.04 (bs "s").

Record page : Type := { muffler : Color; scale : float }.

(** [essentialCode]; its second argument is not used. *)
Definition essentialCode (p : page) (scale : float) : bytes :=
  let ci := makeColorInfo (muffler p) in
  println [bs "0 G 0 g 1 j 1 J 0.01389 w"] ++
  println [eoBodyCode] ++
  eoEyesCode ++
  println [eoMouthCode] ++
  println [eoHatCode] ++
  println [eoArmsCode] ++
  eoButtonsCode ++
  eoSnowCode ++
  println [pdfCode ci false; pdfCode ci true] ++
  println [eoMufflerCode].

(** ** scpdf.go: the document *)

(** [210 * 72 / 25.4] and [294 * 72 / 25.4] are constant expressions: Go
    evaluates them exactly, to 75600/127 and 105840/127, and rounds once
    to a [float64], as the division of two exact floats does. *)
Definition dfltWidth : float := PrimFloat.div (f64 75600) (f64 127).
Definition dfltHeight : float := PrimFloat.div (f64 105840) (f64 127).

Definition dfltMuffler : Color := NRGBA 255 0 0 255.

Definition stdScale : float := 0.6%float.

Record Doc : Type := {
  width : float;
  height : float;
  doc_pages : list page;                 (* the field [pages] of [Doc] *)
  frozen : bool;
  info : gmap string bytes
}.

(** The zero value [Doc{}]. *)
Definition emptyDoc : Doc :=
  {| width := PrimFloat.zero; height := PrimFloat.zero; doc_pages := [];
     frozen := false; info := ∅ |}.

Definition errFrozen : error := ErrFrozen.

Definition SetPageSize (d : Doc) (w h : float) : Doc * option error :=
  if frozen d then (d, Some errFrozen)
  else if PrimFloat.leb w PrimFloat.zero || PrimFloat.leb h PrimFloat.zero
  then (d, Some (ErrPageSize w h))
  else ({| width := w; height := h; doc_pages := doc_pages d;
           frozen := frozen d; info := info d |}, None).

Definition NewWithSize (w h : float) : Doc * option error :=
  SetPageSize emptyDoc w h.

Definition autoPageSize (d : Doc) : Doc :=
  if PrimFloat.eqb (width d) PrimFloat.zero &&
     PrimFloat.eqb (height d) PrimFloat.zero
  then {| width := dfltWidth; height := dfltHeight; doc_pages := doc_pages d;
          frozen := frozen d; info := info d |}
  else d.

Definition PageSize (d : Doc) : Doc * (float * float) :=
  let d := autoPageSize d in (d, (width d, height d)).

(** [AddPageScaled]; a nil muffler is [None]. *)
Definition AddPageScaled (d : Doc) (muffler : option Color) (scale : float)
  : Doc * option error :=
  if frozen d then (d, Some errFrozen)
  else if PrimFloat.leb scale PrimFloat.zero then (d, Some (ErrScale scale))
  else
    match muffler with
    | None => (d, Some ErrMuffler)
    | Some c =>
        let page := {| muffler := c; scale := PrimFloat.mul scale stdScale |} in
        ({| width := width d; height := height d;
            doc_pages := doc_pages d ++ [page];
            frozen := frozen d; info := info d |}, None)
    end.

Definition AddPage (d : Doc) (muffler : option Color) : Doc * option error :=
  AddPageScaled d muffler (f64 1).

(** [SetDocInfo]: the map is copied entry by entry; a nil map is [∅]. *)
Definition SetDocInfo (d : Doc) (m : gmap string bytes) : Doc * option error :=
  if frozen d then (d, Some errFrozen)
  else ({| width := width d; height := height d; doc_pages := doc_pages d;
           frozen := frozen d; info := m |}, None).

Definition transformCode (width height scale : float) : bytes * float :=
  let len := PrimFloat.mul (math_Max width height) scale in
  let ox := PrimFloat.div (PrimFloat.sub width len) (f64 2) in
  let oy := PrimFloat.div (PrimFloat.sub height len) (f64 2) in
  (realStr len ++ bs " 0 0 " ++ realStr len ++ bs " " ++ realStr ox ++
   bs " " ++ realStr oy ++ bs " cm", len).

(** The content stream of one page, as [WriteTo] collects it in [buf]. *)
Definition pageContent (d : Doc) (p : page) : bytes :=
  let '(cod, len) := transformCode (width d) (height d) (scale p) in
  println [bs "q"; cod] ++ essentialCode p len ++ println [bs "Q"].

Definition mediaBox (d : Doc) : bytes :=
  bs "/MediaBox[0 0 " ++ realStr (width d) ++ bs " " ++
  realStr (height d) ++ bs "]".

(** The loop of [WriteTo] over the pages. *)
Fixpoint writePages (d : Doc) (pd : pdfDoc) (resources : Z) (ps : list page)
  : outcome :=
  match ps with
  | [] => Some (pd, None)
  | p :: rest =>
      let '(pd, contents) := newId pd in
      andThen (addStream pd contents (pageContent d p)) (fun pd =>
      let '(pd, id) := newId pd in
      andThen (addPage pd id contents resources (mediaBox d)) (fun pd =>
      writePages d pd resources rest))
  end.

Definition procSet : bytes := bs "<</ProcSet[/PDF]>>" ++ [NL].

(** The part of [WriteTo] after the document is frozen.  The error of the
    [addObject] of the resources is assigned and not looked at. *)
Definition generate (d : Doc) (wr : sink) (now : Time) : outcome :=
  andThen (Some (newPdfDoc wr (info d))) (fun pd =>
  let '(pd, resources) := newId pd in
  match addObject pd resources procSet with
  | None => None
  | Some (pd, _) =>
      andThen (writePages d pd resources (doc_pages d)) (fun pd =>
      finish pd now)
  end).

Definition freeze (d : Doc) : Doc :=
  {| width := width d; height := height d; doc_pages := doc_pages d;
     frozen := true; info := info d |}.

(** What [WriteTo] leaves behind: the document, and unless it panicked
    the sink with the results [n] and [err]. *)
Record written : Type := {
  w_doc : Doc;
  w_result : option (sink * Z * option error)
}.

Definition WriteTo (d : Doc) (w : sink) (now : Time) : written :=
  let d := autoPageSize d in
  let '(d, err) :=
    if (length (doc_pages d) =? 0)%nat then AddPage d (Some dfltMuffler)
    else (d, None) in
  match err with
  | Some e => {| w_doc := d; w_result := Some (w, 0, Some e) |}
  | None =>
      let d := freeze d in
      {| w_doc := d;
         w_result :=
           match generate d w now with
           | None => None
           | Some (pd, err) => Some (wr (writer pd), pos pd, err)
           end |}
  end.

(** ** Clients of the writer

    The methods of [pdfDoc] are called by the rest of the package in some
    order.  A generation is [newPdfDoc], a sequence of such calls that
    stops at the first error, and [finish]. *)

Inductive call : Type :=
| CallNewId
| CallAddObject (id : Z) (value : bytes)
| CallAddStream (id : Z) (data : bytes)
| CallAddPage (id contents resources : Z) (chunk : bytes).

Definition runOp (d : pdfDoc) (o : call) : outcome :=
  match o with
  | CallNewId => Some (fst (newId d), None)
  | CallAddObject id value => addObject d id value
  | CallAddStream id data => addStream d id data
  | CallAddPage id contents resources chunk =>
      addPage d id contents resources chunk
  end.

Fixpoint run (d : pdfDoc) (ops : list call) : outcome :=
  match ops with
  | [] => Some (d, None)
  | o :: rest => andThen (runOp d o) (fun d => run d rest)
  end.

Definition generation (w : sink) (info : gmap string bytes) (ops : list call)
  (now : Time) : outcome :=
  andThen (Some (newPdfDoc w info)) (fun d =>
  andThen (run d ops) (fun d => finish d now)).

(** The bytes a call adds to the output when it returns without error;
    [parent] is the identifier of the page tree. *)
Definition callBytes (parent : Z) (o : call) : bytes :=
  match o with
  | CallNewId => []
  | CallAddObject id value => object id (objectChunks value)
  | CallAddStream id data => object id (streamChunks data)
  | CallAddPage id contents resources chunk =>
      object id (pageChunks contents resources parent chunk)
  end.

Definition runBytes (parent : Z) (ops : list call) : bytes :=
  concat (map (callBytes parent) ops).

(** The pages a client adds, in order. *)
Fixpoint pagesOf (ops : list call) : list Z :=
  match ops with
  | [] => []
  | CallAddPage id _ _ _ :: rest => id :: pagesOf rest
  | _ :: rest => pagesOf rest
  end.

(** The identifiers a client has allocated. *)
Fixpoint allocated (ops : list call) : nat :=
  match ops with
  | [] => O
  | CallNewId :: rest => S (allocated rest)
  | _ :: rest => allocated rest
  end.

(** The calls [WriteTo] makes for its pages, as a client. *)
Fixpoint pageOps (d : Doc) (next : Z) (resources : Z) (ps : list page)
  : list call :=
  match ps with
  | [] => []
  | p :: rest =>
      [CallNewId; CallAddStream next (pageContent d p);
       CallNewId; CallAddPage (next + 1) next resources (mediaBox d)] ++
      pageOps d (next + 2) resources rest
  end.

(** The page [WriteTo] adds to a document without pages:
    [d.AddPage(dfltMuffler)]. *)
Definition defaultPage : page :=
  {| muffler := dfltMuffler; scale := PrimFloat.mul (f64 1) stdScale |}.

(** The document that [WriteTo] writes and leaves behind: the size and
    the pages settled, frozen. *)
Definition settled (d : Doc) : Doc :=
  {| width := width (autoPageSize d); height := height (autoPageSize d);
     doc_pages := match doc_pages d with
                  | [] => [defaultPage]
                  | ps => ps
                  end;
     frozen := true; info := info d |}.


(** The identifiers of [k] page objects written so. *)
Fixpoint pageIds (next : Z) (k : nat) : list Z :=
  match k with
  | O => []
  | S k' => (next + 1) :: pageIds (next + 2) k'
  end.

(** ** What the specification says, as definitions *)

(** The cross-reference table for the offset table [x]: the head line
    with the number of entries, the free entry 0, one line for each
    further entry. *)
Definition xrefTable (x : list Z) : bytes :=
  bs "xref" ++ [NL] ++ bs "0 " ++ fmt_d (len x) ++ [NL] ++
  bs "0000000000 65535 f " ++ [NL] ++
  concat (map (fun off => fmt_0d 10 off ++ bs " 00000 n " ++ [NL]) (drop 1 x)).

(** The object with identifier [id] starts at byte [off] of [out]. *)
Definition headerAt (out : bytes) (off : Z) (id : Z) : Prop :=
  ∃ pre post, out = pre ++ objHeader id ++ post ∧ off = len pre.



(** ** Definitions for the proofs *)

(** The rounds the loop of [Write] still needs. *)
Definition rounds (b : Writer) (p : bytes) : nat :=
  if (Available b <? length p)%nat && bool_decide (werr b = None)
  then (if (Buffered b =? 0)%nat then 1 else 2)%nat else O.

(** The bytes [out] were written through the writer of [d] after the
    bytes [base], and [pos] counts them. *)
Definition tracked (base : bytes) (d : pdfDoc) (out : bytes) : Prop :=
  stream (writer d) = base ++ out ∧ pos d = int_wrap (len out).

(** Everything of a [pdfDoc] but its writer and position. *)
Definition meta (d : pdfDoc) :=
  (xref d, pages d, pagesId d, version d,
   (title d, author d, subject d, producer d, creator d, creationDate d)).

(** Every offset recorded in the table [x] is where that object's header
    line starts in [out], up to the width of an [int]. *)
Definition headersOk (out : bytes) (x : list Z) : Prop :=
  ∀ (i : nat) off, x !! i = Some off → off ≠ 0 →
    ∃ pre post, out = pre ++ objHeader (Z.of_nat i) ++ post ∧
                off = int_wrap (len pre).

(** The state of a generation that has met no error: [out] was written
    after [base], the position counts it, the offsets recorded so far
    point at header lines, and the offset table has [n] entries. *)
Definition Inv (base : bytes) (d : pdfDoc) (out : bytes) (n : nat) : Prop :=
  werr (writer d) = None ∧ tracked base d out ∧
  headersOk out (xref d) ∧ length (xref d) = n.

(** The [k]-th call of [log], made after the calls [c0], was answered by
    the sink with the error [e]. *)
Definition failedAt (c0 log : list bytes) (k : nat) (e : error) : Prop :=
  ∃ p n, log !! k = Some p ∧ sinkWrite (c0 ++ take k log) p = Some (n, e).

(** The sink was called with [log] since it had seen [c0]; a call that
    failed is the last one, and its error is [r]. *)
Definition surfaced (c0 log : list bytes) (r : option error) : Prop :=
  ∀ k e, failedAt c0 log k e → S k = length log ∧ r = Some e.

(** The writer [b] has made its calls to the sink after [c0], and holds
    the error of a failed call. *)
Definition Logged (c0 : list bytes) (b : Writer) : Prop :=
  ∃ log, calls (wr b) = c0 ++ log ∧ surfaced c0 log (werr b).

(** An outcome whose error, if any, is the one the writer holds. *)
Definition reports_err (c0 : list bytes) (o : outcome) : Prop :=
  ∀ d' r, o = Some (d', r) →
    Logged c0 (writer d') ∧ ∀ e, r = Some e → werr (writer d') = Some e.

(** An outcome whose result is exactly what the writer holds. *)
Definition reports (c0 : list bytes) (o : outcome) : Prop :=
  ∀ d' r, o = Some (d', r) → Logged c0 (writer d') ∧ r = werr (writer d').

(** An outcome that leaves a document with the property [P]. *)
Definition keeps (P : pdfDoc -> Prop) (o : outcome) : Prop :=
  ∀ d' r, o = Some (d', r) → P d'.

(** While the writer holds no error, the position counts what went
    through it after [base]. *)
Definition counted (base : bytes) (d : pdfDoc) : Prop :=
  werr (writer d) = None → ∃ out, tracked base d out.

(** An error the writer [b] holds is the answer of the sink to one of
    the calls made after [c0]. *)
Definition Caused (c0 : list bytes) (b : Writer) : Prop :=
  ∀ e, werr b = Some e →
    ∃ log k, calls (wr b) = c0 ++ log ∧ failedAt c0 log k e.

(** The strings of the document information are those of the map
    [inf], or their defaults. *)
Definition authored (inf : gmap string bytes) (d : pdfDoc) : Prop :=
  title d = infoGet inf "title" [] ∧
  author d = infoGet inf "author" [] ∧
  subject d = infoGet inf "subject" [] ∧
  producer d = infoGet inf "producer" (packageName ++ bs "-" ++ version_) ∧
  creator d = infoGet inf "creator" packageName.

(** [key] occurs in [s]. *)
Definition occursIn (key s : bytes) : Prop := ∃ l1 l2, s = l1 ++ key ++ l2.


(** ** Inputs of the examples *)

(** A sink that takes every write, as a [bytes.Buffer] does. *)
Definition okSink : list bytes -> bytes -> option (nat * error) :=
  fun _ _ => None.

(** A sink that takes its first write and fails from the second on,
    after three bytes. *)
Definition failSecond : list bytes -> bytes -> option (nat * error) :=
  fun calls _ =>
    match calls with
    | [] => None
    | _ => Some (3%nat, SinkError 5)
    end.

(** Stand-ins for zlib and MD5 in the examples: a compressor that gains
    nothing, and a digest of sixteen zero bytes. *)
Definition noCompress (data : bytes) : bytes := data.

(** A stand-in for a compressor that gets everything down to two bytes. *)
Definition toyDeflate (_ : bytes) : bytes := [x78; x9c].
Definition zeroDigest (_ : bytes) : bytes := repeat x00 16.

Definition emptySink : sink := {| calls := []; content := [] |}.

(** 30 November 2018, 12:00:00, nine hours east of UTC. *)
Definition aTime : Time :=
  {| year := 2018; month := 11; day := 30; hour := 12; minute := 0;
     second := 0; nsec := 0; offset := 32400 |}.

(** A version string of 10^10 bytes. *)
Definition bigVersion : bytes := repeat x31 (Z.to_nat (10 ^ 10)).

(** A client that writes one object of its own. *)
Definition oneObject : list call :=
  [CallNewId; CallAddObject 2 (bs "<</ProcSet[/PDF]>>")].




(** Every entry of the offset table [x] from 1 on is positive, but for
    the identifiers in [pending], whose objects are still to be started. *)
Definition allPos (x : list Z) (pending : nat -> Prop) : Prop :=
  ∀ (i : nat) off, x !! i = Some off → (1 <= i)%nat → ¬ pending i → 0 < off.

(** * Properties *)

(** ** Arithmetic of [int] *)

Lemma int_wrap_add_l (a b : Z) : int_wrap (int_wrap a + b) = int_wrap (a + b).
Proof.
  unfold int_wrap.
  replace ((a + 2 ^ 63) mod 2 ^ 64 - 2 ^ 63 + b + 2 ^ 63)
    with ((a + 2 ^ 63) mod 2 ^ 64 + b) by lia.
  rewrite Zplus_mod_idemp_l. f_equal. f_equal. lia.
Qed.

Lemma int_wrap_small (a : Z) : - 2 ^ 63 <= a < 2 ^ 63 -> int_wrap a = a.
Proof.
  intros H. unfold int_wrap. rewrite Z.mod_small; lia.
Qed.

Lemma len_app {A} (l k : list A) : len (l ++ k) = len l + len k.
Proof. unfold len. rewrite length_app. lia. Qed.

Lemma len_nonneg {A} (l : list A) : 0 <= len l.
Proof. unfold len. lia. Qed.

(** ** [bufio.Writer] *)

Lemma sink_Write_spec (s s' : sink) (p : bytes) (n : nat) (e : option error) :
  sink_Write s p = (s', n, e) ->
  content s' = content s ++ take n p /\ (n <= length p)%nat /\
  (e = None -> n = length p) /\ calls s' = calls s ++ [p] /\
  e = snd <$> sinkWrite (calls s) p.
Proof.
  unfold sink_Write. destruct (sinkWrite (calls s) p) as [[k e']|];
    intros [= <- <- <-]; simpl.
  - split; [|split; [lia|split; [discriminate | done]]].
    f_equal. destruct (Nat.le_ge_cases k (length p)).
    + by rewrite Nat.min_l.
    + rewrite Nat.min_r by done. by rewrite !take_ge.
  - rewrite firstn_all. repeat split; auto.
Qed.

Lemma Flush_spec (b b' : Writer) (e : option error) :
  Flush b = (b', e) ->
  stream b' = stream b /\ werr b' = e /\ wsize b' = wsize b /\
  (e = None -> wbuf b' = []) /\
  (forall x, werr b = Some x -> b' = b).
Proof.
  unfold Flush, stream. destruct (werr b) as [x|] eqn:Hx.
  { intros [= <- <-]. repeat split; auto. discriminate. }
  unfold Buffered. destruct (length (wbuf b) =? 0)%nat eqn:Hn.
  { intros [= <- <-]. apply Nat.eqb_eq in Hn.
    repeat split; auto; try discriminate.
    intros _. by destruct (wbuf b). }
  destruct (sink_Write (wr b) (wbuf b)) as [[s n] err] eqn:Hs.
  apply sink_Write_spec in Hs as (Hc & Hle & Hall & _ & _).
  destruct err as [x|]; intros [= <- <-]; simpl.
  - rewrite Hc, <- app_assoc, take_drop. repeat split; auto; discriminate.
  - rewrite Hc, (Hall eq_refl), firstn_all, app_nil_r.
    repeat split; auto; discriminate.
Qed.

Lemma Write_loop_spec (fuel : nat) : forall b p nn b' p' nn',
  Write_loop fuel b p nn = (b', p', nn') ->
  ∃ k, nn' = (nn + k)%nat /\ p' = drop k p /\ (k <= length p)%nat /\
       stream b' = stream b ++ take k p /\ wsize b' = wsize b /\
       (forall x, werr b = Some x -> b' = b /\ k = O).
Proof.
  induction fuel as [|fuel IH]; intros b p nn b' p' nn'; simpl.
  { intros [= <- <- <-]. exists O. rewrite drop_0, take_0, app_nil_r.
    repeat split; auto; lia. }
  destruct ((Available b <? length p)%nat && bool_decide (werr b = None))
    eqn:Hc.
  2:{ intros [= <- <- <-]. exists O. rewrite drop_0, take_0, app_nil_r.
      repeat split; auto; lia. }
  apply andb_true_iff in Hc as [Hav Herr]. apply bool_decide_eq_true in Herr.
  destruct (Buffered b =? 0)%nat eqn:Hb.
  - destruct (sink_Write (wr b) p) as [[s n] err] eqn:Hs.
    apply sink_Write_spec in Hs as (Hcont & Hle & _ & _ & _).
    intros H. apply IH in H as (k & -> & -> & Hk & Hst & Hsz & _).
    rewrite length_drop in Hk. exists (n + k)%nat.
    rewrite drop_drop. split; [lia|]. split; [done|]. split; [lia|].
    split; [|split; [done | intros x Hx; congruence]].
    rewrite Hst. unfold stream. simpl. rewrite Hcont.
    apply Nat.eqb_eq in Hb. unfold Buffered in Hb.
    destruct (wbuf b); [|discriminate]. rewrite !app_nil_r, <- app_assoc.
    by rewrite take_take_drop.
  - set (n := Nat.min (Available b) (length p)).
    set (b1 := {| wr := wr b; wbuf := wbuf b ++ take n p;
                  wsize := wsize b; werr := werr b |}).
    destruct (Flush b1) as [b2 e2] eqn:Hf.
    apply Flush_spec in Hf as (Hst2 & _ & Hsz2 & _ & _). simpl.
    intros H. apply IH in H as (k & -> & -> & Hk & Hst & Hsz & _).
    rewrite length_drop in Hk. exists (n + k)%nat.
    rewrite drop_drop. split; [lia|]. split; [done|].
    assert (n <= length p)%nat by (unfold n; lia).
    split; [lia|].
    split; [|split; [by rewrite Hsz, Hsz2 | intros x Hx; congruence]].
    rewrite Hst, Hst2. unfold stream, b1. simpl.
    by rewrite <- !app_assoc, take_take_drop.
Qed.

Lemma Write_loop_exit (fuel : nat) : forall b p nn,
  (rounds b p < fuel)%nat ->
  let '(b', p', _) := Write_loop fuel b p nn in
  werr b' = None -> (length p' <= Available b')%nat.
Proof.
  induction fuel as [|fuel IH]; intros b p nn Hr; [lia|].
  simpl. unfold rounds in Hr.
  destruct ((Available b <? length p)%nat && bool_decide (werr b = None))
    eqn:Hc.
  2:{ intros He. apply andb_false_iff in Hc as [Hc|Hc].
      - apply Nat.ltb_ge in Hc. lia.
      - apply bool_decide_eq_false in Hc. congruence. }
  destruct (Buffered b =? 0)%nat eqn:Hb.
  - destruct (sink_Write (wr b) p) as [[s n] err] eqn:Hs.
    apply sink_Write_spec in Hs as (_ & Hle & Hall & _ & _).
    apply IH. unfold rounds. simpl.
    destruct err as [x|]; simpl.
    + rewrite andb_false_r. lia.
    + rewrite (Hall eq_refl), drop_all. simpl. lia.
  - set (n := Nat.min (Available b) (length p)).
    set (b1 := {| wr := wr b; wbuf := wbuf b ++ take n p;
                  wsize := wsize b; werr := werr b |}).
    destruct (Flush b1) as [b2 e2] eqn:Hf.
    apply Flush_spec in Hf as (_ & He2 & _ & Hnil & _). simpl.
    apply IH. unfold rounds.
    destruct ((Available b2 <? length (drop n p))%nat &&
              bool_decide (werr b2 = None)) eqn:Hc2; [|lia].
    apply andb_true_iff in Hc2 as [_ Hc2]. apply bool_decide_eq_true in Hc2.
    unfold Buffered. rewrite Hnil by congruence. simpl. lia.
Qed.

Lemma Write_spec (b b' : Writer) (p : bytes) (n : nat) (e : option error) :
  Write b p = (b', n, e) ->
  stream b' = stream b ++ take n p /\ (n <= length p)%nat /\
  werr b' = e /\ wsize b' = wsize b /\ (e = None -> n = length p) /\
  (forall x, werr b = Some x -> b' = b /\ n = O).
Proof.
  unfold Write.
  pose proof (Write_loop_exit 3 b p 0) as Hexit.
  destruct (Write_loop 3 b p 0) as [[b1 p1] nn] eqn:Hl.
  apply Write_loop_spec in Hl as (k & -> & -> & Hk & Hst & Hsz & Hsticky).
  simpl in *.
  assert (Hr : (rounds b p < 3)%nat).
  { unfold rounds. repeat case_match; lia. }
  specialize (Hexit Hr).
  destruct (werr b1) as [x|] eqn:Hx.
  - intros [= <- <- <-].
    split; [done|]. split; [done|]. split; [done|]. split; [done|].
    split; [discriminate|]. intros y Hy. apply (Hsticky y Hy).
  - specialize (Hexit eq_refl). intros [= <- <- <-]. simpl.
    rewrite length_drop in Hexit.
    assert (Hm : Nat.min (Available b1) (length (drop k p)) =
                 (length p - k)%nat).
    { rewrite length_drop. lia. }
    rewrite Hm. replace (k + (length p - k))%nat with (length p) by lia.
    split.
    { unfold stream in *. simpl. rewrite app_assoc, Hst.
      rewrite firstn_all, <- app_assoc. f_equal.
      rewrite (take_ge (drop k p)) by (rewrite length_drop; lia).
      by rewrite take_drop. }
    split; [lia|]. split; [done|]. split; [by rewrite Hsz|].
    split; [done|].
    intros y Hy. destruct (Hsticky y Hy) as [-> _]. congruence.
Qed.

(** ** [write] and the position *)

Lemma write_spec (cs : list bytes) : forall d d' e,
  write d cs = (d', e) ->
  meta d' = meta d /\ wsize (writer d') = wsize (writer d) /\
  (cs ≠ [] -> e = werr (writer d')) /\
  (werr (writer d) = None -> e = werr (writer d')) /\
  (forall x, werr (writer d) = Some x -> writer d' = writer d) /\
  ∃ added, stream (writer d') = stream (writer d) ++ added /\
           (forall z, pos d = int_wrap z -> pos d' = int_wrap (z + len added)) /\
           (e = None -> added = concat cs).
Proof.
  induction cs as [|c cs IH]; intros d d' e; simpl.
  { intros [= <- <-]. repeat split; auto; try congruence.
    exists []. rewrite app_nil_r. repeat split; auto.
    intros z ->. f_equal. unfold len. simpl. lia. }
  destruct (Write (writer d) c) as [[w n] err] eqn:Hw.
  apply Write_spec in Hw as (Hst & Hn & Herr & Hsz & Hall & Hsticky).
  destruct err as [x|].
  - intros [= <- <-]. simpl. repeat split; auto; try congruence.
    { intros x' Hx'. by destruct (Hsticky x' Hx'). }
    exists (take n c). split; [done|]. split; [|discriminate].
    intros z ->. unfold int_add. rewrite int_wrap_add_l. f_equal.
    unfold len. rewrite length_take. lia.
  - intros H. apply IH in H as (Hm & Hsz' & He & He' & Hst' & added & Ha & Hp & Hc).
    simpl in *. split; [done|]. split; [congruence|].
    split. { intros _. apply He'. done. }
    split. { intros _. apply He'. done. }
    split. { intros x Hx. destruct (Hsticky x Hx) as [-> _]. congruence. }
    exists (c ++ added). rewrite Ha, Hst, (Hall eq_refl), firstn_all.
    rewrite <- app_assoc. split; [done|]. split.
    + intros z Hz. rewrite (Hp (z + len c)).
      * f_equal. rewrite len_app. lia.
      * rewrite Hz. unfold int_add. rewrite int_wrap_add_l. f_equal.
        rewrite (Hall eq_refl). unfold len. lia.
    + intros He0. by rewrite (Hc He0).
Qed.

Lemma write_tracked (base : bytes) (d d' : pdfDoc) (out : bytes) cs :
  tracked base d out -> write d cs = (d', None) ->
  tracked base d' (out ++ concat cs) /\ meta d' = meta d.
Proof.
  intros [Hs Hp] H. apply write_spec in H as (Hm & _ & _ & _ & _ & added & Ha & Hz & Hc).
  rewrite (Hc eq_refl) in *. split; [|done]. split.
  - by rewrite Ha, Hs, <- app_assoc.
  - rewrite (Hz _ Hp). f_equal. by rewrite len_app.
Qed.

Lemma write_ok_werr (d d' : pdfDoc) cs :
  cs ≠ [] -> write d cs = (d', None) -> werr (writer d') = None.
Proof.
  intros Hne H. apply write_spec in H as (_ & _ & He & _). symmetry. by apply He.
Qed.

Lemma write_sticky (d d' : pdfDoc) cs e x :
  cs ≠ [] -> werr (writer d) = Some x -> write d cs = (d', e) ->
  e = Some x /\ writer d' = writer d.
Proof.
  intros Hne Hx H. apply write_spec in H as (_ & _ & He & _ & Hst & _).
  rewrite (He Hne), (Hst x Hx). done.
Qed.

#[local] Arguments write : simpl never.
#[local] Arguments Write : simpl never.
#[local] Arguments Flush : simpl never.
#[local] Arguments objHeader : simpl never.
#[local] Arguments objectChunks : simpl never.
#[local] Arguments streamChunks : simpl never.
#[local] Arguments pageChunks : simpl never.
#[local] Arguments pageTree : simpl never.
#[local] Arguments docInfo : simpl never.
#[local] Arguments xrefHead : simpl never.
#[local] Arguments xrefLine : simpl never.
#[local] Arguments trailer : simpl never.
#[local] Arguments pdfHeader : simpl never.
#[local] Arguments fmt_d : simpl never.
#[local] Arguments fmt_0d : simpl never.
#[local] Arguments fmt_pdfId : simpl never.
#[local] Arguments int_wrap : simpl never.

(** ** The offset table *)

Lemma headersOk_app (out more : bytes) (x : list Z) :
  headersOk out x -> headersOk (out ++ more) x.
Proof.
  intros H i off Hi Hoff. destruct (H i off Hi Hoff) as (pre & post & -> & ->).
  exists pre, (post ++ more). by rewrite <- !app_assoc.
Qed.

Lemma headersOk_snoc (out : bytes) (x : list Z) :
  headersOk out x -> headersOk out (x ++ [0]).
Proof.
  intros H i off Hi Hoff. apply lookup_app_Some in Hi as [Hi | [_ Hi]].
  - by apply H.
  - apply list_lookup_singleton_Some in Hi as [_ <-]. done.
Qed.

Lemma headersOk_insert (out more : bytes) (x : list Z) (i : nat) :
  headersOk out x ->
  headersOk (out ++ objHeader (Z.of_nat i) ++ more)
            (<[i := int_wrap (len out)]> x).
Proof.
  intros H j off Hj Hoff. destruct (decide (i = j)) as [<- | Hne].
  - pose proof (lookup_lt_Some _ _ _ Hj) as Hlt. rewrite length_insert in Hlt.
    rewrite list_lookup_insert_eq in Hj by done. injection Hj as <-.
    by exists out, more.
  - rewrite list_lookup_insert_ne in Hj by done.
    destruct (H j off Hj Hoff) as (pre & post & -> & ->).
    exists pre, (post ++ objHeader (Z.of_nat i) ++ more).
    by rewrite <- !app_assoc.
Qed.

(** ** The methods of [pdfDoc] *)

Lemma andThen_ok (r : outcome) k d' :
  andThen r k = Some (d', None) ->
  ∃ d1, r = Some (d1, None) /\ k d1 = Some (d', None).
Proof.
  destruct r as [[d1 [e|]]|]; simpl; try discriminate. intros H. by exists d1.
Qed.

Lemma startObject_spec (d d' : pdfDoc) (id : Z) e :
  startObject d id = Some (d', e) ->
  0 < id /\ xref d !! Z.to_nat id = Some 0 /\
  write (set_xref d (<[Z.to_nat id := pos d]> (xref d))) [objHeader id]
    = (d', e).
Proof.
  unfold startObject. destruct (0 <? id) eqn:Hid; simpl; [|discriminate].
  apply Z.ltb_lt in Hid.
  destruct (xref d !! Z.to_nat id) as [off|]; [|discriminate].
  destruct (off =? 0) eqn:Hoff; simpl; [|discriminate].
  apply Z.eqb_eq in Hoff as ->. intros [= H]. done.
Qed.

Lemma meta_fields d d0 :
  meta d = meta d0 -> xref d = xref d0 /\ pages d = pages d0 /\
  pagesId d = pagesId d0 /\ title d = title d0 /\
  creationDate d = creationDate d0.
Proof.
  unfold meta. intros [= -> -> -> _ -> _ _ _ _ ->]. done.
Qed.

Lemma startObject_Inv base d out n d' id :
  Inv base d out n -> startObject d id = Some (d', None) ->
  Inv base d' (out ++ objHeader id) n /\ 0 < id /\ (Z.to_nat id < n)%nat /\
  meta d' = meta (set_xref d (<[Z.to_nat id := int_wrap (len out)]> (xref d))).
Proof.
  intros (Herr & Htr & Hh & Hn) H.
  apply startObject_spec in H as (Hid & Hx & Hw).
  pose proof (lookup_lt_Some _ _ _ Hx) as Hlt.
  destruct Htr as [Hs Hp]. rewrite Hp in Hw.
  assert (Herr' : werr (writer d') = None).
  { eapply write_ok_werr; [|exact Hw]. done. }
  apply (write_tracked base _ _ out) in Hw as [Htr' Hm]; [|by split].
  simpl in Htr'. rewrite app_nil_r in Htr'.
  destruct (meta_fields _ _ Hm) as (Hm1 & _). simpl in Hm1.
  split; [|split; [done|split; [lia|done]]].
  split; [done|]. split; [done|]. rewrite Hm1. split.
  - pose proof (headersOk_insert out [] (xref d) (Z.to_nat id) Hh) as Hi.
    rewrite Z2Nat.id, app_nil_r in Hi by lia. done.
  - rewrite length_insert. done.
Qed.

(** An object written in one piece: the header line, then the chunks. *)
Lemma wholeObject_Inv base d out n d1 d' id cs :
  cs ≠ [] -> Inv base d out n -> startObject d id = Some (d1, None) ->
  write d1 cs = (d', None) ->
  Inv base d' (out ++ object id cs) n /\ 0 < id /\ (Z.to_nat id < n)%nat /\
  meta d' = meta (set_xref d (<[Z.to_nat id := int_wrap (len out)]> (xref d))).
Proof.
  intros Hne HI Hs Hw.
  destruct (startObject_Inv _ _ _ _ _ _ HI Hs) as ((_ & Htr & Hh & Hn) & Hid & Hlt & Hm).
  pose proof (write_ok_werr _ _ _ Hne Hw) as Herr.
  apply (write_tracked base _ _ _ _ Htr) in Hw as [Htr' Hm'].
  unfold object. rewrite app_assoc.
  split; [|split; [done|split; [done|congruence]]].
  split; [done|]. split; [done|].
  destruct (meta_fields _ _ Hm') as (-> & _). split; [|done].
  by apply headersOk_app.
Qed.

Lemma addObject_Inv base d out n d' id value :
  Inv base d out n -> addObject d id value = Some (d', None) ->
  Inv base d' (out ++ object id (objectChunks value)) n /\
  0 < id /\ (Z.to_nat id < n)%nat /\
  meta d' = meta (set_xref d (<[Z.to_nat id := int_wrap (len out)]> (xref d))).
Proof.
  intros HI H. apply andThen_ok in H as (d1 & Hs & [= Hw]).
  by apply (wholeObject_Inv base d out n d1).
Qed.

Lemma addStream_Inv base d out n d' id data :
  Inv base d out n -> addStream d id data = Some (d', None) ->
  Inv base d' (out ++ object id (streamChunks data)) n /\
  0 < id /\ (Z.to_nat id < n)%nat /\
  meta d' = meta (set_xref d (<[Z.to_nat id := int_wrap (len out)]> (xref d))).
Proof.
  intros HI H. apply andThen_ok in H as (d1 & Hs & [= Hw]).
  apply (wholeObject_Inv base d out n d1); try done.
  unfold streamChunks. by destruct (streamData data).
Qed.

Lemma addPage_Inv base d out n d' id contents resources chunk :
  Inv base d out n ->
  addPage d id contents resources chunk = Some (d', None) ->
  Inv base d' (out ++ object id (pageChunks contents resources (pagesId d) chunk)) n /\
  0 < id /\ (Z.to_nat id < n)%nat /\ pages d' = pages d ++ [id] /\
  pagesId d' = pagesId d /\ title d' = title d /\
  creationDate d' = creationDate d.
Proof.
  intros HI H. apply andThen_ok in H as (d1 & Hs & [= Hw]).
  destruct (startObject_Inv _ _ _ _ _ _ HI Hs) as ((_ & Htr & Hh & Hn) & Hid & Hlt & Hm).
  apply meta_fields in Hm as (Hx & Hpg & Hpi & Ht & Hc).
  simpl in Hx, Hpg, Hpi, Ht, Hc.
  change (pagesId (set_pages d1 (pages d1 ++ [id]))) with (pagesId d1) in Hw.
  rewrite Hpi in Hw.
  assert (Herr : werr (writer d') = None).
  { eapply write_ok_werr; [|exact Hw]. done. }
  apply (write_tracked base _ _ (out ++ objHeader id)) in Hw as [Htr' Hm'];
    [|done].
  apply meta_fields in Hm' as (Hm1 & Hm2 & Hm3 & Hm4 & Hm5). simpl in *.
  unfold object. rewrite app_assoc.
  split; [|repeat split; try done; congruence].
  split; [done|]. split; [done|]. rewrite Hm1. split; [|done].
  by apply headersOk_app.
Qed.

Lemma newId_Inv base d out n :
  Inv base d out n ->
  Inv base (fst (newId d)) out (S n) /\ snd (newId d) = Z.of_nat n.
Proof.
  intros (Herr & Htr & Hh & Hn). unfold newId. simpl.
  split; [|unfold len; by rewrite Hn].
  split; [done|]. split; [done|]. split; [by apply headersOk_snoc|].
  cbn. rewrite last_length. lia.
Qed.

Lemma write_werr_back (d d' : pdfDoc) cs e :
  write d cs = (d', e) -> werr (writer d') = None -> werr (writer d) = None.
Proof.
  intros H Hn. apply write_spec in H as (_ & _ & _ & _ & Hst & _).
  destruct (werr (writer d)) as [x|] eqn:Hx; [|done].
  rewrite (Hst x eq_refl) in Hn. congruence.
Qed.

Lemma write_ok_of_after (d d' : pdfDoc) cs e :
  cs ≠ [] -> write d cs = (d', e) -> werr (writer d') = None -> e = None.
Proof.
  intros Hne H Hn. apply write_spec in H as (_ & _ & He & _). by rewrite (He Hne).
Qed.

Lemma xrefLoop_spec base (offs : list Z) : forall d d' out,
  xrefLoop d offs = Some d' -> werr (writer d') = None ->
  tracked base d out ->
  tracked base d' (out ++ concat (map xrefLine offs)) /\ meta d' = meta d /\
  Forall (fun off => 0 < off) offs /\ werr (writer d) = None.
Proof.
  induction offs as [|off offs IH]; intros d d' out; simpl.
  { intros [= <-] Hn Htr. rewrite app_nil_r. done. }
  destruct (0 <? off) eqn:Hoff; simpl; [|discriminate].
  apply Z.ltb_lt in Hoff.
  destruct (write d [xrefLine off]) as [d1 e] eqn:Hw. simpl.
  intros Hl Hn Htr.
  assert (Hn1 : werr (writer d1) = None).
  { destruct (werr (writer d1)) as [x|] eqn:Hx; [|done].
    clear IH Hw. revert d1 Hx Hl. induction offs as [|o offs IH]; simpl.
    - intros d1 Hx [= <-]. congruence.
    - intros d1 Hx. destruct (0 <? o); simpl; [|discriminate].
      destruct (write d1 [xrefLine o]) as [d2 e2] eqn:Hw2. simpl.
      apply IH. apply write_spec in Hw2 as (_ & _ & _ & _ & Hst & _).
      by rewrite (Hst x Hx). }
  assert (He : e = None) by (eapply write_ok_of_after; [|exact Hw|]; done).
  subst e. pose proof (write_werr_back _ _ _ _ Hw Hn1) as Hn0.
  apply (write_tracked base _ _ out) in Hw as [Htr1 Hm1]; [|done].
  destruct (IH _ _ _ Hl Hn Htr1) as (Htr' & Hm' & Hall & _).
  simpl in Htr'. rewrite app_nil_r, <- app_assoc in Htr'.
  split; [done|]. split; [congruence|]. split; [by constructor | done].
Qed.

Lemma xrefTable_eq (x : list Z) :
  xrefTable x = concat (xrefHead (len x)) ++ concat (map xrefLine (drop 1 x)).
Proof.
  unfold xrefTable, xrefHead.
  change (fmt_0d 10 0 ++ bs " " ++ fmt_0d 5 65535 ++ bs " f " ++ [NL])
    with (bs "0000000000 65535 f " ++ [NL]).
  rewrite !concat_cons, concat_nil, app_nil_r, <- !app_assoc.
  do 7 f_equal.
Qed.

(** ** [finish] *)

Lemma meta_docInfo d d0 :
  meta d = meta d0 -> docInfo d = docInfo d0 /\
  forall xp, idSeed d xp = idSeed d0 xp.
Proof.
  unfold meta, docInfo, idSeed. intros [= _ _ _ _ -> -> -> -> -> ->]. done.
Qed.

Lemma resolveDate_spec d now d1 :
  resolveDate d now = Some d1 ->
  writer d1 = writer d /\ pos d1 = pos d /\ xref d1 = xref d /\
  pages d1 = pages d /\ pagesId d1 = pagesId d /\ title d1 = title d /\
  Some (creationDate d1) =
    (if bool_decide (creationDate d = pdfUseNow) then pdfFormatDate now
     else Some (creationDate d)).
Proof.
  unfold resolveDate. destruct (bool_decide (creationDate d = pdfUseNow)).
  - destruct (pdfFormatDate now) as [s|]; simpl; [|discriminate].
    intros [= <-]. done.
  - intros [= <-]. done.
Qed.

Lemma finishTail_spec base d out d' catalogId docInfoId :
  tracked base d out -> finishTail d catalogId docInfoId = Some (d', None) ->
  content (wr (writer d')) =
    base ++ out ++ xrefTable (xref d) ++
    concat (trailer (len (xref d)) catalogId docInfoId (int_wrap (len out))
              (md5Sum (idSeed d (int_wrap (len out))))) /\
  wbuf (writer d') = [] /\ werr (writer d') = None /\ meta d' = meta d /\
  Forall (fun off => 0 < off) (drop 1 (xref d)).
Proof.
  intros Htr H. unfold finishTail in H.
  apply andThen_ok in H as (d1 & [= Hw1] & H).
  destruct (xrefLoop d1 (drop 1 (xref d1))) as [d2|] eqn:Hl; [|discriminate].
  apply andThen_ok in H as (d3 & [= Hw3] & H).
  destruct (Flush (writer d3)) as [w err] eqn:Hf. injection H as <- ->.
  apply Flush_spec in Hf as (Hst & Hwerr & _ & Hnil & _).
  specialize (Hnil eq_refl). cbn [writer set_writer_pos].
  assert (Hn3 : werr (writer d3) = None)
    by (eapply write_ok_werr; [|exact Hw3]; done).
  pose proof (write_werr_back _ _ _ _ Hw3 Hn3) as Hn2.
  pose proof Htr as [_ Hpos].
  apply (write_tracked base _ _ out) in Hw1 as [Htr1 Hm1]; [|done].
  destruct (xrefLoop_spec base _ _ _ _ Hl Hn2 Htr1) as (Htr2 & Hm2 & Hall & _).
  apply (write_tracked base _ _ _ _ Htr2) in Hw3 as [[Hs3 _] Hm3].
  destruct (meta_fields _ _ Hm1) as (Hx1 & _).
  destruct (meta_docInfo _ _ Hm2) as (_ & Hseed2).
  destruct (meta_docInfo _ _ Hm1) as (_ & Hseed1).
  rewrite Hx1 in *. rewrite Hpos, Hseed2, Hseed1 in Hs3.
  split; [|split; [done|split; [done|split; [|done]]]].
  - assert (Hcw : content (wr w) = stream (writer d3)).
    { rewrite <- Hst. unfold stream. by rewrite Hnil, app_nil_r. }
    rewrite Hcw, Hs3, xrefTable_eq, <- !app_assoc. done.
  - unfold meta in *. cbn. congruence.
Qed.

Lemma pageTree_ne d : pageTree d ≠ [].
Proof. unfold pageTree, pageTreeOf. done. Qed.

Lemma docInfo_ne d : docInfo d ≠ [].
Proof. unfold docInfo. done. Qed.

Lemma finish_output base d out n d' now :
  Inv base d out n -> finish d now = Some (d', None) ->
  ∃ body,
    body = object (pagesId d) (pageTree d) ++
           object (Z.of_nat n) (objectChunks (catalogBody (pagesId d))) ++
           object (Z.of_nat (S n)) (docInfo d') /\
    content (wr (writer d')) =
      base ++ (out ++ body) ++ xrefTable (xref d') ++
      concat (trailer (len (xref d')) (Z.of_nat n) (Z.of_nat (S n))
                (int_wrap (len (out ++ body)))
                (md5Sum (idSeed d' (int_wrap (len (out ++ body)))))) /\
    wbuf (writer d') = [] /\ werr (writer d') = None /\
    headersOk (out ++ body) (xref d') /\ length (xref d') = S (S n) /\
    Forall (fun off => 0 < off) (drop 1 (xref d')) /\
    title d' = title d /\ pages d' = pages d /\ pagesId d' = pagesId d /\
    Some (creationDate d') =
      (if bool_decide (creationDate d = pdfUseNow) then pdfFormatDate now
       else Some (creationDate d)) /\
    xref d' !! Z.to_nat (pagesId d) = Some (int_wrap (len out)).
Proof.
  intros HI H. unfold finish in H.
  apply andThen_ok in H as (d1 & Hs1 & H).
  apply andThen_ok in H as (d2 & [= Hw2] & H).
  destruct (wholeObject_Inv base d out n d1 d2 _ _ (pageTree_ne d) HI Hs1 Hw2)
    as (HI2 & _ & Hlt & Hm2).
  apply meta_fields in Hm2 as (Hx2 & Hpg2 & Hpi2 & Ht2 & Hc2).
  cbn in Hx2, Hpg2, Hpi2, Ht2, Hc2.
  destruct (newId_Inv _ _ _ _ HI2) as [HI3 Hid3].
  destruct (newId d2) as [d3 catalogId] eqn:Hnew3. cbn in HI3, Hid3. subst catalogId.
  assert (Hd3 : pagesId d3 = pagesId d2 /\ title d3 = title d2 /\
                creationDate d3 = creationDate d2 /\ pages d3 = pages d2 /\
                xref d3 = xref d2 ++ [0]).
  { unfold newId in Hnew3. injection Hnew3 as <-. done. }
  destruct Hd3 as (Hpi3 & Ht3 & Hc3 & Hpg3 & Hx3).
  apply andThen_ok in H as (d4 & Ha4 & H).
  destruct (addObject_Inv _ _ _ _ _ _ _ HI3 Ha4) as (HI4 & _ & _ & Hm4).
  apply meta_fields in Hm4 as (Hx4 & Hpg4 & Hpi4 & Ht4 & Hc4).
  cbn in Hx4, Hpg4, Hpi4, Ht4, Hc4.
  destruct (resolveDate d4 now) as [d5|] eqn:Hr; [|discriminate].
  apply resolveDate_spec in Hr as (Hw5 & Hp5 & Hx5 & Hpg5 & Hpi5 & Ht5 & Hc5).
  assert (HI5 : Inv base d5 (out ++ object (pagesId d) (pageTree d) ++
                  object (Z.of_nat n) (objectChunks (catalogBody (pagesId d3))))
                  (S n)).
  { rewrite app_assoc. destruct HI4 as (He & [Hs Hp] & Hh & Hn).
    split; [by rewrite Hw5|]. split; [split; [by rewrite Hw5 | by rewrite Hp5]|].
    by rewrite Hx5. }
  destruct (newId_Inv _ _ _ _ HI5) as [HI6 Hid6].
  destruct (newId d5) as [d6 docInfoId] eqn:Hnew6. cbn in HI6, Hid6. subst docInfoId.
  assert (Hd6 : meta d6 = meta (set_xref d5 (xref d5 ++ [0]))).
  { unfold newId in Hnew6. injection Hnew6 as <-. done. }
  apply andThen_ok in H as (d7 & Hs7 & H).
  apply andThen_ok in H as (d8 & [= Hw8] & H).
  destruct (wholeObject_Inv base d6 _ _ d7 d8 _ _ (docInfo_ne d7) HI6 Hs7 Hw8)
    as (HI8 & _ & _ & Hm8).
  destruct HI8 as (He8 & Htr8 & Hh8 & Hn8).
  destruct (finishTail_spec base _ _ _ _ _ Htr8 H) as (Hc & Hb & He & Hm & Hall).
  destruct (meta_docInfo _ _ Hm) as (Hdi & Hseed).
  destruct (meta_fields _ _ Hm) as (Hx' & Hpg' & Hpi' & Ht' & Hc').
  destruct (meta_fields _ _ Hm8) as (Hx8 & Hpg8 & Hpi8 & Ht8 & Hc8).
  destruct (meta_fields _ _ Hd6) as (Hx6 & Hpg6 & Hpi6 & Ht6 & Hc6).
  cbn in Hx8, Hpg8, Hpi8, Ht8, Hc8, Hx6, Hpg6, Hpi6, Ht6, Hc6.
  assert (Hentry : xref d' !! Z.to_nat (pagesId d) = Some (int_wrap (len out))).
  { destruct HI as (_ & _ & _ & Hn).
    rewrite Hx', Hx8, Hx6, Hx5, Hx4, Hx3, Hx2, !Nat2Z.id.
    rewrite list_lookup_insert_ne by lia.
    rewrite lookup_app_l
      by (rewrite length_insert, length_app, length_insert; cbn; lia).
    rewrite list_lookup_insert_ne by lia.
    rewrite lookup_app_l by (rewrite length_insert; lia).
    apply list_lookup_insert_eq. lia. }
  assert (Hdi7 : docInfo d7 = docInfo d').
  { apply startObject_spec in Hs7 as (_ & _ & Hw7).
    apply write_spec in Hw7 as (Hm7 & _). apply write_spec in Hw8 as (Hm8' & _).
    rewrite Hdi. apply meta_docInfo. done. }
  eexists. split; [reflexivity|].
  rewrite Hdi7, Hpi3, Hpi2 in *. rewrite <- !app_assoc in *.
  rewrite <- Hx', <- Hseed in Hc.
  split; [exact Hc|]. split; [done|]. split; [done|].
  split; [by rewrite Hx'|]. split; [by rewrite Hx'|]. split; [by rewrite Hx'|].
  split; [congruence|]. split; [congruence|]. split; [congruence|].
  split; [|done]. rewrite Hc', Hc8, Hc6, Hc5, Hc4, Hc3, Hc2. done.
Qed.

(** ** Generations *)

Lemma newPdfDoc_Inv w info d :
  newPdfDoc w info = (d, None) ->
  Inv (content w) d (concat (pdfHeader (version d))) 2 /\
  xref d = [0; 0] /\ pagesId d = 1 /\ pages d = [] /\
  version d = infoGet info "version" dfltPdfVersion /\
  title d = infoGet info "title" [] /\
  creationDate d = infoGet info "creationDate" pdfUseNow.
Proof.
  unfold newPdfDoc. cbn [newId fst snd set_xref set_pagesId xref version].
  set (d0 := set_pagesId _ _). intros Hw.
  assert (Herr : werr (writer d) = None)
    by (eapply write_ok_werr; [|exact Hw]; done).
  assert (Htr0 : tracked (content w) d0 []).
  { split; [unfold stream; cbn; by rewrite !app_nil_r | done]. }
  apply (write_tracked _ _ _ _ _ Htr0) in Hw as [Htr Hm].
  pose proof (meta_fields _ _ Hm) as (Hx & Hpg & Hpi & Ht & Hc).
  assert (Hv : version d = version d0)
    by (unfold meta in Hm; injection Hm; auto).
  cbn in Hx, Hpg, Hpi, Ht, Hc, Hv. cbn [app] in Htr.
  rewrite Hv. split; [|done].
  split; [done|]. split; [done|]. rewrite Hx. split; [|done].
  intros i off Hi Hoff. by destruct i as [|[|i]]; simplify_eq/=.
Qed.

Lemma runOp_Inv base d out n d' o :
  Inv base d out n -> runOp d o = Some (d', None) ->
  Inv base d' (out ++ callBytes (pagesId d) o) (n + allocated [o]) /\
  title d' = title d /\ creationDate d' = creationDate d /\
  pagesId d' = pagesId d /\ pages d' = pages d ++ pagesOf [o].
Proof.
  intros HI H. destruct o as [|id v|id data|id c r chunk]; cbn in H.
  - injection H as <-. destruct (newId_Inv _ _ _ _ HI) as [HI' _].
    cbn. by rewrite !app_nil_r, Nat.add_1_r.
  - destruct (addObject_Inv _ _ _ _ _ _ _ HI H) as (HI' & _ & _ & Hm).
    apply meta_fields in Hm as (_ & Hpg & Hpi & Ht & Hc).
    cbn. by rewrite Nat.add_0_r, app_nil_r.
  - destruct (addStream_Inv _ _ _ _ _ _ _ HI H) as (HI' & _ & _ & Hm).
    apply meta_fields in Hm as (_ & Hpg & Hpi & Ht & Hc).
    cbn. by rewrite Nat.add_0_r, app_nil_r.
  - destruct (addPage_Inv _ _ _ _ _ _ _ _ _ HI H)
      as (HI' & _ & _ & Hpg & Hpi & Ht & Hc).
    cbn. by rewrite Nat.add_0_r.
Qed.

Lemma allocated_cons o ops :
  allocated (o :: ops) = (allocated [o] + allocated ops)%nat.
Proof. by destruct o. Qed.

Lemma pagesOf_cons o ops : pagesOf (o :: ops) = pagesOf [o] ++ pagesOf ops.
Proof. by destruct o. Qed.

Lemma run_Inv base (ops : list call) : forall d out n d',
  Inv base d out n -> run d ops = Some (d', None) ->
  Inv base d' (out ++ runBytes (pagesId d) ops) (n + allocated ops) /\
  title d' = title d /\ creationDate d' = creationDate d /\
  pagesId d' = pagesId d /\ pages d' = pages d ++ pagesOf ops.
Proof.
  induction ops as [|o ops IH]; intros d out n d' HI H; cbn [run] in H.
  - injection H as <-. cbn. by rewrite !app_nil_r, Nat.add_0_r.
  - apply andThen_ok in H as (d1 & Ho & H).
    destruct (runOp_Inv _ _ _ _ _ _ HI Ho) as (HI1 & Ht1 & Hc1 & Hp1 & Hg1).
    destruct (IH _ _ _ _ HI1 H) as (HI2 & Ht2 & Hc2 & Hp2 & Hg2).
    unfold runBytes. cbn [map concat]. fold (runBytes (pagesId d) ops).
    rewrite Hp1, <- app_assoc in HI2.
    rewrite allocated_cons, Nat.add_assoc, pagesOf_cons.
    split; [exact HI2|]. split; [congruence|]. split; [congruence|].
    split; [congruence|]. rewrite Hg2, Hg1. by rewrite <- app_assoc.
Qed.

(** ** Decimal rendering *)

Lemma udec_aux_length (fuel : nat) : forall n acc (k : nat),
  0 <= n < 10 ^ Z.of_nat (S k) ->
  (length (udec_aux fuel n acc) <= length acc + S k)%nat.
Proof.
  induction fuel as [|fuel IH]; intros n acc k Hn; cbn [udec_aux]; [lia|].
  destruct (n / 10 =? 0) eqn:Hq; [cbn; lia|].
  apply Z.eqb_neq in Hq.
  destruct k as [|k].
  { exfalso. apply Hq. apply Z.div_small. cbn in Hn. lia. }
  specialize (IH (n / 10) (digit (n mod 10) :: acc) k).
  cbn [length] in IH. etransitivity; [apply IH|lia].
  split; [apply Z.div_pos; lia|].
  apply Z.div_lt_upper_bound; [lia|].
  replace (Z.of_nat (S (S k))) with (1 + Z.of_nat (S k)) in Hn by lia.
  rewrite Z.pow_add_r in Hn by lia. lia.
Qed.

Lemma fmt_0d_length (w : nat) (z : Z) :
  0 <= z < 10 ^ Z.of_nat w -> (1 <= w)%nat -> length (fmt_0d w z) = w.
Proof.
  intros Hz Hw. unfold fmt_0d.
  destruct (z <? 0) eqn:Hneg; [apply Z.ltb_lt in Hneg; lia|].
  rewrite Z.abs_eq by lia. cbn [app length].
  rewrite length_app, repeat_length.
  destruct w as [|k]; [lia|].
  pose proof (udec_aux_length (S (Z.to_nat (Z.log2 z))) z [] k Hz) as Hl.
  fold (udec z) in Hl. cbn [length] in Hl. lia.
Qed.

(** What a generation that returns without error has written, and the
    offset table it ends with. *)
Lemma generation_output w info ops now d' :
  generation w info ops now = Some (d', None) ->
  let n := (2 + allocated ops)%nat in
  let more := runBytes 1 ops in
  let body := object 1 (pageTreeOf (pagesOf ops)) ++
              object (Z.of_nat n) (objectChunks (catalogBody 1)) ++
              object (Z.of_nat (S n)) (docInfo d') in
  let out := concat (pdfHeader (infoGet info "version" dfltPdfVersion)) ++
             more ++ body in
  let xrefPos := int_wrap (len out) in
  content (wr (writer d')) =
    content w ++ out ++ xrefTable (xref d') ++
    concat (trailer (len (xref d')) (Z.of_nat n) (Z.of_nat (S n)) xrefPos
              (md5Sum (idSeed d' xrefPos))) /\
  wbuf (writer d') = [] /\
  headersOk out (xref d') /\ length (xref d') = S (S n) /\
  Forall (fun off => 0 < off) (drop 1 (xref d')) /\
  title d' = infoGet info "title" [] /\
  Some (creationDate d') =
    (if bool_decide (infoGet info "creationDate" pdfUseNow = pdfUseNow)
     then pdfFormatDate now
     else Some (infoGet info "creationDate" pdfUseNow)) /\
  xref d' !! 1%nat =
    Some (int_wrap (len (concat (pdfHeader (infoGet info "version"
                                               dfltPdfVersion)) ++ more))).
Proof.
  intros H. unfold generation in H.
  destruct (newPdfDoc w info) as [d0 e0] eqn:Hnew.
  apply andThen_ok in H as (d0' & [= -> ->] & H).
  apply andThen_ok in H as (d1 & Hrun & Hfin).
  apply newPdfDoc_Inv in Hnew as (HI0 & _ & Hpi0 & Hpg0 & Hv0 & Ht0 & Hc0).
  destruct (run_Inv _ _ _ _ _ _ HI0 Hrun) as (HI1 & Ht1 & Hc1 & Hpi1 & Hpg1).
  destruct (finish_output _ _ _ _ _ _ HI1 Hfin)
    as (body & Hbody & Hcont & Hbuf & _ & Hh & Hlen & Hpos & Ht & _ & _ & Hc
        & Hent).
  cbn zeta. subst body. unfold pageTree in *.
  rewrite Hpg1, Hpg0, Hpi1, Hpi0, Hv0 in *. cbn [app] in *.
  rewrite <- !app_assoc in *.
  split; [exact Hcont|]. split; [done|]. split; [done|]. split; [done|].
  split; [done|]. split; [congruence|]. split; [|exact Hent].
  rewrite Hc, Hc1, Hc0. done.
Qed.

(** C1, amended: a generation that completes, and whose output stays
    below 10^10 bytes, ends with a cross-reference table of 1 + (number of
    allocated identifiers) entries: the head line with that count, the
    free entry [0000000000 65535 f], and for every identifier a line
    [<10 digits> 00000 n] whose offset is the byte at which the header
    line [<id> 0 obj] of that object begins.  The identifiers allocated
    are the page tree, the client's, the catalog and the information
    dictionary. *)
Theorem xref_table_entries w info ops now d' :
  generation w info ops now = Some (d', None) ->
  len (content (wr (writer d'))) < len (content w) + 10 ^ 10 ->
  ∃ out before tail,
    content (wr (writer d')) = content w ++ out /\
    out = before ++ xrefTable (xref d') ++ tail /\
    length (xref d') = (1 + (3 + allocated ops))%nat /\
    ∀ i : nat, (1 <= i < length (xref d'))%nat ->
      ∃ off, xref d' !! i = Some off /\
             length (fmt_0d 10 off) = 10%nat /\
             headerAt out off (Z.of_nat i).
Proof.
  intros H Hsize.
  destruct (generation_output _ _ _ _ _ H)
    as (Hcont & _ & Hh & Hlen & Hpos & _).
  cbn zeta in *.
  set (out := concat _ ++ runBytes 1 ops ++ _) in *.
  set (tail := concat (trailer _ _ _ _ _)) in *.
  exists (out ++ xrefTable (xref d') ++ tail), out, tail.
  split; [exact Hcont|]. split; [done|]. split; [rewrite Hlen; lia|].
  intros i [Hi1 Hi2]. destruct (lookup_lt_is_Some_2 _ _ Hi2) as [off Hoff].
  exists off. split; [done|].
  assert (Hp : 0 < off).
  { rewrite Forall_forall in Hpos. apply Hpos.
    apply list_elem_of_lookup. exists (i - 1)%nat.
    rewrite lookup_drop. replace (1 + (i - 1))%nat with i by lia. done. }
  destruct (Hh i off Hoff ltac:(lia)) as (pre & post & Hout & ->).
  rewrite Hcont, len_app, Hout, !len_app in Hsize.
  pose proof (len_nonneg pre). pose proof (len_nonneg post).
  pose proof (len_nonneg (objHeader (Z.of_nat i))).
  pose proof (len_nonneg (xrefTable (xref d'))). pose proof (len_nonneg tail).
  assert (Hpre : 0 <= len pre < 10 ^ 10) by lia.
  rewrite int_wrap_small in * by (split; [|eapply Z.lt_trans; [apply Hpre|]]; lia).
  split.
  - apply fmt_0d_length; [done | lia].
  - exists pre, (post ++ xrefTable (xref d') ++ tail).
    rewrite Hout, <- !app_assoc. done.
Qed.

Lemma fmt_X_length (h : bytes) : length (fmt_X h) = (2 * length h)%nat.
Proof.
  unfold fmt_X. induction h as [|b h IH]; [done|].
  cbn [map concat]. rewrite length_app, IH. cbn [hex2 length]. lia.
Qed.

(** C6: the file identifier in the trailer of a completed generation is
    the MD5 digest of [creationDate/title/xref offset], written twice in
    upper-case hexadecimal; the creation date is the one of the document
    information (the clock's when none was given), the offset is the
    decimal number after [startxref], which is where the table begins. *)
Theorem trailer_id_is_digest w info ops now d' :
  generation w info ops now = Some (d', None) ->
  ∃ before sizeLine xrefPos,
    let digest :=
      md5Sum (creationDate d' ++ bs "/" ++ title d' ++ bs "/" ++
              fmt_d xrefPos) in
    content (wr (writer d')) =
      content w ++ before ++ xrefTable (xref d') ++
      bs "trailer" ++ [NL] ++ sizeLine ++
      bs "/ID[<" ++ fmt_X digest ++ bs "><" ++ fmt_X digest ++ bs ">]>>" ++
      [NL] ++ bs "startxref" ++ [NL] ++ fmt_d xrefPos ++ [NL] ++
      bs "%%EOF" ++ [NL] /\
    xrefPos = int_wrap (len before) /\
    length (fmt_X digest) = (2 * length digest)%nat /\
    title d' = infoGet info "title" [] /\
    Some (creationDate d') =
      (if bool_decide (infoGet info "creationDate" pdfUseNow = pdfUseNow)
       then pdfFormatDate now
       else Some (infoGet info "creationDate" pdfUseNow)).
Proof.
  intros H.
  destruct (generation_output _ _ _ _ _ H)
    as (Hcont & _ & _ & _ & _ & Ht & Hc & _).
  cbn zeta in Hcont.
  set (out := concat _ ++ runBytes 1 ops ++ _) in *.
  exists out,
    (bs "<</Size " ++ fmt_d (len (xref d')) ++ bs "/Root " ++
     fmt_pdfId (Z.of_nat (2 + allocated ops)) ++ bs "/Info " ++
     fmt_pdfId (Z.of_nat (S (2 + allocated ops))) ++ [NL]),
    (int_wrap (len out)).
  cbn zeta. split; [|split; [done|split; [apply fmt_X_length|done]]].
  rewrite Hcont. unfold trailer, idSeed.
  rewrite !concat_cons, concat_nil, app_nil_r, <- !app_assoc. done.
Qed.

(** ** Errors of the sink *)

Lemma sink_Write_Logged c0 (b : Writer) p s n err :
  Logged c0 b -> werr b = None -> sink_Write (wr b) p = (s, n, err) ->
  forall buf sz, Logged c0 {| wr := s; wbuf := buf; wsize := sz; werr := err |}.
Proof.
  intros (log & Hc & Hs) Hnone Hw buf sz.
  apply sink_Write_spec in Hw as (_ & _ & _ & Hcalls & Herr).
  exists (log ++ [p]). cbn. rewrite Hcalls, Hc, <- app_assoc. split; [done|].
  intros k e (q & m & Hk & Hf).
  apply lookup_app_Some in Hk as [Hk | [Hge Hk]].
  - exfalso. pose proof (lookup_lt_Some _ _ _ Hk) as Hlt.
    rewrite take_app_le in Hf by lia.
    destruct (Hs k e) as [_ He]; [by exists q, m|]. congruence.
  - apply list_lookup_singleton_Some in Hk as [Hk <-].
    assert (k = length log) as -> by lia.
    rewrite take_app_length in Hf. rewrite <- Hc in Hf.
    rewrite Hf in Herr. cbn in Herr. rewrite length_app. cbn.
    split; [lia | done].
Qed.

Lemma Logged_buf c0 (b : Writer) buf :
  Logged c0 b ->
  Logged c0 {| wr := wr b; wbuf := buf; wsize := wsize b; werr := werr b |}.
Proof. intros H. exact H. Qed.

Lemma Flush_Logged c0 (b : Writer) :
  Logged c0 b -> Logged c0 (fst (Flush b)).
Proof.
  intros HL. unfold Flush. destruct (werr b) as [x|] eqn:Hx; [done|].
  destruct (Buffered b =? 0)%nat; [done|].
  destruct (sink_Write (wr b) (wbuf b)) as [[s n] err] eqn:Hs.
  pose proof (sink_Write_Logged c0 b _ _ _ _ HL Hx Hs) as H.
  destruct err as [e|]; cbn; apply H.
Qed.

Lemma Write_loop_Logged c0 (fuel : nat) : forall b p nn,
  Logged c0 b -> Logged c0 (Write_loop fuel b p nn).1.1.
Proof.
  induction fuel as [|fuel IH]; intros b p nn HL; cbn [Write_loop]; [done|].
  destruct ((Available b <? length p)%nat && bool_decide (werr b = None))
    eqn:Hc; [|done].
  apply andb_true_iff in Hc as [_ Hn]. apply bool_decide_eq_true in Hn.
  destruct (Buffered b =? 0)%nat.
  - destruct (sink_Write (wr b) p) as [[s n] err] eqn:Hs.
    apply IH. by apply (sink_Write_Logged c0 b p s n err).
  - apply IH. apply Flush_Logged. exact HL.
Qed.

Lemma Write_Logged c0 (b : Writer) p :
  Logged c0 b -> Logged c0 (Write b p).1.1.
Proof.
  intros HL. unfold Write.
  pose proof (Write_loop_Logged c0 3 b p 0 HL) as H.
  destruct (Write_loop 3 b p 0) as [[b1 p1] nn]. cbn in H.
  destruct (werr b1) as [x|] eqn:Hx; cbn; [done|].
  destruct H as (log & Hc & Hs). exists log. cbn. by rewrite <- Hx.
Qed.

Lemma write_cons d c cs :
  write d (c :: cs) =
  let '(w, n, err) := Write (writer d) c in
  let d' := set_writer_pos d w (int_add (pos d) (Z.of_nat n)) in
  match err with
  | Some e => (d', Some e)
  | None => write d' cs
  end.
Proof. reflexivity. Qed.

Lemma write_Logged c0 (cs : list bytes) : forall d,
  Logged c0 (writer d) -> Logged c0 (writer (write d cs).1).
Proof.
  induction cs as [|c cs IH]; intros d HL; [done|]. rewrite write_cons.
  pose proof (Write_Logged c0 (writer d) c HL) as H.
  destruct (Write (writer d) c) as [[w n] err]. cbn in H.
  destruct err as [x|]; cbn; [done|]. apply IH. done.
Qed.

Lemma reports_weaken c0 o : reports c0 o -> reports_err c0 o.
Proof.
  intros H d' r Ho. destruct (H d' r Ho) as [HL ->]. split; [done|]. auto.
Qed.

Lemma write_reports c0 d cs :
  cs ≠ [] -> Logged c0 (writer d) -> reports c0 (Some (write d cs)).
Proof.
  intros Hne HL d' r [= H]. pose proof (write_Logged c0 cs d HL) as HL'.
  rewrite H in HL'. split; [done|].
  apply write_spec in H as (_ & _ & He & _). by apply He.
Qed.

Lemma andThen_reports c0 (o : outcome) k :
  reports_err c0 o ->
  (forall d1, Logged c0 (writer d1) -> reports c0 (k d1)) ->
  reports c0 (andThen o k).
Proof.
  intros Ho Hk d' r H. destruct o as [[d1 [e|]]|]; cbn in H; [| |done].
  - injection H as <- <-. destruct (Ho d1 (Some e) eq_refl) as [HL He].
    split; [done|]. symmetry. by apply He.
  - destruct (Ho d1 None eq_refl) as [HL _]. by apply (Hk d1 HL).
Qed.

Lemma andThen_reports_err c0 (o : outcome) k :
  reports_err c0 o ->
  (forall d1, Logged c0 (writer d1) -> reports_err c0 (k d1)) ->
  reports_err c0 (andThen o k).
Proof.
  intros Ho Hk d' r H. destruct o as [[d1 [e|]]|]; cbn in H; [| |done].
  - injection H as <- <-. destruct (Ho d1 (Some e) eq_refl) as [HL He].
    split; [done|]. intros e' [= <-]. by apply He.
  - destruct (Ho d1 None eq_refl) as [HL _]. by apply (Hk d1 HL).
Qed.

Lemma startObject_reports c0 d id :
  Logged c0 (writer d) -> reports c0 (startObject d id).
Proof.
  intros HL d' r H. apply startObject_spec in H as (_ & _ & H).
  apply (write_reports c0 (set_xref d (<[Z.to_nat id:=pos d]> (xref d)))
           [objHeader id]); [done|done|by rewrite H].
Qed.

Lemma object_reports c0 d id (f : pdfDoc -> pdfDoc) (cs : pdfDoc -> list bytes) :
  (forall d1, writer (f d1) = writer d1) -> (forall d1, cs d1 ≠ []) ->
  Logged c0 (writer d) ->
  reports c0 (andThen (startObject d id)
                (fun d1 => Some (write (f d1) (cs d1)))).
Proof.
  intros Hf Hcs HL. apply andThen_reports.
  - by apply reports_weaken, startObject_reports.
  - intros d1 HL1. apply write_reports; [done|]. by rewrite Hf.
Qed.

Lemma addObject_reports c0 d id value :
  Logged c0 (writer d) -> reports c0 (addObject d id value).
Proof.
  intros HL. by apply (object_reports c0 d id (fun d => d)
                         (fun _ => objectChunks value)).
Qed.

Lemma streamChunks_ne data : streamChunks data ≠ [].
Proof. unfold streamChunks. by destruct (streamData data). Qed.

Lemma addStream_reports c0 d id data :
  Logged c0 (writer d) -> reports c0 (addStream d id data).
Proof.
  intros HL. apply (object_reports c0 d id (fun d => d)
                      (fun _ => streamChunks data)); try done.
  intros _. apply streamChunks_ne.
Qed.

Lemma addPage_reports c0 d id contents resources chunk :
  Logged c0 (writer d) ->
  reports c0 (addPage d id contents resources chunk).
Proof.
  intros HL. unfold addPage.
  by apply (object_reports c0 d id (fun d => set_pages d (pages d ++ [id]))
              (fun d => pageChunks contents resources
                          (pagesId (set_pages d (pages d ++ [id]))) chunk)).
Qed.

Lemma xrefLoop_Logged c0 (offs : list Z) : forall d d',
  Logged c0 (writer d) -> xrefLoop d offs = Some d' -> Logged c0 (writer d').
Proof.
  induction offs as [|off offs IH]; intros d d' HL; cbn [xrefLoop].
  - by intros [= <-].
  - destruct (negb (0 <? off)); [done|]. apply IH.
    by apply write_Logged.
Qed.

Lemma finishTail_reports c0 d catalogId docInfoId :
  Logged c0 (writer d) -> reports c0 (finishTail d catalogId docInfoId).
Proof.
  intros HL. unfold finishTail. apply andThen_reports.
  { by apply reports_weaken, write_reports. }
  intros d1 HL1.
  destruct (xrefLoop d1 (drop 1 (xref d1))) as [d2|] eqn:Hl; [|done].
  pose proof (xrefLoop_Logged c0 _ _ _ HL1 Hl) as HL2.
  apply andThen_reports.
  { by apply reports_weaken, write_reports. }
  intros d3 HL3 d' r.
  pose proof (Flush_Logged c0 _ HL3) as HLf.
  destruct (Flush (writer d3)) as [w err] eqn:Hf. intros [= <- <-].
  apply Flush_spec in Hf as (_ & He & _). done.
Qed.

Lemma finish_reports c0 d now :
  Logged c0 (writer d) -> reports c0 (finish d now).
Proof.
  intros HL. unfold finish. apply andThen_reports.
  { by apply reports_weaken, startObject_reports. }
  intros d1 HL1. apply andThen_reports.
  { apply reports_weaken, write_reports; [apply pageTree_ne | done]. }
  intros d2 HL2. cbn [newId fst snd].
  apply andThen_reports.
  { by apply reports_weaken, addObject_reports. }
  intros d4 HL4. destruct (resolveDate d4 now) as [d5|] eqn:Hr; [|done].
  apply resolveDate_spec in Hr as (Hw5 & _).
  apply andThen_reports.
  { apply reports_weaken, startObject_reports. cbn. by rewrite Hw5. }
  intros d7 HL7. apply andThen_reports.
  { apply reports_weaken, write_reports; [apply docInfo_ne | done]. }
  intros d8 HL8. by apply finishTail_reports.
Qed.

Lemma writePages_reports_err c0 d resources (ps : list page) : forall pd,
  Logged c0 (writer pd) -> reports_err c0 (writePages d pd resources ps).
Proof.
  induction ps as [|p ps IH]; intros pd HL; cbn [writePages].
  - intros d' r [= <- <-]. done.
  - cbn [newId fst snd]. apply andThen_reports_err.
    { by apply reports_weaken, addStream_reports. }
    intros d1 HL1. apply andThen_reports_err.
    { by apply reports_weaken, addPage_reports. }
    intros d2 HL2. by apply IH.
Qed.

Lemma NewWriter_Logged (w : sink) : Logged (calls w) (NewWriter w).
Proof.
  exists []. cbn. rewrite app_nil_r. split; [done|].
  intros k e (p & n & Hk & _). done.
Qed.

Lemma pdfHeader_ne v : pdfHeader v ≠ [].
Proof. unfold pdfHeader. done. Qed.

Lemma generate_reports d w now : reports (calls w) (generate d w now).
Proof.
  unfold generate. apply andThen_reports.
  { apply reports_weaken. unfold newPdfDoc. cbn [newId fst snd].
    apply write_reports; [apply pdfHeader_ne|]. apply NewWriter_Logged. }
  intros pd HL. cbn [newId fst snd].
  pose proof (addObject_reports (calls w) (set_xref pd (xref pd ++ [0]))
                (len (xref pd)) procSet HL) as Ha.
  destruct (addObject _ _ procSet) as [[pd1 e1]|]; [|done].
  destruct (Ha pd1 e1 eq_refl) as [HL1 _].
  apply andThen_reports.
  { by apply writePages_reports_err. }
  intros pd2 HL2. by apply finish_reports.
Qed.

(** A sink error met by [finish] is the last call made to the sink, and
    [finish] returns it. *)
Lemma finish_sink_error c0 d now d' r :
  Logged c0 (writer d) -> finish d now = Some (d', r) ->
  ∃ log, calls (wr (writer d')) = c0 ++ log /\ surfaced c0 log r.
Proof.
  intros HL H. destruct (finish_reports c0 d now HL d' r H) as [HL' ->].
  exact HL'.
Qed.

(** C2: whatever [WriteTo] returns, an error that the sink answered to
    one of the calls made during the generation is the error [WriteTo]
    returns, and the call that met it is the last call the sink got: no
    further write is attempted, and no error of the sink is dropped.
    ([finish_sink_error] is the same fact for [finish] alone.) *)
Theorem sink_error_surfaces d w now s n err :
  w_result (WriteTo d w now) = Some (s, n, err) ->
  ∃ log, calls s = calls w ++ log /\ surfaced (calls w) log err.
Proof.
  unfold WriteTo.
  destruct (if (length (doc_pages (autoPageSize d)) =? 0)%nat
            then AddPage (autoPageSize d) (Some dfltMuffler)
            else (autoPageSize d, None)) as [d1 [e|]].
  - cbn. intros [= <- _ <-]. exists []. rewrite app_nil_r. split; [done|].
    intros k e' (p & m & Hk & _). done.
  - pose proof (generate_reports (freeze d1) w now) as Hg. cbn [w_result].
    destruct (generate (freeze d1) w now) as [[pd r]|]; [|done].
    intros [= <- _ <-]. destruct (Hg pd r eq_refl) as [HL ->]. exact HL.
Qed.

(** ** The document *)

(** C9: a page size with a width or height that is zero or negative, and
    a page with a scale that is zero or negative or with a nil muffler,
    are rejected with an error, and the document is returned as it was:
    its size, its pages, its frozen flag and its information.  These
    methods have no writer at hand: no byte is written and no identifier
    is allocated before [WriteTo]. *)
Theorem invalid_arguments_rejected (d : Doc) (w h : float)
    (muffler : option Color) (scale : float) :
  PrimFloat.leb w PrimFloat.zero || PrimFloat.leb h PrimFloat.zero = true ->
  PrimFloat.leb scale PrimFloat.zero = true \/ muffler = None ->
  (∃ e, SetPageSize d w h = (d, Some e)) /\
  (∃ e, NewWithSize w h = (emptyDoc, Some e)) /\
  (∃ e, AddPageScaled d muffler scale = (d, Some e)).
Proof.
  intros Hsize Hpage. split; [|split].
  - unfold SetPageSize. destruct (frozen d); [by eexists|].
    rewrite Hsize. by eexists.
  - unfold NewWithSize, SetPageSize. cbn [frozen emptyDoc].
    rewrite Hsize. by eexists.
  - unfold AddPageScaled. destruct (frozen d); [by eexists|].
    destruct (PrimFloat.leb scale PrimFloat.zero); [by eexists|].
    destruct Hpage as [Hs | ->]; [done | by eexists].
Qed.

Lemma WriteTo_frozen d w now : frozen (w_doc (WriteTo d w now)) = true.
Proof.
  unfold WriteTo.
  assert (Hf : frozen (autoPageSize d) = frozen d).
  { unfold autoPageSize. by case_match. }
  destruct (length (doc_pages (autoPageSize d)) =? 0)%nat; [|done].
  unfold AddPage, AddPageScaled. rewrite Hf.
  destruct (frozen d) eqn:Hd; cbn [w_doc]; [done|].
  change (PrimFloat.leb (f64 1) PrimFloat.zero) with false. done.
Qed.

(** C10: once [WriteTo] has been called, whether it returned an error, a
    result or panicked, the document is frozen: [SetPageSize],
    [AddPageScaled], [AddPage] and [SetDocInfo] return the error
    "document is frozen" and the document they were given. *)
Theorem frozen_after_WriteTo (d : Doc) (w : sink) (now : Time) :
  let d' := w_doc (WriteTo d w now) in
  frozen d' = true /\
  forall (width height scale : float) (muffler : option Color)
         (m : gmap string bytes),
    SetPageSize d' width height = (d', Some ErrFrozen) /\
    AddPageScaled d' muffler scale = (d', Some ErrFrozen) /\
    AddPage d' muffler = (d', Some ErrFrozen) /\
    SetDocInfo d' m = (d', Some ErrFrozen).
Proof.
  cbn zeta. pose proof (WriteTo_frozen d w now) as Hf.
  split; [done|]. intros.
  unfold SetPageSize, AddPage, AddPageScaled, SetDocInfo, errFrozen.
  rewrite Hf. done.
Qed.

(** ** Streams *)

(** A byte that is none of the bytes of a given literal. *)
Ltac not_in_literal :=
  let H := fresh "Hin" in
  unfold bs; cbn; intros H;
  repeat (apply elem_of_cons in H as [H|H]; [discriminate|]);
  by apply elem_of_nil in H.

Lemma digit_mod10_not_F (n : Z) : digit (n mod 10) ≠ x46.
Proof.
  pose proof (Z.mod_pos_bound n 10 ltac:(lia)) as H.
  assert (n mod 10 = 0 \/ n mod 10 = 1 \/ n mod 10 = 2 \/ n mod 10 = 3 \/
          n mod 10 = 4 \/ n mod 10 = 5 \/ n mod 10 = 6 \/ n mod 10 = 7 \/
          n mod 10 = 8 \/ n mod 10 = 9) as Hc by lia.
  destruct Hc as [-> | [-> | [-> | [-> | [-> | [-> | [-> | [-> | [-> | ->]]]]]]]]];
    discriminate.
Qed.

Lemma udec_aux_not_F (fuel : nat) : forall n acc,
  x46 ∉ acc -> x46 ∉ udec_aux fuel n acc.
Proof.
  induction fuel as [|fuel IH]; intros n acc Hacc; cbn [udec_aux]; [done|].
  assert (x46 ∉ digit (n mod 10) :: acc).
  { apply not_elem_of_cons. split; [|done].
    intros E. by apply (digit_mod10_not_F n). }
  destruct (n / 10 =? 0); [done|]. by apply IH.
Qed.

Lemma fmt_d_not_F (n : Z) : x46 ∉ fmt_d n.
Proof.
  unfold fmt_d, udec. destruct (n <? 0).
  - apply not_elem_of_app. split.
    + not_in_literal.
    + apply udec_aux_not_F, not_elem_of_nil.
  - apply udec_aux_not_F, not_elem_of_nil.
Qed.

Lemma streamChunks_concat base d out n d' id data :
  Inv base d out n -> addStream d id data = Some (d', None) ->
  stream (writer d') = base ++ out ++ objHeader id ++ concat (streamChunks data).
Proof.
  intros HI H.
  destruct (addStream_Inv _ _ _ _ _ _ _ HI H) as ((_ & [Hs _] & _) & _).
  by rewrite Hs.
Qed.

(** The chunks of a stream by the length of the zlib output: when it is
    at most the raw length minus 32, the dictionary has the key
    [/Filter/FlateDecode], [/Length] is the compressed length and the
    compressed bytes follow [stream]; otherwise the dictionary has no
    [/Filter], [/Length] is the raw length and the raw bytes follow as
    they are.  These chunks, after the header line, are what a call that
    returns without error has added to the output. *)
Lemma streamChunks_gate (data : bytes) :
  let z := zlibCompress data in
  let dict (n : Z) (filter : bytes) :=
    bs "<</Length " ++ fmt_d n ++ filter ++ bs ">>" ++ [NL] ++
    bs "stream" ++ [NL] in
  let fin := bs "endstream" ++ [NL] ++ bs "endobj" ++ [NL] in
  (len z <= len data - 32 ->
   streamChunks data =
     [dict (len z) (bs "/Filter/FlateDecode"); z; pdfNewLine z; fin]) /\
  (len data - 32 < len z ->
   streamChunks data = [dict (len data) []; data; pdfNewLine data; fin] /\
   ¬ occursIn (bs "/Filter") (dict (len data) [])) /\
  (forall base d out n d' id,
     Inv base d out n -> addStream d id data = Some (d', None) ->
     stream (writer d') =
       base ++ out ++ objHeader id ++ concat (streamChunks data)).
Proof.
  cbn zeta. split; [|split].
  - intros Hle. unfold streamChunks, streamData. cbn [pdfUseDeflate].
    apply Z.leb_le in Hle. rewrite Hle. done.
  - intros Hgt. unfold streamChunks, streamData. cbn [pdfUseDeflate].
    apply Z.leb_gt in Hgt. rewrite Hgt. split; [done|].
    intros (l1 & l2 & E).
    assert (Hin : x46 ∈ l1 ++ bs "/Filter" ++ l2).
    { rewrite !elem_of_app. right. left. unfold bs. cbn.
      rewrite !elem_of_cons. auto. }
    rewrite <- E in Hin. rewrite !elem_of_app in Hin.
    destruct Hin as [Hin | [Hin | [Hin | [Hin | [Hin | [Hin | Hin]]]]]].
    + revert Hin. not_in_literal.
    + by apply fmt_d_not_F in Hin.
    + by apply elem_of_nil in Hin.
    + revert Hin. not_in_literal.
    + revert Hin. not_in_literal.
    + revert Hin. not_in_literal.
    + revert Hin. not_in_literal.
  - intros. by eapply streamChunks_concat.
Qed.

(** ** The [Kids] array *)




(** ** Dates *)

Lemma forallb_range (f : Z -> bool) (n : nat) (x : Z) :
  forallb f (map Z.of_nat (seq 0 n)) = true ->
  0 <= x < Z.of_nat n -> f x = true.
Proof.
  intros H Hx. rewrite forallb_forall in H. apply H.
  apply in_map_iff. exists (Z.to_nat x). split; [lia|].
  apply in_seq. lia.
Qed.

Lemma twoDigitsOk_all (x : Z) : 0 <= x < 100 -> twoDigitsOk x = true.
Proof.
  apply (forallb_range twoDigitsOk 100). vm_compute. reflexivity.
Qed.

Lemma fourDigitsOk_all (y : Z) : 0 <= y < 10000 -> fourDigitsOk y = true.
Proof.
  intros Hy. apply (forallb_range fourDigitsOk (Z.to_nat 10000)); [|lia].
  vm_compute. reflexivity.
Qed.

Lemma zoneOk_all (m : Z) : -1500 < m < 1500 -> zoneOk m = true.
Proof.
  intros Hm.
  pose proof (forallb_range (fun k => zoneOk (k - 1499)) 2999 (m + 1499)) as H.
  cbv beta in H. replace (m + 1499 - 1499) with m in H by lia.
  apply H; [vm_compute; reflexivity | lia].
Qed.

Lemma getnum_two c0 c1 rest fixed :
  isDigit [c0] 0 = true -> isDigit [c1] 0 = true ->
  getnum (c0 :: c1 :: rest) fixed =
    Some (digitVal c0 * 10 + digitVal c1, rest).
Proof.
  unfold getnum, isDigit. cbn. intros -> ->. done.
Qed.

Lemma appendInt_two (x : Z) :
  0 <= x < 100 ->
  ∃ c0 c1, appendInt x 2 = [c0; c1] /\
           forall rest fixed, getnum (c0 :: c1 :: rest) fixed = Some (x, rest).
Proof.
  intros Hx. pose proof (twoDigitsOk_all x Hx) as H. unfold twoDigitsOk in H.
  destruct (appendInt x 2) as [|c0 [|c1 [|? ?]]]; try discriminate.
  apply andb_true_iff in H as [H Hv]. apply andb_true_iff in H as [H0 H1].
  apply Z.eqb_eq in Hv. exists c0, c1. split; [done|].
  intros rest fixed. by rewrite getnum_two, Hv.
Qed.

Lemma appendInt_four (y : Z) :
  0 <= y < 10000 ->
  ∃ c0 c1 c2 c3, appendInt y 4 = [c0; c1; c2; c3] /\
                 isDigit [c0] 0 = true /\ atoi [c0; c1; c2; c3] = Some y.
Proof.
  intros Hy. pose proof (fourDigitsOk_all y Hy) as H. unfold fourDigitsOk in H.
  destruct (appendInt y 4) as [|c0 [|c1 [|c2 [|c3 [|? ?]]]]]; try discriminate.
  apply andb_true_iff in H as [H0 Ha]. apply bool_decide_eq_true in Ha.
  by exists c0, c1, c2, c3.
Qed.

Lemma formatZone_cases (off : Z) :
  Z.rem off 60 = 0 -> Z.abs off < 90000 ->
  (off = 0 /\ formatZone off = bs "Z") \/
  ∃ sg a b e f,
    formatZone off = [sg; a; b; x3a; e; f] /\ (sg = x2b \/ sg = x2d) /\
    parseZone [sg; a; b; x3a; e; f] = Some (off, []).
Proof.
  intros Hrem Habs.
  assert (Hoff : off = Z.quot off 60 * 60).
  { pose proof (Z.quot_rem' off 60). lia. }
  assert (Hm : -1500 < Z.quot off 60 < 1500).
  { pose proof (Z.quot_rem' off 60). lia. }
  pose proof (zoneOk_all _ Hm) as H. unfold zoneOk in H.
  rewrite <- Hoff in H.
  destruct (Z.quot off 60 =? 0) eqn:Hz.
  - left. apply Z.eqb_eq in Hz. apply bool_decide_eq_true in H. split; [lia|done].
  - right. destruct (formatZone off) as [|sg [|a [|b [|c [|e [|f [|? ?]]]]]]];
      try discriminate.
    apply andb_true_iff in H as [H Hp]. apply andb_true_iff in H as [Hs Hc].
    apply bool_decide_eq_true in Hp, Hc. subst c.
    exists sg, a, b, e, f. split; [done|]. split; [|done].
    apply orb_true_iff in Hs as [Hs|Hs]; apply bool_decide_eq_true in Hs; auto.
Qed.

Lemma time_Parse_digits (t : Time) (y0 y1 y2 y3 o0 o1 d0 d1 h0 h1 m0 m1 s0 s1 : byte)
    (zs : bytes) :
  valid_time t ->
  isDigit [y0] 0 = true -> atoi [y0; y1; y2; y3] = Some (year t) ->
  (forall rest fixed, getnum (o0 :: o1 :: rest) fixed = Some (month t, rest)) ->
  (forall rest fixed, getnum (d0 :: d1 :: rest) fixed = Some (day t, rest)) ->
  (forall rest fixed, getnum (h0 :: h1 :: rest) fixed = Some (hour t, rest)) ->
  (forall rest fixed, getnum (m0 :: m1 :: rest) fixed = Some (minute t, rest)) ->
  (forall rest fixed, getnum (s0 :: s1 :: rest) fixed = Some (second t, rest)) ->
  (2 <=? length zs)%nat &&
    (bool_decide (zs !! 0%nat = Some x2e) ||
     bool_decide (zs !! 0%nat = Some x2c)) && isDigit zs 1 = false ->
  parseZone zs = Some (offset t, []) ->
  time_Parse ([y0; y1; y2; y3; o0; o1; d0; d1; h0; h1; m0; m1; s0; s1] ++ zs)
    = Some (truncSecond t).
Proof.
  intros (Hmo & Hd & Hh & Hmi & Hs & _) Hy0 Hya Ho Hdd Hhh Hmm Hss Hfrac Hz.
  unfold time_Parse.
  change (isDigit ([y0; y1; y2; y3; o0; o1; d0; d1; h0; h1; m0; m1; s0; s1] ++ zs) 0)
    with (isDigit [y0] 0).
  rewrite Hy0. cbn [length app take drop firstn skipn negb orb Nat.ltb Nat.leb].
  rewrite Hya. cbn [mbind option_bind]. rewrite Ho. cbn [mbind option_bind].
  assert ((month t <=? 0) || (12 <? month t) = false) as ->
    by (apply orb_false_iff; split; [apply Z.leb_gt | apply Z.ltb_ge]; lia).
  rewrite Hdd. cbn [mbind option_bind]. rewrite Hhh. cbn [mbind option_bind].
  assert ((24 <=? hour t) = false) as -> by (apply Z.leb_gt; lia).
  rewrite Hmm. cbn [mbind option_bind].
  assert ((60 <=? minute t) = false) as -> by (apply Z.leb_gt; lia).
  rewrite Hss. cbn [mbind option_bind].
  assert ((60 <=? second t) = false) as -> by (apply Z.leb_gt; lia).
  cbn [Nat.leb] in Hfrac. rewrite Hfrac. cbn [mbind option_bind]. rewrite Hz. cbn [mbind option_bind length Nat.eqb negb].
  assert ((day t <? 1) || (daysIn (month t) (year t) <? day t) = false) as ->
    by (apply orb_false_iff; split; apply Z.ltb_ge; lia).
  done.
Qed.

Lemma pdfParseDate_15 (rest : bytes) :
  length rest = 15%nat ->
  pdfParseDate (x44 :: x3a :: rest) =
    match time_Parse rest with
    | Some t => Some (inl t)
    | None => Some (inr (ErrDateFormat (x44 :: x3a :: rest)))
    end.
Proof.
  intros Hl. unfold pdfParseDate.
  change (length (x44 :: x3a :: rest) <? 2)%nat with false.
  change (take 2 (x44 :: x3a :: rest)) with (bs "D:").
  rewrite bool_decide_eq_true_2 by done.
  change (drop 2 (x44 :: x3a :: rest)) with rest. rewrite Hl. done.
Qed.

Lemma pdfParseDate_21 (rest : bytes) :
  length rest = 21%nat ->
  rest !! 17%nat = Some QUOTE -> rest !! 20%nat = Some QUOTE ->
  pdfParseDate (x44 :: x3a :: rest) =
    match time_Parse (<[17%nat := x3a]> (take 20 rest)) with
    | Some t => Some (inl t)
    | None => Some (inr (ErrDateFormat (x44 :: x3a :: rest)))
    end.
Proof.
  intros Hl H17 H20. unfold pdfParseDate.
  change (length (x44 :: x3a :: rest) <? 2)%nat with false.
  change (take 2 (x44 :: x3a :: rest)) with (bs "D:").
  rewrite bool_decide_eq_true_2 by done.
  change (drop 2 (x44 :: x3a :: rest)) with rest. rewrite Hl.
  change (drop 21 dateTemplate) with (@nil byte). rewrite app_nil_r.
  rewrite H17, H20. rewrite !bool_decide_eq_true_2 by done. done.
Qed.

(** C4, amended: for a time whose year is from 0 to 9999 and whose zone
    offset is a whole number of minutes, less than 25 hours from UTC,
    [pdfFormatDate] returns a string that [pdfParseDate] reads back as
    the same date, clock and offset, with the nanoseconds dropped: the
    same instant at the granularity of a second. *)
Theorem date_round_trip (t : Time) :
  valid_time t -> 0 <= year t <= 9999 ->
  Z.rem (offset t) 60 = 0 -> Z.abs (offset t) < 90000 ->
  ∃ s, pdfFormatDate t = Some s /\
       pdfParseDate s = Some (inl (truncSecond t)).
Proof.
  intros Hvalid Hy Hrem Habs.
  pose proof Hvalid as (Hmo & Hd & Hh & Hmi & Hs & _).
  assert (Hdmax : daysIn (month t) (year t) <= 31).
  { unfold daysIn. repeat case_match; lia. }
  destruct (appendInt_four (year t) ltac:(lia)) as (y0 & y1 & y2 & y3 & Ey & Hy0 & Hya).
  destruct (appendInt_two (month t) ltac:(lia)) as (o0 & o1 & Eo & Ho).
  destruct (appendInt_two (day t) ltac:(lia)) as (d0 & d1 & Ed & Hdd).
  destruct (appendInt_two (hour t) ltac:(lia)) as (h0 & h1 & Eh & Hhh).
  destruct (appendInt_two (minute t) ltac:(lia)) as (m0 & m1 & Em & Hmm).
  destruct (appendInt_two (second t) ltac:(lia)) as (s0 & s1 & Es & Hss).
  unfold pdfFormatDate, time_Format. rewrite Ey, Eo, Ed, Eh, Em, Es.
  destruct (formatZone_cases (offset t) Hrem Habs)
    as [[Hz Ez] | (sg & a & b & e & f & Ez & Hsg & Hp)]; rewrite Ez.
  - eexists. split; [reflexivity|].
    change (<[0%nat:=x44]> _)
      with (x44 :: x3a ::
            [y0; y1; y2; y3; o0; o1; d0; d1; h0; h1; m0; m1; s0; s1] ++ bs "Z").
    rewrite pdfParseDate_15 by done.
    rewrite (time_Parse_digits t y0 y1 y2 y3 o0 o1 d0 d1 h0 h1 m0 m1 s0 s1
               (bs "Z") Hvalid Hy0 Hya Ho Hdd Hhh Hmm Hss eq_refl);
      [done | by rewrite Hz].
  - eexists. split; [reflexivity|].
    change (<[19%nat:=QUOTE]> _ ++ [QUOTE])
      with (x44 :: x3a ::
            [y0; y1; y2; y3; o0; o1; d0; d1; h0; h1; m0; m1; s0; s1] ++
            [sg; a; b; QUOTE; e; f; QUOTE]).
    rewrite pdfParseDate_21 by done.
    change (<[17%nat:=x3a]> (take 20 _))
      with ([y0; y1; y2; y3; o0; o1; d0; d1; h0; h1; m0; m1; s0; s1] ++
            [sg; a; b; x3a; e; f]).
    rewrite (time_Parse_digits t y0 y1 y2 y3 o0 o1 d0 d1 h0 h1 m0 m1 s0 s1
               [sg; a; b; x3a; e; f] Hvalid Hy0 Hya Ho Hdd Hhh Hmm Hss);
      [done | by destruct Hsg as [-> | ->] | done].
Qed.

(** ** String escaping *)

Lemma pdfStr_loop_ascii (rs : list Z) : forall buf,
  Forall (fun u => u <= 127) rs ->
  pdfStr_loop rs buf = (buf ++ concat (map escRune rs), true).
Proof.
  induction rs as [|u rs IH]; intros buf Hall; cbn [pdfStr_loop map concat].
  { by rewrite app_nil_r. }
  apply Forall_cons in Hall as [Hu Hall]. unfold escRune.
  assert ((127 <? u) = false) as Hgt by (apply Z.ltb_ge; lia).
  repeat (case_match; [rewrite IH by done; by rewrite <- !app_assoc|]).
  rewrite Hgt. rewrite IH by done. by rewrite <- !app_assoc.
Qed.

Lemma pdfStr_loop_nonascii (rs : list Z) : forall buf,
  Exists (fun u => 127 < u) rs -> (pdfStr_loop rs buf).2 = false.
Proof.
  induction rs as [|u rs IH]; intros buf Hex; [by apply Exists_nil in Hex|].
  cbn [pdfStr_loop].
  apply Exists_cons in Hex as [Hu | Hex].
  - repeat match goal with
           | |- context [?a =? ?b] => rewrite (proj2 (Z.eqb_neq a b)) by lia
           end.
    rewrite (proj2 (Z.ltb_ge u 32)) by lia.
    rewrite (proj2 (Z.ltb_lt 127 u)) by lia. done.
  - repeat (case_match; [by apply IH|]). case_match; [done | by apply IH].
Qed.

Lemma byte_of_code (b : byte) : byte_of (code b) = b.
Proof.
  unfold byte_of, code. by rewrite N2Z.id, Byte.of_to_N.
Qed.

Lemma code_bound (b : byte) : 0 <= code b < 256.
Proof.
  unfold code. pose proof (Byte.to_N_bounded b). lia.
Qed.

Lemma runes_aux_ascii (s : bytes) : forall fuel,
  (length s <= fuel)%nat -> Forall (fun b => code b < 128) s ->
  runes_aux fuel s = map code s.
Proof.
  induction s as [|b s IH]; intros fuel Hf Hall.
  { by destruct fuel. }
  destruct fuel as [|fuel]; [cbn in Hf; lia|].
  apply Forall_cons in Hall as [Hb Hall].
  cbn [runes_aux decodeRune].
  assert ((code b <? 128) = true) as -> by (apply Z.ltb_lt; lia).
  cbn [drop skipn map]. rewrite IH; [done | cbn in Hf; lia | done].
Qed.

Lemma runes_ascii (s : bytes) :
  Forall (fun b => code b < 128) s -> runes s = map code s.
Proof. intros H. by apply runes_aux_ascii. Qed.

Lemma literalBody_escRune (u : Z) (rest : bytes) (depth : nat) :
  0 <= u <= 127 -> u ≠ 92 ->
  literalBody (escRune u ++ rest) depth =
    match literalBody rest depth with
    | Some (out, tl) => Some (byte_of u :: out, tl)
    | None => None
    end.
Proof.
  intros Hu Hne. replace u with (Z.of_nat (Z.to_nat u)) in * by lia.
  assert (Hn : (Z.to_nat u < 128)%nat) by lia.
  revert Hn Hne. generalize (Z.to_nat u) as n. clear Hu. intros n Hn Hne.
  do 128 (destruct n as [|n]; [try (exfalso; lia); reflexivity|]).
  lia.
Qed.

(** A string of ASCII bytes none of which is a backslash is written as a
    literal that reads back as the string. *)
Lemma literal_round_trip (s : bytes) :
  Forall (fun b => code b < 128 /\ b ≠ x5c) s ->
  pdfLiteralDecode (pdfStr s) = Some s.
Proof.
  intros Hall.
  assert (Hascii : Forall (fun b => code b < 128) s)
    by (eapply Forall_impl; [exact Hall | by intros b [? _]]).
  unfold pdfStr. rewrite runes_ascii by done.
  rewrite pdfStr_loop_ascii.
  2:{ apply Forall_fmap. eapply Forall_impl; [exact Hascii|]. cbn. lia. }
  change (bs "(" ++ ?x) with (x28 :: x). cbn [app pdfLiteralDecode].
  rewrite bool_decide_eq_true_2 by done.
  assert (H : literalBody (concat (map escRune (map code s)) ++ bs ")") 0
              = Some (s, [])).
  { clear Hascii. induction s as [|b s IH]; [done|].
    apply Forall_cons in Hall as [[Hb Hne] Hall].
    cbn [map concat]. rewrite <- app_assoc.
    pose proof (code_bound b).
    rewrite literalBody_escRune; [| lia |].
    - rewrite IH by done. by rewrite byte_of_code.
    - intros E. apply Hne. rewrite <- (byte_of_code b), E. done. }
  by rewrite H.
Qed.

(** A string with a rune above 127 is written as the hexadecimal string
    [<FEFF...>]: four digits for the byte order mark and four for every
    UTF-16 unit, between angle brackets. *)
Lemma hex_string_form (s : bytes) :
  Exists (fun u => 127 < u) (runes s) ->
  let units := utf16_Encode (runes s) in
  let digits := bs "FEFF" ++ concat (map fmt_04X units) in
  pdfStr s = bs "<" ++ digits ++ bs ">" /\
  length digits = (4 + 4 * length units)%nat /\
  length (pdfStr s) = (6 + 4 * length units)%nat.
Proof.
  intros Hex. cbn zeta. unfold pdfStr.
  pose proof (pdfStr_loop_nonascii (runes s) (bs "(") Hex) as Hl.
  destruct (pdfStr_loop (runes s) (bs "(")) as [buf ok]. cbn in Hl. subst ok.
  assert (Hlen : forall us, length (concat (map fmt_04X us)) = (4 * length us)%nat).
  { induction us as [|u us IH]; [done|].
    cbn [map concat]. rewrite length_app, IH. cbn [length fmt_04X]. lia. }
  split; [done|]. rewrite !length_app, Hlen. cbn [length bs]. split; [done|].
  unfold bs. cbn. lia.
Qed.

(** C5 at the input that breaks it: a backslash is ASCII, and [pdfStr]
    copies it as it is.  The string of one backslash becomes [(\)], in
    which the backslash escapes the closing parenthesis: the literal
    never ends.  The two bytes backslash and [n] become [(\n)], which
    reads back as one line feed. *)
Theorem pdfStr_backslash_not_escaped :
  pdfStr (bs "\") = bs "(\)" /\
  pdfLiteralDecode (pdfStr (bs "\")) = None /\
  pdfStr (bs "\n") = bs "(\n)" /\
  pdfLiteralDecode (pdfStr (bs "\n")) = Some [x0a].
Proof. repeat split; reflexivity. Qed.

(** ** Progress with a sink that takes every write *)

Section Accepting.

Hypothesis accepts : forall calls p, sinkWrite calls p = None.

Lemma sink_Write_accepts (s : sink) (p : bytes) :
  (sink_Write s p).2 = None.
Proof. unfold sink_Write. by rewrite accepts. Qed.

Lemma Flush_accepts (b : Writer) :
  werr b = None -> werr (Flush b).1 = None.
Proof.
  intros Hn. unfold Flush. rewrite Hn.
  destruct (Buffered b =? 0)%nat; [done|].
  pose proof (sink_Write_accepts (wr b) (wbuf b)) as H.
  destruct (sink_Write (wr b) (wbuf b)) as [[s n] err]. cbn in H. by subst err.
Qed.

Lemma Write_loop_accepts (fuel : nat) : forall b p nn,
  werr b = None -> werr (Write_loop fuel b p nn).1.1 = None.
Proof.
  induction fuel as [|fuel IH]; intros b p nn Hn; cbn [Write_loop]; [done|].
  destruct ((Available b <? length p)%nat && bool_decide (werr b = None));
    [|done].
  destruct (Buffered b =? 0)%nat.
  - pose proof (sink_Write_accepts (wr b) p) as H.
    destruct (sink_Write (wr b) p) as [[s n] err]. cbn in H. subst err.
    by apply IH.
  - apply IH. by apply Flush_accepts.
Qed.

Lemma Write_accepts (b : Writer) (p : bytes) :
  werr b = None -> (Write b p).2 = None.
Proof.
  intros Hn. unfold Write.
  pose proof (Write_loop_accepts 3 b p 0 Hn) as H.
  destruct (Write_loop 3 b p 0) as [[b1 p1] nn]. cbn in H. by rewrite H.
Qed.

Lemma write_accepts (cs : list bytes) : forall d,
  werr (writer d) = None ->
  ∃ d', write d cs = (d', None) /\ werr (writer d') = None.
Proof.
  induction cs as [|c cs IH]; intros d Hn; [by exists d|].
  rewrite write_cons.
  pose proof (Write_accepts (writer d) c Hn) as He.
  destruct (Write (writer d) c) as [[w n] err] eqn:Hw. cbn in He. subst err.
  apply Write_spec in Hw as (_ & _ & Hwerr & _).
  apply IH. done.
Qed.

Lemma startObject_accepts (d : pdfDoc) (id : Z) :
  werr (writer d) = None -> 0 < id -> xref d !! Z.to_nat id = Some 0 ->
  ∃ d', startObject d id = Some (d', None).
Proof.
  intros Hn Hid Hx. unfold startObject.
  assert ((0 <? id) = true) as -> by (apply Z.ltb_lt; lia).
  rewrite Hx. cbn [negb Z.eqb].
  destruct (write_accepts [objHeader id]
              (set_xref d (<[Z.to_nat id:=pos d]> (xref d))) Hn) as (d' & -> & _).
  by exists d'.
Qed.

Lemma xrefLoop_accepts (offs : list Z) : forall d,
  werr (writer d) = None -> Forall (fun off => 0 < off) offs ->
  ∃ d', xrefLoop d offs = Some d' /\ werr (writer d') = None.
Proof.
  induction offs as [|off offs IH]; intros d Hn Hall; [by exists d|].
  apply Forall_cons in Hall as [Hoff Hall]. cbn [xrefLoop].
  assert ((0 <? off) = true) as -> by (apply Z.ltb_lt; lia). cbn [negb].
  destruct (write_accepts [xrefLine off] d Hn) as (d1 & -> & Hn1).
  by apply IH.
Qed.

Lemma finishTail_accepts (d : pdfDoc) (catalogId docInfoId : Z) :
  werr (writer d) = None -> Forall (fun off => 0 < off) (drop 1 (xref d)) ->
  ∃ d', finishTail d catalogId docInfoId = Some (d', None).
Proof.
  intros Hn Hall. unfold finishTail.
  destruct (write_accepts (xrefHead (len (xref d))) d Hn) as (d1 & Hw1 & Hn1).
  rewrite Hw1. cbn [andThen].
  assert (Hx1 : xref d1 = xref d).
  { apply write_spec in Hw1 as (Hm & _). by apply meta_fields in Hm as (? & _). }
  rewrite Hx1.
  destruct (xrefLoop_accepts _ d1 Hn1 Hall) as (d2 & -> & Hn2).
  destruct (write_accepts
              (trailer (len (xref d)) catalogId docInfoId (pos d)
                 (md5Sum (idSeed d2 (pos d)))) d2 Hn2) as (d3 & -> & Hn3).
  cbn [andThen].
  pose proof (Flush_accepts (writer d3) Hn3) as Hf.
  destruct (Flush (writer d3)) as [w err] eqn:HF.
  apply Flush_spec in HF as (_ & He & _). cbn in Hf. rewrite Hf in He.
  subst err. by eexists.
Qed.

Lemma allPos_insert (x : list Z) (pending : nat -> Prop) (j : nat) (v : Z) :
  allPos x pending -> 0 < v ->
  allPos (<[j := v]> x) (fun i => pending i /\ i ≠ j).
Proof.
  intros H Hv i off Hi H1 Hp. destruct (decide (j = i)) as [<- | Hne].
  - pose proof (lookup_lt_Some _ _ _ Hi) as Hlt. rewrite length_insert in Hlt.
    rewrite list_lookup_insert_eq in Hi by done. by injection Hi as <-.
  - rewrite list_lookup_insert_ne in Hi by done.
    apply (H i off Hi H1). intros Hpi. apply Hp. split; [done | congruence].
Qed.

Lemma allPos_snoc (x : list Z) (pending : nat -> Prop) :
  allPos x pending -> allPos (x ++ [0]) (fun i => pending i \/ i = length x).
Proof.
  intros H i off Hi H1 Hp. apply lookup_app_Some in Hi as [Hi | [Hge Hi]].
  - apply (H i off Hi H1). tauto.
  - apply list_lookup_singleton_Some in Hi as [Hi _]. exfalso. apply Hp. lia.
Qed.

Lemma allPos_Forall (x : list Z) (pending : nat -> Prop) :
  allPos x pending -> (forall i, ¬ pending i) ->
  Forall (fun off => 0 < off) (drop 1 x).
Proof.
  intros H Hp. apply Forall_lookup. intros i off Hi.
  rewrite lookup_drop in Hi. apply (H (1 + i)%nat off Hi); [lia | apply Hp].
Qed.

Lemma finish_accepts base d out n now :
  Inv base d out n -> 0 < pagesId d ->
  xref d !! Z.to_nat (pagesId d) = Some 0 ->
  allPos (xref d) (fun i => i = Z.to_nat (pagesId d)) ->
  0 < len out ->
  len (out ++ object (pagesId d) (pageTree d) ++
       object (Z.of_nat n) (objectChunks (catalogBody (pagesId d)))) < 2 ^ 63 ->
  is_Some (resolveDate d now) ->
  ∃ d', finish d now = Some (d', None).
Proof.
  intros HI Hpid Hx0 Hpos Hout Hbound Hdate. unfold finish.
  pose proof HI as (Hn0 & _ & _ & Hlen0).
  destruct (startObject_accepts d (pagesId d) Hn0 Hpid Hx0) as (d1 & Hs1).
  rewrite Hs1. cbn [andThen].
  destruct (startObject_Inv _ _ _ _ _ _ HI Hs1) as ((Hn1 & _) & _).
  destruct (write_accepts (pageTree d) d1 Hn1) as (d2 & Hw2 & Hn2).
  rewrite Hw2. cbn [andThen].
  destruct (wholeObject_Inv base d out n d1 d2 _ _ (pageTree_ne d) HI Hs1 Hw2)
    as (HI2 & _ & Hlt & Hm2).
  apply meta_fields in Hm2 as (Hx2 & _ & Hpi2 & _ & Hc2).
  cbn in Hx2, Hpi2, Hc2.
  destruct (newId_Inv _ _ _ _ HI2) as [HI3 _].
  pose proof HI2 as (_ & _ & _ & Hlen2).
  cbn [newId fst snd] in *.
  change (pagesId (set_xref d2 (xref d2 ++ [0]))) with (pagesId d2).
  unfold len at 1. rewrite Hlen2, Hpi2.
  set (d3 := set_xref d2 (xref d2 ++ [0])) in *.
  assert (Hx3 : xref d3 !! Z.to_nat (Z.of_nat n) = Some 0).
  { rewrite Nat2Z.id. cbn. rewrite lookup_app_r by lia.
    by rewrite Hlen2, Nat.sub_diag. }
  pose proof HI3 as (Hn3 & _).
  unfold addObject.
  destruct (startObject_accepts d3 (Z.of_nat n) Hn3 ltac:(lia) Hx3)
    as (d3' & Hs3).
  rewrite Hs3. cbn [andThen].
  destruct (startObject_Inv _ _ _ _ _ _ HI3 Hs3) as ((Hn3' & _) & _).
  destruct (write_accepts (objectChunks (catalogBody (pagesId d))) d3' Hn3')
    as (d4 & Hw4 & Hn4).
  rewrite Hw4. cbn [andThen].
  assert (Hne4 : objectChunks (catalogBody (pagesId d)) ≠ []) by done.
  destruct (wholeObject_Inv base d3 _ _ d3' d4 _ _ Hne4 HI3 Hs3 Hw4)
    as (HI4 & _ & _ & Hm4).
  apply meta_fields in Hm4 as (Hx4 & _ & _ & _ & Hc4). cbn in Hx4, Hc4.
  assert (Hr : ∃ d5, resolveDate d4 now = Some d5).
  { destruct Hdate as [d5 Hd5]. unfold resolveDate in *.
    rewrite Hc4, Hc2. destruct (bool_decide (creationDate d = pdfUseNow)).
    - destruct (pdfFormatDate now); [by eexists | done].
    - by eexists. }
  destruct Hr as (d5 & Hr). rewrite Hr.
  apply resolveDate_spec in Hr as (Hw5 & Hp5 & Hx5 & _).
  assert (HI5 : Inv base d5 ((out ++ object (pagesId d) (pageTree d)) ++
                  object (Z.of_nat n)
                    (objectChunks (catalogBody (pagesId d)))) (S n)).
  { destruct HI4 as (He & [Hs Hp] & Hh & Hn).
    split; [by rewrite Hw5|]. split; [split; [by rewrite Hw5 | by rewrite Hp5]|].
    by rewrite Hx5. }
  destruct (newId_Inv _ _ _ _ HI5) as [HI6 _].
  pose proof HI5 as (_ & _ & _ & Hlen5).
  cbn [newId fst snd] in *. unfold len at 1. rewrite Hlen5.
  set (d6 := set_xref d5 (xref d5 ++ [0])) in *.
  assert (Hx6 : xref d6 !! Z.to_nat (Z.of_nat (S n)) = Some 0).
  { rewrite Nat2Z.id. cbn. rewrite lookup_app_r by lia.
    by rewrite Hlen5, Nat.sub_diag. }
  pose proof HI6 as (Hn6 & _).
  destruct (startObject_accepts d6 (Z.of_nat (S n)) Hn6 ltac:(lia) Hx6)
    as (d7 & Hs7).
  rewrite Hs7. cbn [andThen].
  destruct (startObject_Inv _ _ _ _ _ _ HI6 Hs7) as ((Hn7 & _) & _).
  destruct (write_accepts (docInfo d7) d7 Hn7) as (d8 & Hw8 & Hn8).
  rewrite Hw8. cbn [andThen].
  destruct (wholeObject_Inv base d6 _ _ d7 d8 _ _ (docInfo_ne d7) HI6 Hs7 Hw8)
    as (_ & _ & _ & Hm8).
  apply meta_fields in Hm8 as (Hx8 & _). cbn in Hx8.
  apply finishTail_accepts; [done|].
  rewrite Hx8, Hx5, Hx4. cbn [xref d3 set_xref]. rewrite Hx2.
  rewrite !len_app in Hbound.
  pose proof (len_nonneg (object (pagesId d) (pageTree d))).
  pose proof (len_nonneg (object (Z.of_nat n)
                            (objectChunks (catalogBody (pagesId d))))).
  eapply allPos_Forall.
  - apply allPos_insert; [apply allPos_snoc, allPos_insert;
      [apply allPos_snoc, allPos_insert; [exact Hpos|] |] |].
    + rewrite int_wrap_small; lia.
    + rewrite int_wrap_small; rewrite !len_app; lia.
    + rewrite int_wrap_small; rewrite !len_app; lia.
  - intros i. cbn beta. rewrite !length_insert, length_app, !length_insert.
    cbn [length]. rewrite !Nat2Z.id. lia.
Qed.

End Accepting.

(** ** [WriteTo] as a client of the writer *)

Lemma startObject_sticky d id d' r x :
  werr (writer d) = Some x -> startObject d id = Some (d', r) -> r = Some x.
Proof.
  intros Hx H. apply startObject_spec in H as (_ & _ & H).
  apply (write_sticky _ _ _ _ x) in H as [-> _]; done.
Qed.

Lemma object_sticky d id k d' r x :
  werr (writer d) = Some x ->
  andThen (startObject d id) k = Some (d', r) -> r = Some x.
Proof.
  intros Hx H. destruct (startObject d id) as [[d1 e]|] eqn:Hs; [|done].
  rewrite (startObject_sticky _ _ _ _ _ Hx Hs) in H. cbn in H.
  by injection H as _ <-.
Qed.

Lemma write_err (d d' : pdfDoc) cs e :
  cs ≠ [] -> write d cs = (d', e) -> werr (writer d') = e.
Proof.
  intros Hne H. apply write_spec in H as (_ & _ & He & _). symmetry.
  by apply He.
Qed.

Lemma addObject_err d id value d' r :
  addObject d id value = Some (d', r) -> werr (writer d') = r.
Proof.
  unfold addObject. intros H.
  destruct (startObject d id) as [[d1 [e|]]|] eqn:Hs; cbn in H; [| |done].
  - injection H as <- <-. apply startObject_spec in Hs as (_ & _ & Hs).
    by apply write_err in Hs.
  - injection H as H. by apply write_err in H.
Qed.

(** The loop over the pages makes the calls [pageOps]. *)
Lemma writePages_run base d res (ps : list page) : forall pd out n pd',
  Inv base pd out n -> writePages d pd res ps = Some (pd', None) ->
  run pd (pageOps d (Z.of_nat n) res ps) = Some (pd', None).
Proof.
  induction ps as [|p ps IH]; intros pd out n pd' HI H;
    cbn [writePages pageOps] in *; [done|].
  destruct (newId_Inv _ _ _ _ HI) as [HI1 Hid1].
  destruct (newId pd) as [pd1 contents] eqn:Hn1. cbn [fst snd] in *.
  subst contents.
  apply andThen_ok in H as (pd2 & Hs & H).
  destruct (addStream_Inv _ _ _ _ _ _ _ HI1 Hs) as (HI2 & _).
  destruct (newId_Inv _ _ _ _ HI2) as [HI3 Hid3].
  destruct (newId pd2) as [pd3 id] eqn:Hn3. cbn [fst snd] in *. subst id.
  apply andThen_ok in H as (pd4 & Hp & H).
  destruct (addPage_Inv _ _ _ _ _ _ _ _ _ HI3 Hp) as (HI4 & _).
  cbn [app run runOp]. rewrite Hn1. cbn [fst andThen]. rewrite Hs.
  cbn [andThen]. rewrite Hn3. cbn [fst andThen].
  replace (Z.of_nat n + 1) with (Z.of_nat (S n)) by lia. rewrite Hp.
  cbn [andThen].
  replace (Z.of_nat n + 2) with (Z.of_nat (S (S n))) by lia.
  by apply (IH _ _ _ _ HI4).
Qed.

(** A failure to write the resources is met again by the next object. *)
Lemma writePages_finish_sticky d res now (ps : list page) pd x pd' :
  werr (writer pd) = Some x ->
  andThen (writePages d pd res ps) (fun pd => finish pd now)
    ≠ Some (pd', None).
Proof.
  intros Hx H. destruct ps as [|p ps]; cbn [writePages andThen] in H.
  - unfold finish in H. by apply (object_sticky _ _ _ _ _ x) in H.
  - cbn [newId fst snd] in H. unfold addStream in H.
    destruct (andThen (startObject _ _) _) as [[d1 r]|] eqn:Hs; [|done].
    apply (object_sticky _ _ _ _ _ x) in Hs; [|done]. subst r. done.
Qed.

(** [WriteTo] without error is a generation: the resources, then for
    each page its content stream and its page object. *)
Lemma generate_generation d w now pd :
  generate d w now = Some (pd, None) ->
  generation w (info d)
    ([CallNewId; CallAddObject 2 procSet] ++ pageOps d 3 2 (doc_pages d))
    now = Some (pd, None).
Proof.
  unfold generate, generation. intros H.
  destruct (newPdfDoc w (info d)) as [pd0 e0] eqn:Hnew.
  apply andThen_ok in H as (pd0' & [= <- ->] & H).
  cbn [andThen].
  destruct (newPdfDoc_Inv _ _ _ Hnew) as (HI0 & Hx0 & _).
  destruct (newId_Inv _ _ _ _ HI0) as [HI1 Hid1].
  destruct (newId pd0) as [pd1 resources] eqn:Hn1. cbn [fst snd] in *.
  subst resources.
  destruct (addObject pd1 (Z.of_nat 2) procSet) as [[pd2 e2]|] eqn:Ha;
    [|done].
  destruct e2 as [x|].
  { exfalso. cut (werr (writer pd2) = Some x).
    { intros Hx. by apply (writePages_finish_sticky _ _ _ _ _ _ _ Hx) in H. }
    by apply addObject_err in Ha. }
  apply andThen_ok in H as (pd3 & Hwp & Hfin).
  destruct (addObject_Inv _ _ _ _ _ _ _ HI1 Ha) as (HI2 & _).
  apply (writePages_run _ _ _ _ _ _ _ _ HI2) in Hwp.
  cbn [app run runOp]. rewrite Hn1. cbn [fst andThen].
  change 2 with (Z.of_nat 2). rewrite Ha. cbn [andThen].
  change 3 with (Z.of_nat 3). rewrite Hwp. cbn [andThen]. exact Hfin.
Qed.

(** ** A document without pages *)

Lemma WriteTo_no_pages d w now :
  doc_pages d = [] -> frozen d = false ->
  PrimFloat.eqb (width d) PrimFloat.zero = true ->
  PrimFloat.eqb (height d) PrimFloat.zero = true ->
  let d' := {| width := dfltWidth; height := dfltHeight;
               doc_pages := [defaultPage]; frozen := true;
               info := info d |} in
  WriteTo d w now =
    {| w_doc := d';
       w_result := match generate d' w now with
                   | None => None
                   | Some (pd, err) => Some (wr (writer pd), pos pd, err)
                   end |}.
Proof.
  intros Hp Hf Hw Hh. unfold WriteTo, autoPageSize. rewrite Hw, Hh.
  cbn [andb doc_pages]. rewrite Hp. cbn [length Nat.eqb].
  unfold AddPage, AddPageScaled. cbn [frozen]. rewrite Hf.
  change (PrimFloat.leb (f64 1) PrimFloat.zero) with false.
  cbn [width height doc_pages frozen info app freeze]. reflexivity.
Qed.

Lemma WriteTo_frozen_no_pages d w now :
  doc_pages d = [] -> frozen d = true ->
  w_result (WriteTo d w now) = Some (w, 0, Some errFrozen).
Proof.
  intros Hp Hf. unfold WriteTo.
  assert (Hp' : doc_pages (autoPageSize d) = [])
    by (unfold autoPageSize; by destruct (_ && _)).
  assert (Hf' : frozen (autoPageSize d) = true)
    by (unfold autoPageSize; by destruct (_ && _)).
  rewrite Hp'. cbn [length Nat.eqb]. unfold AddPage, AddPageScaled.
  rewrite Hf'. done.
Qed.

(** The colour of the muffler is set, for strokes and for fills, on one
    line of the page's content. *)
Lemma muffler_in_content d p :
  let ci := makeColorInfo (muffler p) in
  occursIn (println [pdfCode ci false; pdfCode ci true]) (pageContent d p).
Proof.
  cbn zeta. unfold pageContent.
  destruct (transformCode (width d) (height d) (scale p)) as [cod l].
  unfold essentialCode.
  exists (println [bs "q"; cod] ++
          println [bs "0 G 0 g 1 j 1 J 0.01389 w"] ++ println [eoBodyCode] ++
          eoEyesCode ++ println [eoMouthCode] ++ println [eoHatCode] ++
          println [eoArmsCode] ++ eoButtonsCode ++ eoSnowCode),
         (println [eoMufflerCode] ++ println [bs "Q"]).
  by rewrite <- !app_assoc.
Qed.

(** C8, amended: [WriteTo] on a document without pages and without a page
    size that returns without error leaves the document with the one page
    [AddPage(dfltMuffler)] makes and with the default size, 210 mm by
    294 mm in points, which the media box shows as 595.276 by 833.386.
    The muffler's colour in the page content is red, [1 0 0].  The output
    is the header, the resources (object 2), the content stream (object
    3), one page object (object 4, the only one with [/Type/Page]), the
    page tree (object 1) with [/Count 1] and the one reference [4 0 R],
    the catalog, the document information, the cross-reference table of
    seven entries and the trailer. *)
Theorem no_pages_one_default_page d w now s n :
  doc_pages d = [] ->
  PrimFloat.eqb (width d) PrimFloat.zero = true ->
  PrimFloat.eqb (height d) PrimFloat.zero = true ->
  w_result (WriteTo d w now) = Some (s, n, None) ->
  let d' := w_doc (WriteTo d w now) in
  doc_pages d' = [defaultPage] /\
  muffler defaultPage = dfltMuffler /\
  width d' = dfltWidth /\ height d' = dfltHeight /\
  mediaBox d' = bs "/MediaBox[0 0 595.276 833.386]" /\
  occursIn (bs "1 0 0 RG 1 0 0 rg" ++ [NL]) (pageContent d' defaultPage) /\
  pageChunks 3 2 1 (mediaBox d') =
    [bs "<</Type/Page/Contents 3 0 R/Resources 2 0 R/Parent 1 0 R" ++ [NL];
     bs "/MediaBox[0 0 595.276 833.386]";
     bs ">>" ++ [NL] ++ bs "endobj" ++ [NL]] /\
  pageTreeOf [4] =
    [bs "<</Type/Pages/Count 1/Kids" ++ [NL]; bs "[4 0 R]";
     bs ">>" ++ [NL] ++ bs "endobj" ++ [NL]] /\
  ∃ information offsets xrefPos digest,
    length offsets = 7%nat /\
    content s =
      content w ++
      concat (pdfHeader (infoGet (info d) "version" dfltPdfVersion)) ++
      object 2 (objectChunks procSet) ++
      object 3 (streamChunks (pageContent d' defaultPage)) ++
      object 4 (pageChunks 3 2 1 (mediaBox d')) ++
      object 1 (pageTreeOf [4]) ++
      object 5 (objectChunks (catalogBody 1)) ++
      object 6 information ++
      xrefTable offsets ++
      concat (trailer 7 5 6 xrefPos digest).
Proof.
  intros Hp Hw Hh Hres.
  destruct (frozen d) eqn:Hf.
  { by rewrite (WriteTo_frozen_no_pages d w now Hp Hf) in Hres. }
  rewrite (WriteTo_no_pages d w now Hp Hf Hw Hh) in *. cbn zeta in *.
  cbn [w_doc w_result doc_pages width height] in *.
  set (d' := Build_Doc _ _ _ _ _) in *.
  assert (Hmb : mediaBox d' = bs "/MediaBox[0 0 595.276 833.386]")
    by (vm_compute; reflexivity).
  split; [done|]. split; [done|]. split; [done|]. split; [done|].
  split; [exact Hmb|].
  split.
  { apply (muffler_in_content d' defaultPage). }
  split; [rewrite Hmb; vm_compute; reflexivity|].
  split; [vm_compute; reflexivity|].
  destruct (generate d' w now) as [[pd [e|]]|] eqn:Hg;
    [discriminate Hres| |discriminate Hres].
  injection Hres as <- <-.
  apply generate_generation in Hg.
  set (ops := [CallNewId; CallAddObject 2 procSet; CallNewId;
               CallAddStream 3 (pageContent d' defaultPage); CallNewId;
               CallAddPage 4 3 2 (mediaBox d')]).
  change (generation w (info d) ops now = Some (pd, None)) in Hg.
  destruct (generation_output _ _ _ _ _ Hg) as (Hcont & _ & _ & Hlen & _).
  cbn zeta in Hcont, Hlen.
  change (allocated ops) with 3%nat in Hcont, Hlen.
  change (pagesOf ops) with [4] in Hcont.
  change (runBytes 1 ops) with
    ([] ++ object 2 (objectChunks procSet) ++ [] ++
     object 3 (streamChunks (pageContent d' defaultPage)) ++ [] ++
     object 4 (pageChunks 3 2 1 (mediaBox d')) ++ []) in Hcont.
  cbn [app Nat.add] in Hcont, Hlen.
  change (Z.of_nat 5) with 5 in Hcont. change (Z.of_nat 6) with 6 in Hcont.
  unfold len at 1 in Hcont. rewrite Hlen in Hcont.
  change (Z.of_nat 7) with 7 in Hcont.
  rewrite app_nil_r, <- !app_assoc in Hcont.
  exists (docInfo pd), (xref pd). eexists. eexists.
  split; [exact Hlen|]. exact Hcont.
Qed.

(** ** The page size and serializing again *)

Lemma leb_zero_eqb (x : float) :
  PrimFloat.leb x PrimFloat.zero = false ->
  PrimFloat.eqb x PrimFloat.zero = false.
Proof.
  rewrite FloatAxioms.leb_spec, FloatAxioms.eqb_spec.
  change (Prim2SF PrimFloat.zero) with (S754_zero false).
  destruct (Prim2SF x) as [s|s| |s m e]; try done.
  all: destruct s; done.
Qed.

Lemma autoPageSize_set (d : Doc) :
  PrimFloat.eqb (width (autoPageSize d)) PrimFloat.zero &&
  PrimFloat.eqb (height (autoPageSize d)) PrimFloat.zero = false.
Proof.
  unfold autoPageSize.
  destruct (PrimFloat.eqb (width d) PrimFloat.zero &&
            PrimFloat.eqb (height d) PrimFloat.zero) eqn:E; [|exact E].
  reflexivity.
Qed.

Lemma autoPageSize_keeps (d : Doc) :
  PrimFloat.eqb (width d) PrimFloat.zero &&
  PrimFloat.eqb (height d) PrimFloat.zero = false ->
  autoPageSize d = d.
Proof. intros E. unfold autoPageSize. by rewrite E. Qed.

(** X1: a size that [SetPageSize] has taken is the size [PageSize]
    returns, and [PageSize] leaves the document as it is: the default
    size stands in only for a document whose width and height are both
    zero, and [SetPageSize] takes no zero. *)
Theorem PageSize_after_SetPageSize (d d' : Doc) (w h : float) :
  SetPageSize d w h = (d', None) ->
  PageSize d' = (d', (w, h)) /\ doc_pages d' = doc_pages d /\
  info d' = info d.
Proof.
  unfold SetPageSize. destruct (frozen d); [done|].
  destruct (PrimFloat.leb w PrimFloat.zero) eqn:Hw; [done|].
  destruct (PrimFloat.leb h PrimFloat.zero) eqn:Hh; [done|].
  cbn [orb]. intros [= <-]. split; [|done].
  unfold PageSize. rewrite autoPageSize_keeps; [done|].
  cbn [width height]. by rewrite (leb_zero_eqb w Hw).
Qed.

Lemma autoPageSize_same (d : Doc) :
  frozen (autoPageSize d) = frozen d /\
  doc_pages (autoPageSize d) = doc_pages d /\
  info (autoPageSize d) = info d.
Proof.
  unfold autoPageSize.
  destruct (PrimFloat.eqb (width d) PrimFloat.zero &&
            PrimFloat.eqb (height d) PrimFloat.zero); done.
Qed.

Lemma WriteTo_auto (d : Doc) (w : sink) (now : Time) :
  WriteTo (autoPageSize d) w now = WriteTo d w now.
Proof.
  unfold WriteTo. by rewrite (autoPageSize_keeps _ (autoPageSize_set d)).
Qed.

(** What [WriteTo] does before it generates: it stops at a frozen
    document without pages, or settles the document that is written. *)
Lemma WriteTo_cases (d : Doc) :
  (frozen d = true /\ doc_pages d = [] /\
   ∀ w now, WriteTo d w now =
     {| w_doc := autoPageSize d;
        w_result := Some (w, 0, Some errFrozen) |}) \/
  (∀ w now, WriteTo d w now =
     {| w_doc := settled d;
        w_result := match generate (settled d) w now with
                    | None => None
                    | Some (pd, err) => Some (wr (writer pd), pos pd, err)
                    end |}).
Proof.
  unfold WriteTo, settled.
  destruct (autoPageSize_same d) as (Hf & Hpg & Hinf). rewrite Hpg.
  destruct (doc_pages d) as [|p ps] eqn:Hp; cbn [length Nat.eqb].
  - unfold AddPage, AddPageScaled. rewrite Hf.
    destruct (frozen d).
    + left. done.
    + right. change (PrimFloat.leb (f64 1) PrimFloat.zero) with false.
      intros w now. unfold freeze. cbn [width height doc_pages info].
      rewrite Hpg, Hinf. reflexivity.
  - right. intros w now. unfold freeze. by rewrite Hpg, Hinf.
Qed.

Lemma settled_set (d : Doc) :
  PrimFloat.eqb (width (settled d)) PrimFloat.zero &&
  PrimFloat.eqb (height (settled d)) PrimFloat.zero = false.
Proof. apply autoPageSize_set. Qed.

Lemma settled_pages (d : Doc) : doc_pages (settled d) ≠ [].
Proof. unfold settled. cbn. by destruct (doc_pages d). Qed.

(** X2: [WriteTo] on the document a [WriteTo] has left behind does what
    it would have done on the document before: the size and the default
    page are settled by the first call, and the second adds nothing. *)
Theorem WriteTo_again (d : Doc) (w w2 : sink) (now now2 : Time) :
  WriteTo (w_doc (WriteTo d w now)) w2 now2 = WriteTo d w2 now2.
Proof.
  destruct (WriteTo_cases d) as [(_ & _ & H)|H].
  - rewrite (H w now). cbn [w_doc]. apply WriteTo_auto.
  - rewrite (H w now), (H w2 now2). cbn [w_doc].
    unfold WriteTo. rewrite autoPageSize_keeps by apply settled_set.
    unfold settled. by destruct (doc_pages d).
Qed.

(** ** Properties that every step of a generation keeps *)

Section Keeps.

Variable P : pdfDoc -> Prop.
Hypothesis P_write : forall d cs, P d -> P (write d cs).1.
Hypothesis P_flush :
  forall d, P d -> P (set_writer_pos d (Flush (writer d)).1 (pos d)).
Hypothesis P_xref : forall d x, P d -> P (set_xref d x).
Hypothesis P_pages : forall d x, P d -> P (set_pages d x).
Hypothesis P_date : forall d s, P d -> P (set_creationDate d s).

Lemma andThen_keeps (o : outcome) k :
  keeps P o -> (forall d1, P d1 -> keeps P (k d1)) -> keeps P (andThen o k).
Proof.
  intros Ho Hk d' r H. destruct o as [[d1 [e|]]|]; cbn in H; [| |done].
  - injection H as <- <-. by apply (Ho d1 (Some e)).
  - apply (Hk d1 (Ho d1 None eq_refl) d' r H).
Qed.

Lemma write_keeps d cs : P d -> keeps P (Some (write d cs)).
Proof.
  intros HP d' r [= H]. pose proof (P_write d cs HP) as Hw.
  by rewrite H in Hw.
Qed.

Lemma startObject_keeps d id : P d -> keeps P (startObject d id).
Proof.
  intros HP d' r H. apply startObject_spec in H as (_ & _ & H).
  apply (write_keeps (set_xref d (<[Z.to_nat id := pos d]> (xref d)))
           [objHeader id] (P_xref d _ HP) d' r).
  by rewrite H.
Qed.

Lemma addObject_keeps d id value : P d -> keeps P (addObject d id value).
Proof.
  intros HP. apply andThen_keeps; [by apply startObject_keeps|].
  intros d1 H1. by apply write_keeps.
Qed.

Lemma addStream_keeps d id data : P d -> keeps P (addStream d id data).
Proof.
  intros HP. apply andThen_keeps; [by apply startObject_keeps|].
  intros d1 H1. by apply write_keeps.
Qed.

Lemma addPage_keeps d id contents resources chunk :
  P d -> keeps P (addPage d id contents resources chunk).
Proof.
  intros HP. apply andThen_keeps; [by apply startObject_keeps|].
  intros d1 H1. apply write_keeps. by apply P_pages.
Qed.

Lemma xrefLoop_keeps (offs : list Z) : forall d d',
  P d -> xrefLoop d offs = Some d' -> P d'.
Proof.
  induction offs as [|off offs IH]; intros d d' HP; cbn [xrefLoop].
  - by intros [= <-].
  - destruct (negb (0 <? off)); [done|]. apply IH. by apply P_write.
Qed.

Lemma finishTail_keeps d catalogId docInfoId :
  P d -> keeps P (finishTail d catalogId docInfoId).
Proof.
  intros HP. unfold finishTail. apply andThen_keeps; [by apply write_keeps|].
  intros d1 H1.
  destruct (xrefLoop d1 (drop 1 (xref d1))) as [d2|] eqn:Hl; [|done].
  pose proof (xrefLoop_keeps _ _ _ H1 Hl) as H2.
  apply andThen_keeps; [by apply write_keeps|].
  intros d3 H3 d' r. pose proof (P_flush d3 H3) as Hf.
  destruct (Flush (writer d3)) as [w err]. by intros [= <- <-].
Qed.

Lemma finish_keeps d now : P d -> keeps P (finish d now).
Proof.
  intros HP. unfold finish.
  apply andThen_keeps; [by apply startObject_keeps|]. intros d1 H1.
  apply andThen_keeps; [by apply write_keeps|]. intros d2 H2.
  cbn [newId fst snd].
  apply andThen_keeps; [by apply addObject_keeps, P_xref|]. intros d4 H4.
  destruct (resolveDate d4 now) as [d5|] eqn:Hr; [|done].
  assert (H5 : P d5).
  { unfold resolveDate in Hr.
    destruct (bool_decide (creationDate d4 = pdfUseNow)).
    - destruct (pdfFormatDate now) as [s|]; [|done].
      injection Hr as <-. by apply P_date.
    - by injection Hr as <-. }
  apply andThen_keeps; [by apply startObject_keeps, P_xref|]. intros d7 H7.
  apply andThen_keeps; [by apply write_keeps|]. intros d8 H8.
  by apply finishTail_keeps.
Qed.

Lemma writePages_keeps d resources (ps : list page) : forall pd,
  P pd -> keeps P (writePages d pd resources ps).
Proof.
  induction ps as [|p ps IH]; intros pd HP; cbn [writePages].
  - by intros d' r [= <- <-].
  - cbn [newId fst snd].
    apply andThen_keeps; [by apply addStream_keeps, P_xref|]. intros d1 H1.
    apply andThen_keeps; [by apply addPage_keeps, P_xref|]. intros d2 H2.
    by apply IH.
Qed.

Lemma generate_keeps d w now :
  P (newPdfDoc w (info d)).1 -> keeps P (generate d w now).
Proof.
  intros HP. unfold generate.
  apply andThen_keeps.
  { intros d' r [= H]. by rewrite H in HP. }
  intros pd Hpd. cbn [newId fst snd].
  pose proof (addObject_keeps (set_xref pd (xref pd ++ [0])) (len (xref pd))
                procSet (P_xref _ _ Hpd)) as Ha.
  destruct (addObject _ _ procSet) as [[pd1 e1]|]; [|done].
  apply andThen_keeps; [by apply writePages_keeps, (Ha pd1 e1)|].
  intros pd2 H2. by apply finish_keeps.
Qed.

End Keeps.

(** ** The count that [WriteTo] returns *)

Lemma counted_write base d cs : counted base d -> counted base (write d cs).1.
Proof.
  intros HP. destruct (write d cs) as [d' e] eqn:H. cbn. intros Hn.
  destruct (HP (write_werr_back _ _ _ _ H Hn)) as [out Htr].
  assert (He : e = None).
  { destruct cs as [|c cs]; [by injection H as _ <-|].
    by apply (write_ok_of_after d d' (c :: cs)). }
  subst e. exists (out ++ concat cs).
  by apply (write_tracked base d d' out cs).
Qed.

Lemma counted_flush base d :
  counted base d ->
  counted base (set_writer_pos d (Flush (writer d)).1 (pos d)).
Proof.
  intros HP. destruct (Flush (writer d)) as [b e] eqn:Hf. cbn. intros Hn.
  apply Flush_spec in Hf as (Hst & He & _ & _ & Hsticky).
  assert (H0 : werr (writer d) = None).
  { destruct (werr (writer d)) as [x|] eqn:Hx; [|done].
    rewrite (Hsticky x eq_refl) in Hn. cbn in Hn. congruence. }
  destruct (HP H0) as [out [Hs Hp]]. exists out.
  split; [cbn [writer set_writer_pos]; by rewrite Hst | exact Hp].
Qed.

Lemma counted_new w inf : counted (content w) (newPdfDoc w inf).1.
Proof.
  unfold newPdfDoc. cbn [newId fst snd]. apply counted_write.
  intros _. exists []. split; cbn; [|done].
  unfold stream. cbn. done.
Qed.

Lemma generate_counted d w now pd r :
  generate d w now = Some (pd, r) -> counted (content w) pd.
Proof.
  apply (generate_keeps (counted (content w))).
  - apply counted_write.
  - apply counted_flush.
  - intros d0 x H. exact H.
  - intros d0 x H. exact H.
  - intros d0 x H. exact H.
  - apply counted_new.
Qed.

(** X3: the count [WriteTo] returns without an error is the number of
    bytes the sink has taken during the call, as far as an [int] counts:
    nothing is left in the buffer, and the position has counted every
    byte that went through it. *)
Theorem WriteTo_count d w now s n :
  w_result (WriteTo d w now) = Some (s, n, None) ->
  ∃ out, content s = content w ++ out /\ n = int_wrap (len out) /\
         (len out < 2 ^ 63 -> n = len out).
Proof.
  intros H.
  destruct (WriteTo_cases d) as [(_ & _ & Hc)|Hc];
    rewrite (Hc w now) in H; cbn [w_result] in H; [done|].
  destruct (generate (settled d) w now) as [[pd r]|] eqn:Hg; [|done].
  injection H as <- <- ->.
  pose proof (generate_counted _ _ _ _ _ Hg) as Hcount.
  destruct (generate_reports _ _ _ _ _ Hg) as [_ Hr].
  destruct (Hcount (eq_sym Hr)) as [out [Hs Hp]].
  apply generate_generation in Hg.
  destruct (generation_output _ _ _ _ _ Hg) as (_ & Hbuf & _).
  unfold stream in Hs. rewrite Hbuf, app_nil_r in Hs.
  exists out. split; [done|]. split; [done|].
  intros Hlt. rewrite Hp. apply int_wrap_small.
  pose proof (len_nonneg out). lia.
Qed.

(** ** Where an error comes from *)

Lemma sink_Write_Caused c0 (b : Writer) p s n err :
  Logged c0 b -> sink_Write (wr b) p = (s, n, err) ->
  forall buf sz, Caused c0 {| wr := s; wbuf := buf; wsize := sz; werr := err |}.
Proof.
  intros (log & Hc & _) Hw buf sz e He. cbn in He. subst err.
  apply sink_Write_spec in Hw as (_ & _ & _ & Hcalls & Herr).
  exists (log ++ [p]), (length log). cbn [wr].
  rewrite Hcalls, Hc, <- app_assoc. split; [done|].
  rewrite Hc in Herr.
  destruct (sinkWrite (c0 ++ log) p) as [[m e']|] eqn:Hs; [|done].
  injection Herr as ->. exists p, m.
  rewrite take_app_length. split; [|done].
  rewrite lookup_app_r by lia. by rewrite Nat.sub_diag.
Qed.

Lemma Flush_Caused c0 (b : Writer) :
  Logged c0 b -> Caused c0 b -> Caused c0 (Flush b).1.
Proof.
  intros HL HC. unfold Flush. destruct (werr b) as [x|] eqn:Hx; [done|].
  destruct (Buffered b =? 0)%nat; [done|].
  destruct (sink_Write (wr b) (wbuf b)) as [[s n] err] eqn:Hs.
  pose proof (sink_Write_Caused c0 b _ _ _ _ HL Hs) as H.
  destruct err as [e|]; cbn; apply H.
Qed.

Lemma Write_loop_Caused c0 (fuel : nat) : forall b p nn,
  Logged c0 b -> Caused c0 b -> Caused c0 (Write_loop fuel b p nn).1.1.
Proof.
  induction fuel as [|fuel IH]; intros b p nn HL HC; cbn [Write_loop];
    [done|].
  destruct ((Available b <? length p)%nat && bool_decide (werr b = None))
    eqn:Hc; [|done].
  apply andb_true_iff in Hc as [_ Hn]. apply bool_decide_eq_true in Hn.
  destruct (Buffered b =? 0)%nat.
  - destruct (sink_Write (wr b) p) as [[s n] err] eqn:Hs.
    apply IH.
    + by apply (sink_Write_Logged c0 b p s n err).
    + by apply (sink_Write_Caused c0 b p s n err).
  - apply IH.
    + apply Flush_Logged. exact HL.
    + apply Flush_Caused; [exact HL | exact HC].
Qed.

Lemma Write_Caused c0 (b : Writer) p :
  Logged c0 b -> Caused c0 b -> Caused c0 (Write b p).1.1.
Proof.
  intros HL HC. unfold Write.
  pose proof (Write_loop_Caused c0 3 b p 0 HL HC) as H.
  destruct (Write_loop 3 b p 0) as [[b1 p1] nn]. cbn in H.
  destruct (werr b1) as [x|] eqn:Hx; cbn; [done|].
  intros e He. done.
Qed.

Lemma write_Caused c0 (cs : list bytes) : forall d,
  Logged c0 (writer d) /\ Caused c0 (writer d) ->
  Logged c0 (writer (write d cs).1) /\ Caused c0 (writer (write d cs).1).
Proof.
  intros d [HL HC]. split; [by apply write_Logged|]. revert d HL HC.
  induction cs as [|c cs IH]; intros d HL HC; [done|]. rewrite write_cons.
  pose proof (Write_Logged c0 (writer d) c HL) as H1.
  pose proof (Write_Caused c0 (writer d) c HL HC) as H2.
  destruct (Write (writer d) c) as [[w n] err]. cbn in H1, H2.
  destruct err as [x|]; cbn; [done|]. by apply IH.
Qed.

Lemma generate_Caused d w now pd r :
  generate d w now = Some (pd, r) -> Caused (calls w) (writer pd).
Proof.
  intros H.
  apply (generate_keeps
           (fun d => Logged (calls w) (writer d) /\ Caused (calls w) (writer d)))
    in H; [by destruct H| | | | | |].
  - intros d0 cs. apply write_Caused.
  - intros d0 [HL HC]. cbn [writer set_writer_pos].
    split; [by apply Flush_Logged | by apply Flush_Caused].
  - intros d0 x H0. exact H0.
  - intros d0 x H0. exact H0.
  - intros d0 x H0. exact H0.
  - unfold newPdfDoc. cbn [newId fst snd]. apply write_Caused.
    split; [apply NewWriter_Logged | by intros e].
Qed.

(** X4: an error that [WriteTo] returns is the error of a frozen document
    without pages, and then nothing was written, or it is the answer of
    the sink to the last call made to it: [WriteTo] has no other error. *)
Theorem WriteTo_error_cause d w now s n e :
  w_result (WriteTo d w now) = Some (s, n, Some e) ->
  (e = errFrozen /\ frozen d = true /\ doc_pages d = [] /\ s = w /\ n = 0) \/
  (∃ log k, calls s = calls w ++ log /\ failedAt (calls w) log k e /\
            S k = length log).
Proof.
  intros H.
  destruct (WriteTo_cases d) as [(Hf & Hp & Hc)|Hc];
    rewrite (Hc w now) in H; cbn [w_result] in H.
  { left. by injection H as <- <- <-. }
  right.
  destruct (generate (settled d) w now) as [[pd r]|] eqn:Hg; [|done].
  injection H as <- <- ->.
  destruct (generate_reports _ _ _ _ _ Hg) as [(log & Hcalls & Hsurf) Hr].
  destruct (generate_Caused _ _ _ _ _ Hg e (eq_sym Hr))
    as (log' & k & Hcalls' & Hfail).
  assert (log' = log) as ->.
  { rewrite Hcalls in Hcalls'. by apply app_inv_head in Hcalls'. }
  exists log, k. split; [done|]. split; [done|].
  by destruct (Hsurf k e Hfail).
Qed.

(** ** The layout of the file *)






Lemma pageIds_length (k : nat) : forall next, length (pageIds next k) = k.
Proof. induction k as [|k IH]; intros next; cbn; [done|]. by rewrite IH. Qed.


(** ** Objects *)

(** X7: an identifier is used for one object.  After an object has been
    added under [id] (at an offset that is not zero, as every offset
    after the header is), starting another object under the same [id]
    fails the check of [pdfSure]: [startObject] and with it [addObject],
    [addStream] and [addPage] panic. *)
Theorem used_id_panics base d out n d' id value :
  Inv base d out n -> int_wrap (len out) ≠ 0 ->
  addObject d id value = Some (d', None) ->
  startObject d' id = None /\
  (forall v, addObject d' id v = None /\ addStream d' id v = None) /\
  (forall c r chunk, addPage d' id c r chunk = None).
Proof.
  intros HI Hne H.
  destruct (addObject_Inv _ _ _ _ _ _ _ HI H) as (_ & Hid & Hlt & Hm).
  apply meta_fields in Hm as (Hx & _). cbn [xref set_xref] in Hx.
  destruct HI as (_ & _ & _ & Hn).
  assert (Hs : startObject d' id = None).
  { unfold startObject. destruct (0 <? id); [|done]. cbn [negb].
    rewrite Hx, list_lookup_insert_eq by lia.
    destruct (int_wrap (len out) =? 0) eqn:E; [|done].
    apply Z.eqb_eq in E. done. }
  split; [exact Hs|]. unfold addObject, addStream, addPage. rewrite Hs.
  done.
Qed.



(** ** Reading dates *)

Lemma sameTime_eq (t u : Time) : sameTime t u = true -> t = u.
Proof.
  unfold sameTime. rewrite !andb_true_iff, !Z.eqb_eq.
  destruct t, u. cbn. intros [[[[[[[? ?] ?] ?] ?] ?] ?] ?]. congruence.
Qed.

(** X9: the prefix [D:] of a date is optional.  A string of two bytes or
    more that does not begin with [D:] is read as the same string with
    [D:] before it is: the same time, or the format error for both (the
    error quotes the string as it was given). *)
Theorem pdfParseDate_prefix_optional (s : bytes) :
  (2 <= length s)%nat -> take 2 s ≠ bs "D:" ->
  pdfParseDate (bs "D:" ++ s) =
    match pdfParseDate s with
    | Some (inr _) => Some (inr (ErrDateFormat (bs "D:" ++ s)))
    | r => r
    end.
Proof.
  intros Hlen Hne. unfold pdfParseDate.
  replace (length (bs "D:" ++ s) <? 2)%nat with false
    by (symmetry; apply Nat.ltb_ge; rewrite length_app; cbn; lia).
  replace (length s <? 2)%nat with false
    by (symmetry; apply Nat.ltb_ge; lia).
  change (take 2 (bs "D:" ++ s)) with (bs "D:").
  change (drop 2 (bs "D:" ++ s)) with s.
  rewrite bool_decide_eq_true_2 by done.
  rewrite (bool_decide_eq_false_2 _ Hne).
  destruct (length s =? 15)%nat.
  { by destruct (time_Parse s). }
  destruct (existsb (Nat.eqb (length s)) [4; 6; 8; 10; 12; 14; 18; 21]%nat);
    [|done].
  destruct (negb _ || negb _); [done|].
  by destruct (time_Parse _).
Qed.

(** X10: a date of four digits alone, a year from 0000 to 9999, is the
    first instant of that year in UTC: the month, the day, the time and
    the zone are taken from the template. *)
Theorem pdfParseDate_year_only (y : Z) :
  0 <= y <= 9999 -> pdfParseDate (fmt_0d 4 y) = Some (inl (newYear y)).
Proof.
  intros Hy.
  assert (H : yearOnlyOk y = true).
  { apply (forallb_range yearOnlyOk (Z.to_nat 10000)); [|lia].
    vm_compute. reflexivity. }
  unfold yearOnlyOk in H.
  destruct (pdfParseDate (fmt_0d 4 y)) as [[t|e]|]; try discriminate H.
  by rewrite (sameTime_eq _ _ H).
Qed.

(** ** Colours *)

Lemma operandOk_255 (x : Z) : 0 <= x < 256 -> operandOk 255 x = true.
Proof.
  apply (forallb_range (operandOk 255) 256). vm_compute. reflexivity.
Qed.

Lemma forallb_zrange (f : Z -> bool) (n : nat) : forall start x,
  forallb f (zrange n start) = true ->
  start <= x < start + Z.of_nat n -> f x = true.
Proof.
  induction n as [|n IH]; intros start x H Hx; [lia|].
  cbn [zrange forallb] in H. apply andb_true_iff in H as [H0 H].
  destruct (Z.eq_dec x start) as [->|Hne]; [done|].
  apply (IH (start + 1)); [done | lia].
Qed.

Lemma operandOk_65535 (x : Z) : 0 <= x < 65536 -> operandOk 65535 x = true.
Proof.
  intros Hx.
  apply (forallb_zrange (operandOk 65535) (Z.to_nat 65536) 0); [|lia].
  vm_compute. reflexivity.
Qed.

Lemma operandOk_nrgba (c a : Z) :
  0 <= c < 256 -> 0 <= a < 256 -> operandOk 65535 (nrgbaChannel c a) = true.
Proof.
  intros Hc Ha.
  assert (H : nrgbaOk c = true).
  { apply (forallb_range nrgbaOk 256); [|lia]. vm_compute. reflexivity. }
  unfold nrgbaOk in H.
  by apply (forallb_range (fun a => operandOk 65535 (nrgbaChannel c a)) 256).
Qed.

(** X11: for a colour whose channels are in the range of their types,
    every operand [makeColorInfo] computes lies between 0 and 1, and the
    operator comes with the number of operands it takes: one for [g],
    four for [k], three for [rg].  An [NRGBA] colour is used with its
    channels multiplied by alpha. *)
Theorem colour_operands_in_range (c : Color) :
  validColor c ->
  let ci := makeColorInfo c in
  Forall (fun p => unitInterval p = true) (params ci) /\
  ((op ci = bs "g" /\ length (params ci) = 1%nat) \/
   (op ci = bs "k" /\ length (params ci) = 4%nat) \/
   (op ci = bs "rg" /\ length (params ci) = 3%nat)).
Proof.
  intros Hv. cbn zeta.
  destruct c as [y|y|c m y k|r g b a|r g b a]; cbn [validColor] in Hv;
    cbn [makeColorInfo params op makeParams map length].
  - split; [|by left]. repeat constructor. by apply operandOk_255.
  - split; [|by left]. repeat constructor. by apply operandOk_65535.
  - destruct Hv as (? & ? & ? & ?). split; [|right; by left].
    repeat constructor; by apply operandOk_255.
  - destruct Hv as (? & ? & ? & ?). split; [|right; by right].
    repeat constructor; by apply operandOk_nrgba.
  - destruct Hv as (? & ? & ?). split; [|right; by right].
    repeat constructor; by apply operandOk_65535.
Qed.

(** ** The picture as a format *)

Lemma no_percent_bool (s : bytes) :
  forallb (fun b => bool_decide (b ≠ x25)) s = true -> x25 ∉ s.
Proof.
  intros H Hin. rewrite forallb_forall in H.
  apply list_elem_of_In in Hin. specialize (H _ Hin).
  by apply bool_decide_eq_true in H.
Qed.

Lemma digit_mod10_no_percent (n : Z) : digit (n mod 10) ≠ x25.
Proof.
  pose proof (Z.mod_pos_bound n 10 ltac:(lia)) as H.
  assert (n mod 10 = 0 \/ n mod 10 = 1 \/ n mod 10 = 2 \/ n mod 10 = 3 \/
          n mod 10 = 4 \/ n mod 10 = 5 \/ n mod 10 = 6 \/ n mod 10 = 7 \/
          n mod 10 = 8 \/ n mod 10 = 9) as Hc by lia.
  destruct Hc as [-> | [-> | [-> | [-> | [-> | [-> | [-> | [-> | [-> | ->]]]]]]]]];
    discriminate.
Qed.

Lemma udec_aux_no_percent (fuel : nat) : forall n acc,
  x25 ∉ acc -> x25 ∉ udec_aux fuel n acc.
Proof.
  induction fuel as [|fuel IH]; intros n acc Hacc; cbn [udec_aux]; [done|].
  assert (x25 ∉ digit (n mod 10) :: acc).
  { apply not_elem_of_cons. split; [|done].
    intros E. by apply (digit_mod10_no_percent n). }
  destruct (n / 10 =? 0); [done|]. by apply IH.
Qed.

Lemma udec_no_percent (n : Z) : x25 ∉ udec n.
Proof. apply udec_aux_no_percent, not_elem_of_nil. Qed.

Lemma dropWhile_elem {A} (f : A -> bool) (l : list A) (x : A) :
  x ∈ dropWhile f l -> x ∈ l.
Proof.
  induction l as [|y l IH]; cbn [dropWhile]; [done|].
  destruct (f y); [|done]. intros H. apply elem_of_cons. right. by apply IH.
Qed.

Lemma trimRight_elem (s : bytes) (c x : byte) : x ∈ trimRight s c -> x ∈ s.
Proof.
  unfold trimRight. intros H.
  apply list_elem_of_In, in_rev, list_elem_of_In, dropWhile_elem in H.
  by apply list_elem_of_In, in_rev, list_elem_of_In.
Qed.

Lemma fmt_f_no_percent (prec : nat) (v : float) : x25 ∉ fmt_f prec v.
Proof.
  unfold fmt_f. destruct (Prim2SF v) as [s|s| |s m e].
  - rewrite !not_elem_of_app. split; [destruct s; not_in_literal|].
    split; [not_in_literal|]. intros H. apply list_elem_of_In, repeat_spec in H.
    discriminate H.
  - destruct s; not_in_literal.
  - not_in_literal.
  - cbn zeta. rewrite !not_elem_of_app. split; [destruct s; not_in_literal|].
    split; [apply udec_no_percent|]. split; [not_in_literal|].
    unfold zpad. rewrite not_elem_of_app. split; [|apply udec_no_percent].
    intros H. apply list_elem_of_In, repeat_spec in H. discriminate H.
Qed.

Lemma realStr_no_percent (v : float) : x25 ∉ realStr v.
Proof.
  unfold realStr. intros H. do 2 apply trimRight_elem in H.
  by apply (fmt_f_no_percent 3 v).
Qed.

Lemma pdfCode_no_percent (c : Color) (fill : bool) :
  x25 ∉ pdfCode (makeColorInfo c) fill.
Proof.
  unfold pdfCode.
  assert (Hop : x25 ∉ (if fill then op (makeColorInfo c)
                       else toUpper (op (makeColorInfo c)))).
  { destruct c, fill; not_in_literal. }
  apply not_elem_of_app. split; [|exact Hop].
  generalize (params (makeColorInfo c)) as ps. clear Hop.
  induction ps as [|p ps IH]; cbn [map concat]; [apply not_elem_of_nil|].
  rewrite !not_elem_of_app. split; [|exact IH].
  split; [apply realStr_no_percent | not_in_literal].
Qed.

(** X12: the picture has no percent sign, whatever the colour of the
    muffler is.  [WriteTo] passes the string [essentialCode] returns to
    [fmt.Fprintf] as the format, with no operands: a format without a
    verb is written as it is. *)
Theorem essentialCode_no_percent (p : page) (scale : float) :
  x25 ∉ essentialCode p scale.
Proof.
  unfold essentialCode. cbn zeta.
  rewrite !app_assoc. rewrite <- (app_assoc _ _ (println [eoMufflerCode])).
  rewrite not_elem_of_app. split.
  { apply no_percent_bool. vm_compute. reflexivity. }
  rewrite not_elem_of_app. split; [|apply no_percent_bool; vm_compute; reflexivity].
  unfold println. cbn [sepBy]. rewrite !not_elem_of_app.
  split; [|not_in_literal].
  split; [apply pdfCode_no_percent|].
  split; [not_in_literal | apply pdfCode_no_percent].
Qed.

(** ** The document information *)

Lemma generate_authored d w now pd r :
  generate d w now = Some (pd, r) -> authored (info d) pd.
Proof.
  apply (generate_keeps (authored (info d))).
  - intros d0 cs H0. destruct (write d0 cs) as [d1 e] eqn:Hw.
    apply write_spec in Hw as (Hm & _). cbn [fst].
    unfold meta in Hm. unfold authored in *.
    injection Hm as _ _ _ _ -> -> -> -> -> _. exact H0.
  - intros d0 H0. exact H0.
  - intros d0 x H0. exact H0.
  - intros d0 x H0. exact H0.
  - intros d0 x H0. exact H0.
  - destruct (newPdfDoc w (info d)) as [d1 e] eqn:Hn. cbn [fst].
    unfold newPdfDoc in Hn. cbn [newId fst snd] in Hn.
    apply write_spec in Hn as (Hm & _).
    unfold meta in Hm. unfold authored.
    injection Hm as _ _ _ _ -> -> -> -> -> _. done.
Qed.

(** X13: the information object of a file that [WriteTo] writes without
    an error has, in this order, the entries [Title], [Author],
    [Subject], [Producer], [Creator], [CreationDate] and [ModDate], each
    with the string of the info map as [pdfStr] writes it, and
    [/Trapped/False].  An entry whose string is empty is left out;
    [Producer] is [scpdf-0.18.0] and [Creator] is [scpdf] where the map
    has none; the two dates are the same string, the one of the map or,
    without one, the clock read as [pdfFormatDate] formats it. *)
Theorem information_entries d w now s n :
  w_result (WriteTo d w now) = Some (s, n, None) ->
  let get := infoGet (info d) in
  ∃ date before after,
    Some date =
      (if bool_decide (get "creationDate" pdfUseNow = pdfUseNow)
       then pdfFormatDate now else Some (get "creationDate" pdfUseNow)) /\
    content s =
      content w ++ before ++
      (bs "<<" ++
       infoChunk (bs "Title") (get "title" []) ++
       infoChunk (bs "Author") (get "author" []) ++
       infoChunk (bs "Subject") (get "subject" []) ++
       infoChunk (bs "Producer") (get "producer" (bs "scpdf-0.18.0")) ++
       infoChunk (bs "Creator") (get "creator" (bs "scpdf")) ++
       infoChunk (bs "CreationDate") date ++
       infoChunk (bs "ModDate") date ++
       bs "/Trapped/False>>" ++ [NL] ++ bs "endobj" ++ [NL]) ++
      after.
Proof.
  intros H. cbn zeta.
  destruct (WriteTo_cases d) as [(_ & _ & Hc)|Hc];
    rewrite (Hc w now) in H; cbn [w_result] in H; [done|].
  destruct (generate (settled d) w now) as [[pd r]|] eqn:Hg;
    [|discriminate H].
  injection H as <- <- ->.
  destruct (generate_authored _ _ _ _ _ Hg) as (Ht & Ha & Hs & Hp & Hcr).
  change (info (settled d)) with (info d) in *.
  apply generate_generation in Hg.
  destruct (generation_output _ _ _ _ _ Hg)
    as (Hcont & _ & _ & _ & _ & _ & Hdate & _).
  cbn zeta in Hcont. change (info (settled d)) with (info d) in *.
  set (ops := _ ++ pageOps _ _ _ _) in Hcont.
  set (xrefPos := int_wrap _) in Hcont.
  exists (creationDate pd),
    (concat (pdfHeader (infoGet (info d) "version" dfltPdfVersion)) ++
     runBytes 1 ops ++ object 1 (pageTreeOf (pagesOf ops)) ++
     object (Z.of_nat (2 + allocated ops)) (objectChunks (catalogBody 1)) ++
     objHeader (Z.of_nat (S (2 + allocated ops)))),
    (xrefTable (xref pd) ++
     concat (trailer (len (xref pd)) (Z.of_nat (2 + allocated ops))
               (Z.of_nat (S (2 + allocated ops))) xrefPos
               (md5Sum (idSeed pd xrefPos)))).
  split; [exact Hdate|].
  rewrite Hcont. unfold object at 3. unfold docInfo. cbn [concat].
  rewrite Ht, Ha, Hs, Hp, Hcr. rewrite app_nil_r, <- !app_assoc.
  reflexivity.
Qed.

(** ** What [addStream] emits *)

Lemma addStream_err d id data d' r :
  addStream d id data = Some (d', r) -> werr (writer d') = r.
Proof.
  unfold addStream. intros H.
  destruct (startObject d id) as [[d1 [e|]]|] eqn:Hs; cbn in H; [| |done].
  - injection H as <- <-. apply startObject_spec in Hs as (_ & _ & Hs).
    by apply write_err in Hs.
  - injection H as H. apply write_err in H; [done|apply streamChunks_ne].
Qed.

Lemma addStream_returns d id data :
  0 < id -> xref d !! Z.to_nat id = Some 0 ->
  ∃ d' r, addStream d id data = Some (d', r).
Proof.
  intros Hid Hx. unfold addStream, startObject.
  assert ((0 <? id) = true) as -> by (apply Z.ltb_lt; lia).
  rewrite Hx. cbn [negb Z.eqb].
  destruct (write _ [objHeader id]) as [d1 [e|]]; cbn [andThen].
  - by exists d1, (Some e).
  - destruct (write d1 (streamChunks data)) as [d2 r]. by exists d2, r.
Qed.

Lemma addStream_accepts d id data d' r :
  (forall calls p, sinkWrite calls p = None) ->
  werr (writer d) = None ->
  addStream d id data = Some (d', r) -> r = None.
Proof.
  intros Hacc Hn H. unfold addStream in H.
  destruct (startObject d id) as [[d1 e]|] eqn:Hs; [|done].
  pose proof Hs as Hs'. apply startObject_spec in Hs' as (Hid & Hx & _).
  destruct (startObject_accepts Hacc d id Hn Hid Hx) as (d1' & Hs1).
  rewrite Hs in Hs1. injection Hs1 as <- ->. cbn [andThen] in H.
  assert (Hn1 : werr (writer d1) = None).
  { apply startObject_spec in Hs as (_ & _ & Hw).
    eapply write_ok_werr; [|exact Hw]. done. }
  destruct (write_accepts Hacc (streamChunks data) d1 Hn1) as (d2 & Hw & _).
  rewrite Hw in H. by injection H as _ <-.
Qed.

(** C3: [addStream], called for an identifier that was allocated and is
    not yet used, returns, and decides by the length of the zlib output.
    When that is at most the raw length minus 32, what it adds to the
    output after the header line is the dictionary with [/Length] the
    compressed length and the key [/Filter/FlateDecode], then the
    compressed bytes; otherwise the dictionary with [/Length] the raw
    length and no [/Filter], then the raw bytes as they are.  The whole
    of it is in the output when the call returns no error; an error it
    returns is the one the writer holds, and there is none when the sink
    takes every write. *)
Theorem stream_compression_gate base d out n id (data : bytes) :
  Inv base d out n -> 0 < id -> xref d !! Z.to_nat id = Some 0 ->
  let z := zlibCompress data in
  let dict (n : Z) (filter : bytes) :=
    bs "<</Length " ++ fmt_d n ++ filter ++ bs ">>" ++ [NL] ++
    bs "stream" ++ [NL] in
  let fin := bs "endstream" ++ [NL] ++ bs "endobj" ++ [NL] in
  let chunks :=
    if len z <=? len data - 32
    then [dict (len z) (bs "/Filter/FlateDecode"); z; pdfNewLine z; fin]
    else [dict (len data) []; data; pdfNewLine data; fin] in
  streamChunks data = chunks /\
  (len data - 32 < len z -> ¬ occursIn (bs "/Filter") (dict (len data) [])) /\
  ∃ d' r,
    addStream d id data = Some (d', r) /\
    (r = None ->
     stream (writer d') = base ++ out ++ objHeader id ++ concat chunks) /\
    (forall e, r = Some e -> werr (writer d') = Some e) /\
    ((forall calls p, sinkWrite calls p = None) -> r = None).
Proof.
  intros HI Hid Hx. cbn zeta.
  destruct (streamChunks_gate data) as (Hle & Hgt & _). cbn zeta in Hle, Hgt.
  assert (Hch : streamChunks data =
                if len (zlibCompress data) <=? len data - 32
                then [bs "<</Length " ++ fmt_d (len (zlibCompress data)) ++
                        bs "/Filter/FlateDecode" ++ bs ">>" ++ [NL] ++
                        bs "stream" ++ [NL];
                      zlibCompress data; pdfNewLine (zlibCompress data);
                      bs "endstream" ++ [NL] ++ bs "endobj" ++ [NL]]
                else [bs "<</Length " ++ fmt_d (len data) ++ [] ++
                        bs ">>" ++ [NL] ++ bs "stream" ++ [NL];
                      data; pdfNewLine data;
                      bs "endstream" ++ [NL] ++ bs "endobj" ++ [NL]]).
  { destruct (len (zlibCompress data) <=? len data - 32) eqn:E.
    - apply Hle. by apply Z.leb_le.
    - apply Hgt. by apply Z.leb_gt. }
  split; [exact Hch|]. split; [intros Hlt; by apply Hgt|].
  destruct (addStream_returns d id data Hid Hx) as (d' & r & Ha).
  exists d', r. split; [exact Ha|]. split; [|split].
  - intros ->. rewrite <- Hch. by apply (streamChunks_concat base d out n).
  - intros e ->. by apply addStream_err in Ha.
  - intros Hacc. destruct HI as (Hn & _).
    by apply (addStream_accepts d id data d' r).
Qed.

(** ** The references of the [Kids] array *)




End Generation.

(** * Instances *)

Lemma xref_table_entries_witness :
  ∃ d',
    generation okSink noCompress zeroDigest [] emptySink ∅ oneObject aTime
      = Some (d', None) /\
    len (content (wr (writer d'))) < len (content emptySink) + 10 ^ 10 /\
    ∃ out before tail,
      content (wr (writer d')) = content emptySink ++ out /\
      out = before ++ xrefTable (xref d') ++ tail /\
      length (xref d') = (1 + (3 + allocated oneObject))%nat /\
      ∀ i : nat, (1 <= i < length (xref d'))%nat ->
        ∃ off, xref d' !! i = Some off /\
               length (fmt_0d 10 off) = 10%nat /\
               headerAt out off (Z.of_nat i).
Proof.
  eexists. split; [vm_compute; reflexivity|].
  split; [vm_compute; reflexivity|].
  apply (xref_table_entries okSink noCompress zeroDigest [] emptySink ∅
           oneObject aTime); vm_compute; reflexivity.
Defined.

Lemma trailer_id_is_digest_witness :
  ∃ d',
    generation okSink noCompress zeroDigest [] emptySink ∅ oneObject aTime
      = Some (d', None) /\
    ∃ before sizeLine xrefPos,
      let digest :=
        zeroDigest (creationDate d' ++ bs "/" ++ title d' ++ bs "/" ++
                    fmt_d xrefPos) in
      content (wr (writer d')) =
        content emptySink ++ before ++ xrefTable (xref d') ++
        bs "trailer" ++ [NL] ++ sizeLine ++
        bs "/ID[<" ++ fmt_X digest ++ bs "><" ++ fmt_X digest ++ bs ">]>>" ++
        [NL] ++ bs "startxref" ++ [NL] ++ fmt_d xrefPos ++ [NL] ++
        bs "%%EOF" ++ [NL] /\
      xrefPos = int_wrap (len before) /\
      length (fmt_X digest) = (2 * length digest)%nat /\
      title d' = infoGet ∅ "title" [] /\
      Some (creationDate d') =
        (if bool_decide (infoGet ∅ "creationDate" pdfUseNow = pdfUseNow)
         then pdfFormatDate aTime
         else Some (infoGet ∅ "creationDate" pdfUseNow)).
Proof.
  eexists. split; [vm_compute; reflexivity|].
  apply (trailer_id_is_digest okSink noCompress zeroDigest [] emptySink ∅
           oneObject aTime). vm_compute. reflexivity.
Defined.

Lemma sink_error_surfaces_witness :
  ∃ s n err,
    w_result (WriteTo failSecond noCompress zeroDigest [] emptyDoc emptySink
                aTime) = Some (s, n, err) /\
    ∃ log, calls s = calls emptySink ++ log /\
           surfaced failSecond (calls emptySink) log err.
Proof.
  let v := eval vm_compute in
    (w_result (WriteTo failSecond noCompress zeroDigest [] emptyDoc emptySink
                 aTime)) in
  lazymatch v with
  | Some (?s, ?n, ?err) =>
      exists s, n, err;
      assert (H : w_result (WriteTo failSecond noCompress zeroDigest []
                              emptyDoc emptySink aTime) = Some (s, n, err))
        by (vm_compute; reflexivity);
      split; [exact H|];
      exact (sink_error_surfaces failSecond noCompress zeroDigest []
               emptyDoc emptySink aTime s n err H)
  end.
Defined.

Lemma invalid_arguments_rejected_witness :
  PrimFloat.leb (-1)%float PrimFloat.zero ||
    PrimFloat.leb 842%float PrimFloat.zero = true /\
  (PrimFloat.leb 0%float PrimFloat.zero = true \/ Some dfltMuffler = None) /\
  (∃ e, SetPageSize emptyDoc (-1)%float 842%float = (emptyDoc, Some e)) /\
  (∃ e, NewWithSize (-1)%float 842%float = (emptyDoc, Some e)) /\
  (∃ e, AddPageScaled emptyDoc (Some dfltMuffler) 0%float
        = (emptyDoc, Some e)).
Proof.
  split; [vm_compute; reflexivity|]. split; [left; vm_compute; reflexivity|].
  apply invalid_arguments_rejected; [vm_compute; reflexivity|].
  left. vm_compute. reflexivity.
Defined.

Lemma date_round_trip_witness :
  valid_time aTime /\ 0 <= year aTime <= 9999 /\
  Z.rem (offset aTime) 60 = 0 /\ Z.abs (offset aTime) < 90000 /\
  ∃ s, pdfFormatDate aTime = Some s /\
       pdfParseDate s = Some (inl (truncSecond aTime)).
Proof.
  assert (Hv : valid_time aTime) by (unfold valid_time; cbn; lia).
  assert (Hy : 0 <= year aTime <= 9999) by (cbn; lia).
  assert (Hr : Z.rem (offset aTime) 60 = 0) by reflexivity.
  assert (Ha : Z.abs (offset aTime) < 90000) by reflexivity.
  split; [exact Hv|]. split; [exact Hy|]. split; [exact Hr|].
  split; [exact Ha|]. exact (date_round_trip aTime Hv Hy Hr Ha).
Defined.

(** The claim as it stands, for any time value, fails at the first
    instant of the year 10000: the year takes five digits, the string has
    18 bytes, and the assignment to [b[19]] panics. *)
Lemma date_round_trip_fails_in_year_10000 :
  valid_time year10000 /\ pdfFormatDate year10000 = None /\
  ¬ ∃ s, pdfFormatDate year10000 = Some s /\
         pdfParseDate s = Some (inl (truncSecond year10000)).
Proof.
  split; [unfold valid_time; cbn; lia|]. split; [reflexivity|].
  intros (s & Hs & _). discriminate Hs.
Qed.

(** A generation into an accepting sink, with no client object and a
    version string [v] of 10^10 bytes: it completes, and the page tree,
    object 1, starts at byte 10000000012. *)
Lemma generation_beyond_ten_digits (v : bytes) :
  len v = 10 ^ 10 ->
  ∃ d',
    generation okSink noCompress zeroDigest [] emptySink
      {["version" := v]} [] aTime = Some (d', None) /\
    xref d' !! 1%nat = Some 10000000012.
Proof.
  intros Hv. unfold generation.
  destruct (newPdfDoc okSink emptySink {["version" := v]}) as [d0 e0] eqn:Hnew.
  assert (He0 : e0 = None).
  { unfold newPdfDoc in Hnew. cbn [newId fst snd] in Hnew.
    match type of Hnew with
    | write _ ?d ?cs = _ =>
        destruct (write_accepts okSink (fun _ _ => eq_refl) cs d eq_refl)
          as (d1 & Hw & _)
    end.
    rewrite Hw in Hnew. by injection Hnew as _ <-. }
  subst e0. cbn [andThen run].
  pose proof (newPdfDoc_Inv okSink _ _ _ Hnew)
    as (HI & Hx & Hpi & Hpg & Hver & _ & Hcd).
  unfold infoGet in Hver, Hcd. rewrite lookup_singleton_eq in Hver.
  rewrite lookup_singleton_ne in Hcd by done.
  rewrite Hver in HI. cbn [content emptySink] in HI.
  assert (Hout : len (concat (pdfHeader v)) = 10000000012).
  { unfold pdfHeader. cbn [concat]. rewrite !len_app, Hv. reflexivity. }
  assert (Hbody :
    len (object 1 (pageTree [] d0) ++
         object 2 (objectChunks (catalogBody [] 1))) < 1000).
  { unfold pageTree. rewrite Hpg. vm_compute. reflexivity. }
  destruct (finish_accepts okSink noCompress zeroDigest []
              (fun _ _ => eq_refl) [] d0 _ 2 aTime HI) as (d' & Hfin).
  - rewrite Hpi. lia.
  - rewrite Hpi, Hx. reflexivity.
  - rewrite Hx, Hpi. intros i off Hi H1 Hne.
    destruct i as [|[|i]]; [lia | by destruct Hne | done].
  - rewrite Hout. lia.
  - rewrite Hpi. rewrite len_app, Hout. change (Z.of_nat 2) with 2.
    assert (10000000012 + 1000 < 2 ^ 63) by reflexivity. lia.
  - unfold resolveDate. rewrite Hcd. rewrite bool_decide_eq_true_2 by done.
    by eexists.
  - exists d'. split; [exact Hfin|].
    destruct (finish_output okSink zeroDigest [] _ _ _ _ _ _ HI Hfin)
      as (body & _ & _ & _ & _ & _ & _ & _ & _ & _ & _ & _ & Hent).
    rewrite Hpi, Hout in Hent. exact Hent.
Qed.

(** The claim as it stands, for every completed generation, fails for an
    output beyond 10^10 bytes: the entry of object 1 is
    [10000000012 00000 n], an offset of eleven digits. *)
Lemma xref_offset_of_eleven_digits :
  ∃ d',
    generation okSink noCompress zeroDigest [] emptySink
      {["version" := bigVersion]} [] aTime = Some (d', None) /\
    xref d' !! 1%nat = Some 10000000012 /\
    fmt_0d 10 10000000012 = bs "10000000012" /\
    length (fmt_0d 10 10000000012) = 11%nat.
Proof.
  destruct (generation_beyond_ten_digits bigVersion) as (d' & Hg & Hx).
  { unfold len, bigVersion. rewrite repeat_length, Z2Nat.id; [done|].
    by apply Z.pow_nonneg. }
  exists d'. split; [done|]. split; [done|]. split; reflexivity.
Qed.

Lemma no_pages_one_default_page_witness :
  ∃ s n,
    w_result (WriteTo okSink noCompress zeroDigest [] emptyDoc emptySink
                aTime) = Some (s, n, None) /\
    doc_pages (w_doc (WriteTo okSink noCompress zeroDigest [] emptyDoc
                        emptySink aTime)) = [defaultPage] /\
    mediaBox (w_doc (WriteTo okSink noCompress zeroDigest [] emptyDoc
                       emptySink aTime)) =
      bs "/MediaBox[0 0 595.276 833.386]".
Proof.
  let v := eval vm_compute in
    (w_result (WriteTo okSink noCompress zeroDigest [] emptyDoc emptySink
                 aTime)) in
  lazymatch v with
  | Some (?s, ?n, None) =>
      exists s, n;
      assert (H : w_result (WriteTo okSink noCompress zeroDigest [] emptyDoc
                              emptySink aTime) = Some (s, n, None))
        by (vm_compute; reflexivity);
      split; [exact H|];
      destruct (no_pages_one_default_page okSink noCompress zeroDigest []
                  emptyDoc emptySink aTime s n eq_refl eq_refl eq_refl H)
        as (Hp & _ & _ & _ & Hmb & _);
      split; [exact Hp | exact Hmb]
  end.
Defined.

(** The default height is 294 mm in points: 833.386, more than eight
    points short of 842, which is what 297 mm comes to. *)
Lemma default_height_is_833 :
  realStr dfltWidth = bs "595.276" /\
  realStr dfltHeight = bs "833.386" /\
  PrimFloat.ltb dfltHeight (f64 834) = true /\
  realStr (PrimFloat.div (f64 (297 * 72 * 5)) (f64 127)) = bs "841.89" /\
  mediaBox (w_doc (WriteTo okSink noCompress zeroDigest [] emptyDoc
                     emptySink aTime)) =
    bs "/MediaBox[0 0 595.276 833.386]".
Proof. vm_compute. repeat split. Qed.

Lemma PageSize_after_SetPageSize_witness :
  ∃ d', SetPageSize emptyDoc (f64 100) (f64 200) = (d', None) /\
        PageSize d' = (d', (f64 100, f64 200)).
Proof.
  set (d' := {| width := f64 100; height := f64 200; doc_pages := [];
                frozen := false; info := ∅ |}).
  assert (H : SetPageSize emptyDoc (f64 100) (f64 200) = (d', None))
    by reflexivity.
  exists d'. split; [exact H|].
  exact (proj1 (PageSize_after_SetPageSize emptyDoc d' _ _ H)).
Defined.

Lemma WriteTo_count_witness :
  ∃ s n,
    w_result (WriteTo okSink noCompress zeroDigest [] emptyDoc emptySink
                aTime) = Some (s, n, None) /\
    ∃ out, content s = content emptySink ++ out /\ n = int_wrap (len out).
Proof.
  let v := eval vm_compute in
    (w_result (WriteTo okSink noCompress zeroDigest [] emptyDoc emptySink
                 aTime)) in
  lazymatch v with
  | Some (?s, ?n, None) =>
      exists s, n;
      assert (H : w_result (WriteTo okSink noCompress zeroDigest [] emptyDoc
                              emptySink aTime) = Some (s, n, None))
        by (vm_compute; reflexivity);
      split; [exact H|];
      destruct (WriteTo_count okSink noCompress zeroDigest [] emptyDoc
                  emptySink aTime s n H) as (out & Hc & Hn & _);
      exists out; split; [exact Hc | exact Hn]
  end.
Defined.

Lemma WriteTo_error_cause_witness :
  ∃ s n e,
    w_result (WriteTo failSecond noCompress zeroDigest [] emptyDoc emptySink
                aTime) = Some (s, n, Some e) /\
    ∃ log k, calls s = calls emptySink ++ log /\
             failedAt failSecond (calls emptySink) log k e /\
             S k = length log.
Proof.
  let v := eval vm_compute in
    (w_result (WriteTo failSecond noCompress zeroDigest [] emptyDoc emptySink
                 aTime)) in
  lazymatch v with
  | Some (?s, ?n, Some ?e) =>
      exists s, n, e;
      assert (H : w_result (WriteTo failSecond noCompress zeroDigest []
                              emptyDoc emptySink aTime) = Some (s, n, Some e))
        by (vm_compute; reflexivity);
      split; [exact H|];
      destruct (WriteTo_error_cause failSecond noCompress zeroDigest []
                  emptyDoc emptySink aTime s n e H)
        as [(_ & Hf & _)|Hcause]; [discriminate Hf | exact Hcause]
  end.
Defined.



Lemma used_id_panics_witness :
  ∃ d d', addObject okSink d 2 procSet = Some (d', None) /\
          startObject okSink d' 2 = None.
Proof.
  pose (d0 := (newPdfDoc okSink emptySink ∅).1).
  assert (Hn : newPdfDoc okSink emptySink ∅ = (d0, None))
    by (vm_compute; reflexivity).
  destruct (newPdfDoc_Inv okSink _ _ _ Hn) as (HI & _).
  destruct (newId_Inv _ _ _ _ HI) as [HI1 _].
  assert (Hne : int_wrap (len (concat (pdfHeader (version d0)))) ≠ 0)
    by (vm_compute; discriminate).
  let v := eval vm_compute in (addObject okSink (newId d0).1 2 procSet) in
  lazymatch v with
  | Some (?d', None) =>
      exists (newId d0).1, d';
      assert (H : addObject okSink (newId d0).1 2 procSet = Some (d', None))
        by (vm_compute; reflexivity);
      split; [exact H|];
      exact (proj1 (used_id_panics okSink noCompress [] _ _ _ _ _ _ _
                      HI1 Hne H))
  end.
Defined.

Lemma pdfParseDate_prefix_optional_witness :
  pdfParseDate (bs "D:" ++ bs "2018") =
    match pdfParseDate (bs "2018") with
    | Some (inr _) => Some (inr (ErrDateFormat (bs "D:" ++ bs "2018")))
    | r => r
    end.
Proof.
  apply pdfParseDate_prefix_optional.
  - vm_compute. lia.
  - intros E. vm_compute in E. discriminate E.
Defined.

Lemma pdfParseDate_year_only_witness :
  pdfParseDate (fmt_0d 4 2018) = Some (inl (newYear 2018)).
Proof. apply pdfParseDate_year_only. lia. Defined.

Lemma colour_operands_in_range_witness :
  Forall (fun p => unitInterval p = true) (params (makeColorInfo dfltMuffler)).
Proof.
  apply (colour_operands_in_range dfltMuffler). cbn. lia.
Defined.

Lemma information_entries_witness :
  ∃ s n,
    w_result (WriteTo okSink noCompress zeroDigest [] emptyDoc emptySink
                aTime) = Some (s, n, None) /\
    ∃ date, Some date = pdfFormatDate aTime.
Proof.
  let v := eval vm_compute in
    (w_result (WriteTo okSink noCompress zeroDigest [] emptyDoc emptySink
                 aTime)) in
  lazymatch v with
  | Some (?s, ?n, None) =>
      exists s, n;
      assert (H : w_result (WriteTo okSink noCompress zeroDigest [] emptyDoc
                              emptySink aTime) = Some (s, n, None))
        by (vm_compute; reflexivity);
      split; [exact H|];
      destruct (information_entries okSink noCompress zeroDigest [] emptyDoc
                  emptySink aTime s n H) as (date & _ & _ & Hd & _);
      exists date; exact Hd
  end.
Defined.

Lemma hex_string_form_witness :
  pdfStr [xc3; xa9] = bs "<" ++ (bs "FEFF" ++ bs "00E9") ++ bs ">".
Proof.
  apply (hex_string_form [xc3; xa9]).
  vm_compute. constructor. reflexivity.
Defined.

Lemma literal_round_trip_witness :
  pdfLiteralDecode (pdfStr (bs "a(b)")) = Some (bs "a(b)").
Proof.
  apply literal_round_trip.
  repeat constructor; (vm_compute; congruence) || discriminate.
Defined.

(** [addStream] on a fresh identifier with a sink that takes every write:
    with a compressor that gains nothing the raw bytes are written, with
    one that gains enough the compressed bytes and the filter. *)
Lemma stream_compression_gate_witness :
  ∃ d,
    (∃ d', addStream okSink noCompress d 2 (bs "q Q") = Some (d', None) /\
           stream (writer d') =
             concat (pdfHeader dfltPdfVersion) ++ objHeader 2 ++
             bs "<</Length 3>>" ++ [NL] ++ bs "stream" ++ [NL] ++
             bs "q Q" ++ [NL] ++
             bs "endstream" ++ [NL] ++ bs "endobj" ++ [NL]) /\
    (∃ d', addStream okSink toyDeflate d 2 (repeat x41 40) = Some (d', None) /\
           stream (writer d') =
             concat (pdfHeader dfltPdfVersion) ++ objHeader 2 ++
             bs "<</Length 2/Filter/FlateDecode>>" ++ [NL] ++
             bs "stream" ++ [NL] ++ [x78; x9c] ++ [NL] ++
             bs "endstream" ++ [NL] ++ bs "endobj" ++ [NL]).
Proof.
  pose (d0 := (newPdfDoc okSink emptySink ∅).1).
  assert (Hn : newPdfDoc okSink emptySink ∅ = (d0, None))
    by (vm_compute; reflexivity).
  destruct (newPdfDoc_Inv okSink _ _ _ Hn) as (HI & _).
  destruct (newId_Inv _ _ _ _ HI) as [HI1 _].
  assert (Hx : xref (newId d0).1 !! Z.to_nat 2 = Some 0) by reflexivity.
  exists (newId d0).1. split.
  - destruct (stream_compression_gate okSink noCompress _ _ _ _ 2 (bs "q Q")
                HI1 eq_refl Hx) as (_ & _ & d' & r & Ha & Hs & _ & Hacc).
    rewrite (Hacc (fun _ _ => eq_refl)) in Ha.
    exists d'. split; [exact Ha|].
    rewrite (Hs (Hacc (fun _ _ => eq_refl))). vm_compute. reflexivity.
  - destruct (stream_compression_gate okSink toyDeflate _ _ _ _ 2
                (repeat x41 40) HI1 eq_refl Hx)
      as (_ & _ & d' & r & Ha & Hs & _ & Hacc).
    rewrite (Hacc (fun _ _ => eq_refl)) in Ha.
    exists d'. split; [exact Ha|].
    rewrite (Hs (Hacc (fun _ _ => eq_refl))). vm_compute. reflexivity.
Defined.


